(** * Page-interaction layer (src/script.js): a shallow embedding

    The script is one [DOMContentLoaded] callback.  Its closure holds
    references to a handful of DOM elements (each possibly [null]), three
    state variables, and a set of arrow functions that mutate the DOM.  The
    embedding keeps that shape: one [State] record for everything the
    closure can read or write, a small state-and-exception monad [JS] for the
    function bodies, and one definition per source function, under the
    source's name.

    Embedded: [revealPageContent], [handleHeaderScroll], [toggleMobileNav],
    [closeMobileNav], [applyTheme], [updateThemeToggleIcon], [toggleTheme],
    [updateScrollProgress], [setFooterYear], [displayFinanceNews],
    [initScrollAnimations] with [defaultAnimation] and [staggerAnimation],
    the listeners, the timer callback, and the body of the callback itself
    ([pageLoad]).  The callbacks the host runs after the load are the events
    of [dispatch].

    Numbers.  A JavaScript number is an IEEE 754 binary64 value.  The finite
    values the host hands to the script ([scrollY], [offsetHeight]) are
    rationals and are held as [Q]; [scrollHeight] and [innerHeight] are
    integers (WebIDL [long]) and are held as [Z].  Comparisons, and the
    subtraction of two such integers at line 139, are exact.  The division
    and the multiplication of line 141 round to the nearest binary64 value,
    ties to even, and overflow to an infinity ([roundDouble]).

    Host.  The DOM, [localStorage], [fetch] and the animation library are
    modelled by the effect the script relies on: class lists are sets of
    tokens, attributes a finite map, storage a finite map behind an access
    check, the network an oracle, and [gsap.set] an immediate assignment of
    style properties. *)

From Stdlib Require Import QArith Lqa Qround Qabs Qpower Ascii String.
From stdpp Require Import base option list strings gmap pretty.

Local Open Scope string_scope.

(** ** Exceptions and completions *)

Inductive Exn : Type :=
  | TypeError (what : string)            (* property access on null, call of a non-function *)
  | ReferenceError (name : string)       (* identifier that resolves nowhere *)
  | HttpError (status : nat)             (* [new Error(`HTTP error! status: ...`)] *)
  | NetworkError                         (* [fetch] rejected *)
  | SyntaxError                          (* [response.json()] rejected; empty class token *)
  | SecurityError                        (* storage access denied *)
  | QuotaExceededError                   (* storage write refused *)
  | InvalidCharacterError (token : string). (* class token with white space *)

Inductive Completion (A : Type) : Type :=
  | Normal (a : A)
  | Throw (e : Exn).
Arguments Normal {A} a.
Arguments Throw {A} e.

(** ** Numbers

    Binary64 has 53 significant bits and exponents from -1074 (the least
    subnormal) to 1023; a result is the representable value nearest to the
    exact one, the one with an even significand when two are equally near,
    and an infinity when that value would reach 2^1024. *)

Definition pow2 (e : Z) : Q := (2 ^ e)%Q.

(** The integer nearest to [x]; the even one when [x] is halfway. *)
Definition roundTiesToEven (x : Q) : Z :=
  let f := Qfloor x in
  match (x - inject_Z f ?= 1 # 2)%Q with
  | Lt => f
  | Gt => (f + 1)%Z
  | Eq => if Z.even f then f else (f + 1)%Z
  end.

(** [floor (log2 x)], for [x > 0]. *)
Definition ilog2 (x : Q) : Z :=
  let k := (Z.log2 (Qnum x) - Z.log2 (Zpos (Qden x)))%Z in
  if Qle_bool (pow2 k) x then k else (k - 1)%Z.

(** The exponent of the unit in the last place of the binary64 values
    around [x]. *)
Definition quantum (x : Q) : Z := Z.max (ilog2 (Qabs x) - 52) (-1074).

(** The multiple of [2^e] nearest to [x]. *)
Definition nearest (e : Z) (x : Q) : Q :=
  (inject_Z (roundTiesToEven (x / pow2 e)) * pow2 e)%Q.

(** The value of an arithmetic expression.  [NaN] does not arise from the
    operations below on the operands the script has, and a zero carries no
    sign: the script only prints the value, and [-0] prints as [0]. *)
Inductive Double : Type :=
  | Finite (q : Q)
  | PlusInfinity
  | MinusInfinity.

Definition roundDouble (x : Q) : Double :=
  if Qeq_bool x 0 then Finite 0
  else
    let r := nearest (quantum x) x in
    if Qle_bool (pow2 1024) (Qabs r)
    then (if Qle_bool 0 x then PlusInfinity else MinusInfinity)
    else Finite (Qred r).

(** [a / b] for finite [a] and finite [b] other than 0; [a * b] for a
    finite [b > 0]. *)
Definition numberDiv (a b : Q) : Double := roundDouble (a / b).

Definition numberMul (a : Double) (b : Q) : Double :=
  match a with
  | Finite q => roundDouble (q * b)
  | _ => a
  end.

Arguments pow2 : simpl never.
Arguments roundDouble : simpl never.
Arguments numberDiv : simpl never.
Arguments numberMul : simpl never.

(** The order of the values. *)
Definition Dle (a b : Double) : Prop :=
  match a, b with
  | MinusInfinity, _ => True
  | _, PlusInfinity => True
  | Finite p, Finite q => (p <= q)%Q
  | _, _ => False
  end.

(** ** The DOM objects the script holds *)

(** An element reached through one of the script's constants: what the
    script reads or writes of it. *)
Record Node : Type := mkNode {
  classList : gset string;
  attributes : gmap string string;
  innerHTML : string;
  offsetHeight : Q
}.

Definition withClassList (c : gset string) (n : Node) : Node :=
  mkNode c (attributes n) (innerHTML n) (offsetHeight n).
Definition withAttributes (a : gmap string string) (n : Node) : Node :=
  mkNode (classList n) a (innerHTML n) (offsetHeight n).
Definition withInnerHTML (h : string) (n : Node) : Node :=
  mkNode (classList n) (attributes n) h (offsetHeight n).

(** The progress bar: [style.width], as a percentage. *)
Record Indicator : Type := mkIndicator { widthPercent : Q }.

(** The news grid: the markup last assigned to [innerHTML], and the
    [article] elements appended since. *)
Record Article : Type := mkArticle {
  className : string;
  articleHTML : string
}.

Record Grid : Type := mkGrid {
  markup : string;
  appended : list Article
}.

(** An element of the page as the animation code sees it through selector
    queries: the page is the list of its elements in document order, each
    with the index of its parent. *)
Record Style : Type := mkStyle {
  opacity : Q;
  translateX : Q;
  translateY : Q;
  scale : Q
}.

Record Element : Type := mkElement {
  localName : string;                 (* tag, in lower case *)
  elementId : string;
  classes : gset string;
  parentIndex : option nat;
  style : Style
}.

Definition withStyle (st : Style) (e : Element) : Element :=
  mkElement (localName e) (elementId e) (classes e) (parentIndex e) st.

(** ** The host: storage, network, animation library *)

(** [localStorage].  Access can be denied altogether, and a write can be
    refused (quota); both surface as exceptions of the storage call. *)
Record Storage : Type := mkStorage {
  accessible : bool;
  writable : bool;
  slots : gmap string string
}.

(** The news endpoint's contract: [{ items: [ {title, link, imageUrl?,
    excerpt? or description?}, ... ] }].  Every field may be absent. *)
Record NewsItem : Type := mkNewsItem {
  title : option string;
  link : option string;
  imageUrl : option string;
  excerpt : option string;
  description : option string
}.

(** What [response.json()] settles to. *)
Inductive Body : Type :=
  | Unparseable                                   (* rejected: not JSON *)
  | ParsedNull                                    (* the JSON value [null] *)
  | ParsedObject (items : option (list NewsItem)). (* an object, with or without [items] *)

(** What [fetch] settles to. *)
Inductive FetchOutcome : Type :=
  | Rejected
  | Response (status : nat) (body : Body).

(** The variables of a [gsap.from] / [gsap.set] call. *)
Record TweenVars : Type := mkVars {
  vOpacity : option Q;
  vX : option Q;
  vY : option Q;
  vScale : option Q
}.

(** What the script registers with the animation library: a scroll trigger
    and the motions it plays.  [gsap.from(targets, {..., scrollTrigger})] is
    one motion under its own trigger; the timeline of the "about" section
    is a trigger with the motions added to it. *)
Record Motion : Type := mkMotion {
  targets : list nat;
  fromVars : TweenVars;
  duration : Q;
  ease : string;
  stagger : option Q
}.

Record ScrollTrigger : Type := mkScrollTrigger {
  trigger : nat;
  start : string;
  toggleActions : string
}.

Record Animation : Type := mkAnimation {
  scrollTrigger : ScrollTrigger;
  motions : list Motion
}.

Inductive LogEntry : Type :=
  | LogInfo (msg : string)
  | LogError (msg : string) (e : Exn).

(** ** The state of the closure *)

Record State : Type := mkState {
  (* constants: element references, and the page they live in *)
  body : gset string;                          (* body.classList *)
  header : option Node;
  navToggle : option Node;
  mobileNavPanel : option Node;
  themeToggle : option Node;
  scrollProgressIndicator : option Indicator;
  newsGrid : option Grid;
  page : list Element;
  (* window *)
  scrollY : Q;
  scrollHeight : Z;                            (* document.documentElement.scrollHeight *)
  innerHeight : Z;
  prefersReducedMotion : bool;
  localStorage : Storage;
  network : nat -> FetchOutcome;               (* outcome of the n-th request *)
  (* state variables *)
  lastScrollY : Q;
  isNavOpen : bool;
  currentTheme : string;
  (* what the script has caused outside itself *)
  requests : nat;                              (* requests issued so far *)
  console : list LogEntry;
  animations : list Animation;
  refreshes : nat                              (* calls of ScrollTrigger.refresh *)
}.

(** Assignment to one component. *)
Definition withBody (v : gset string) (s : State) : State :=
  mkState v (header s) (navToggle s) (mobileNavPanel s) (themeToggle s)
    (scrollProgressIndicator s) (newsGrid s) (page s) (scrollY s) (scrollHeight s)
    (innerHeight s) (prefersReducedMotion s) (localStorage s) (network s)
    (lastScrollY s) (isNavOpen s) (currentTheme s) (requests s) (console s)
    (animations s) (refreshes s).
Definition withHeader (v : option Node) (s : State) : State :=
  mkState (body s) v (navToggle s) (mobileNavPanel s) (themeToggle s)
    (scrollProgressIndicator s) (newsGrid s) (page s) (scrollY s) (scrollHeight s)
    (innerHeight s) (prefersReducedMotion s) (localStorage s) (network s)
    (lastScrollY s) (isNavOpen s) (currentTheme s) (requests s) (console s)
    (animations s) (refreshes s).
Definition withNavToggle (v : option Node) (s : State) : State :=
  mkState (body s) (header s) v (mobileNavPanel s) (themeToggle s)
    (scrollProgressIndicator s) (newsGrid s) (page s) (scrollY s) (scrollHeight s)
    (innerHeight s) (prefersReducedMotion s) (localStorage s) (network s)
    (lastScrollY s) (isNavOpen s) (currentTheme s) (requests s) (console s)
    (animations s) (refreshes s).
Definition withMobileNavPanel (v : option Node) (s : State) : State :=
  mkState (body s) (header s) (navToggle s) v (themeToggle s)
    (scrollProgressIndicator s) (newsGrid s) (page s) (scrollY s) (scrollHeight s)
    (innerHeight s) (prefersReducedMotion s) (localStorage s) (network s)
    (lastScrollY s) (isNavOpen s) (currentTheme s) (requests s) (console s)
    (animations s) (refreshes s).
Definition withThemeToggle (v : option Node) (s : State) : State :=
  mkState (body s) (header s) (navToggle s) (mobileNavPanel s) v
    (scrollProgressIndicator s) (newsGrid s) (page s) (scrollY s) (scrollHeight s)
    (innerHeight s) (prefersReducedMotion s) (localStorage s) (network s)
    (lastScrollY s) (isNavOpen s) (currentTheme s) (requests s) (console s)
    (animations s) (refreshes s).
Definition withScrollProgressIndicator (v : option Indicator) (s : State) : State :=
  mkState (body s) (header s) (navToggle s) (mobileNavPanel s) (themeToggle s) v
    (newsGrid s) (page s) (scrollY s) (scrollHeight s) (innerHeight s)
    (prefersReducedMotion s) (localStorage s) (network s) (lastScrollY s) (isNavOpen s)
    (currentTheme s) (requests s) (console s) (animations s) (refreshes s).
Definition withNewsGrid (v : option Grid) (s : State) : State :=
  mkState (body s) (header s) (navToggle s) (mobileNavPanel s) (themeToggle s)
    (scrollProgressIndicator s) v (page s) (scrollY s) (scrollHeight s) (innerHeight s)
    (prefersReducedMotion s) (localStorage s) (network s) (lastScrollY s) (isNavOpen s)
    (currentTheme s) (requests s) (console s) (animations s) (refreshes s).
Definition withPage (v : list Element) (s : State) : State :=
  mkState (body s) (header s) (navToggle s) (mobileNavPanel s) (themeToggle s)
    (scrollProgressIndicator s) (newsGrid s) v (scrollY s) (scrollHeight s)
    (innerHeight s) (prefersReducedMotion s) (localStorage s) (network s)
    (lastScrollY s) (isNavOpen s) (currentTheme s) (requests s) (console s)
    (animations s) (refreshes s).
Definition withScrollY (v : Q) (s : State) : State :=
  mkState (body s) (header s) (navToggle s) (mobileNavPanel s) (themeToggle s)
    (scrollProgressIndicator s) (newsGrid s) (page s) v (scrollHeight s) (innerHeight s)
    (prefersReducedMotion s) (localStorage s) (network s) (lastScrollY s) (isNavOpen s)
    (currentTheme s) (requests s) (console s) (animations s) (refreshes s).
Definition withScrollHeight (v : Z) (s : State) : State :=
  mkState (body s) (header s) (navToggle s) (mobileNavPanel s) (themeToggle s)
    (scrollProgressIndicator s) (newsGrid s) (page s) (scrollY s) v (innerHeight s)
    (prefersReducedMotion s) (localStorage s) (network s) (lastScrollY s) (isNavOpen s)
    (currentTheme s) (requests s) (console s) (animations s) (refreshes s).
Definition withInnerHeight (v : Z) (s : State) : State :=
  mkState (body s) (header s) (navToggle s) (mobileNavPanel s) (themeToggle s)
    (scrollProgressIndicator s) (newsGrid s) (page s) (scrollY s) (scrollHeight s) v
    (prefersReducedMotion s) (localStorage s) (network s) (lastScrollY s) (isNavOpen s)
    (currentTheme s) (requests s) (console s) (animations s) (refreshes s).
Definition withPrefersReducedMotion (v : bool) (s : State) : State :=
  mkState (body s) (header s) (navToggle s) (mobileNavPanel s) (themeToggle s)
    (scrollProgressIndicator s) (newsGrid s) (page s) (scrollY s) (scrollHeight s)
    (innerHeight s) v (localStorage s) (network s) (lastScrollY s) (isNavOpen s)
    (currentTheme s) (requests s) (console s) (animations s) (refreshes s).
Definition withLocalStorage (v : Storage) (s : State) : State :=
  mkState (body s) (header s) (navToggle s) (mobileNavPanel s) (themeToggle s)
    (scrollProgressIndicator s) (newsGrid s) (page s) (scrollY s) (scrollHeight s)
    (innerHeight s) (prefersReducedMotion s) v (network s) (lastScrollY s) (isNavOpen s)
    (currentTheme s) (requests s) (console s) (animations s) (refreshes s).
Definition withNetwork (v : nat -> FetchOutcome) (s : State) : State :=
  mkState (body s) (header s) (navToggle s) (mobileNavPanel s) (themeToggle s)
    (scrollProgressIndicator s) (newsGrid s) (page s) (scrollY s) (scrollHeight s)
    (innerHeight s) (prefersReducedMotion s) (localStorage s) v (lastScrollY s)
    (isNavOpen s) (currentTheme s) (requests s) (console s) (animations s)
    (refreshes s).
Definition withLastScrollY (v : Q) (s : State) : State :=
  mkState (body s) (header s) (navToggle s) (mobileNavPanel s) (themeToggle s)
    (scrollProgressIndicator s) (newsGrid s) (page s) (scrollY s) (scrollHeight s)
    (innerHeight s) (prefersReducedMotion s) (localStorage s) (network s) v
    (isNavOpen s) (currentTheme s) (requests s) (console s) (animations s)
    (refreshes s).
Definition withIsNavOpen (v : bool) (s : State) : State :=
  mkState (body s) (header s) (navToggle s) (mobileNavPanel s) (themeToggle s)
    (scrollProgressIndicator s) (newsGrid s) (page s) (scrollY s) (scrollHeight s)
    (innerHeight s) (prefersReducedMotion s) (localStorage s) (network s)
    (lastScrollY s) v (currentTheme s) (requests s) (console s) (animations s)
    (refreshes s).
Definition withCurrentTheme (v : string) (s : State) : State :=
  mkState (body s) (header s) (navToggle s) (mobileNavPanel s) (themeToggle s)
    (scrollProgressIndicator s) (newsGrid s) (page s) (scrollY s) (scrollHeight s)
    (innerHeight s) (prefersReducedMotion s) (localStorage s) (network s)
    (lastScrollY s) (isNavOpen s) v (requests s) (console s) (animations s)
    (refreshes s).
Definition withRequests (v : nat) (s : State) : State :=
  mkState (body s) (header s) (navToggle s) (mobileNavPanel s) (themeToggle s)
    (scrollProgressIndicator s) (newsGrid s) (page s) (scrollY s) (scrollHeight s)
    (innerHeight s) (prefersReducedMotion s) (localStorage s) (network s)
    (lastScrollY s) (isNavOpen s) (currentTheme s) v (console s) (animations s)
    (refreshes s).
Definition withConsole (v : list LogEntry) (s : State) : State :=
  mkState (body s) (header s) (navToggle s) (mobileNavPanel s) (themeToggle s)
    (scrollProgressIndicator s) (newsGrid s) (page s) (scrollY s) (scrollHeight s)
    (innerHeight s) (prefersReducedMotion s) (localStorage s) (network s)
    (lastScrollY s) (isNavOpen s) (currentTheme s) (requests s) v (animations s)
    (refreshes s).
Definition withAnimations (v : list Animation) (s : State) : State :=
  mkState (body s) (header s) (navToggle s) (mobileNavPanel s) (themeToggle s)
    (scrollProgressIndicator s) (newsGrid s) (page s) (scrollY s) (scrollHeight s)
    (innerHeight s) (prefersReducedMotion s) (localStorage s) (network s)
    (lastScrollY s) (isNavOpen s) (currentTheme s) (requests s) (console s) v
    (refreshes s).
Definition withRefreshes (v : nat) (s : State) : State :=
  mkState (body s) (header s) (navToggle s) (mobileNavPanel s) (themeToggle s)
    (scrollProgressIndicator s) (newsGrid s) (page s) (scrollY s) (scrollHeight s)
    (innerHeight s) (prefersReducedMotion s) (localStorage s) (network s)
    (lastScrollY s) (isNavOpen s) (currentTheme s) (requests s) (console s)
    (animations s) v.

(** ** The monad of function bodies

    A body runs on the state and completes normally or abruptly; mutations
    made before a [throw] stay. *)

Definition JS (A : Type) : Type := State -> Completion A * State.

Definition ret {A} (a : A) : JS A := λ s, (Normal a, s).
Definition bind {A B} (m : JS A) (f : A -> JS B) : JS B := λ s,
  match m s with
  | (Normal a, s') => f a s'
  | (Throw e, s') => (Throw e, s')
  end.

Declare Scope js_scope.
Delimit Scope js_scope with js.
Bind Scope js_scope with JS.
Notation "x ← y ; z" := (bind y (λ x, z))
  (at level 20, y at level 100, z at level 200, only parsing) : js_scope.
Notation "x ;; z" := (bind x (λ _, z))
  (at level 100, z at level 200, only parsing, right associativity) : js_scope.
Local Open Scope js_scope.

Definition gets {A} (f : State -> A) : JS A := λ s, (Normal (f s), s).
Definition modify (f : State -> State) : JS unit := λ s, (Normal tt, f s).
Definition throw {A} (e : Exn) : JS A := λ s, (Throw e, s).
Definition skip : JS unit := ret tt.

(** [try { m } catch (error) { h error }] *)
Definition tryCatch {A} (m : JS A) (h : Exn -> JS A) : JS A := λ s,
  match m s with
  | (Throw e, s') => h e s'
  | r => r
  end.

Definition exec {A} (m : JS A) (s : State) : State := snd (m s).
Definition completion {A} (m : JS A) (s : State) : Completion A := fst (m s).

Definition consoleLog (msg : string) : JS unit :=
  modify (λ s, withConsole (console s ++ [LogInfo msg]) s).
Definition consoleError (msg : string) (e : Exn) : JS unit :=
  modify (λ s, withConsole (console s ++ [LogError msg e]) s).

(** ** Primitive operations of the host *)

(** [a > b] and [a < b] on numbers. *)
Definition Qgtb (a b : Q) : bool := negb (Qle_bool a b).
Definition Qltb (a b : Q) : bool := negb (Qle_bool b a).

(** The double-quote character, for markup literals. *)
Definition dq : string := String "034"%char EmptyString.

Definition boolToString (b : bool) : string := if b then "true" else "false".

(** [a || d] where [a] is a string, [null] or [undefined]: the empty string
    is falsy too. *)
Definition strOr (a : option string) (d : string) : string :=
  match a with
  | Some EmptyString | None => d
  | Some s => s
  end.

(** Class tokens: [DOMTokenList] refuses the empty token and tokens with
    ASCII white space. *)
Definition isAsciiWhitespace (c : ascii) : bool :=
  (Ascii.eqb c " " || Ascii.eqb c "009" || Ascii.eqb c "010"
   || Ascii.eqb c "012" || Ascii.eqb c "013")%char.

Fixpoint hasWhitespace (s : string) : bool :=
  match s with
  | EmptyString => false
  | String c r => isAsciiWhitespace c || hasWhitespace r
  end.

Definition checkToken (tok : string) : JS unit :=
  match tok with
  | EmptyString => throw SyntaxError
  | _ => if hasWhitespace tok then throw (InvalidCharacterError tok) else skip
  end.

(** The constants that hold an element or [null]. *)
Inductive ElemRef : Type := RHeader | RNavToggle | RMobileNavPanel | RThemeToggle.

Definition refName (r : ElemRef) : string :=
  match r with
  | RHeader => "header"
  | RNavToggle => "navToggle"
  | RMobileNavPanel => "mobileNavPanel"
  | RThemeToggle => "themeToggle"
  end.

Definition deref (r : ElemRef) (s : State) : option Node :=
  match r with
  | RHeader => header s
  | RNavToggle => navToggle s
  | RMobileNavPanel => mobileNavPanel s
  | RThemeToggle => themeToggle s
  end.

Definition store (r : ElemRef) (n : Node) (s : State) : State :=
  match r with
  | RHeader => withHeader (Some n) s
  | RNavToggle => withNavToggle (Some n) s
  | RMobileNavPanel => withMobileNavPanel (Some n) s
  | RThemeToggle => withThemeToggle (Some n) s
  end.

(** Property access through a constant: a [TypeError] when it holds [null]. *)
Definition readNode {A} (r : ElemRef) (f : Node -> A) : JS A := λ s,
  match deref r s with
  | Some n => (Normal (f n), s)
  | None => (Throw (TypeError (refName r)), s)
  end.

Definition writeNode (r : ElemRef) (f : Node -> Node) : JS unit := λ s,
  match deref r s with
  | Some n => (Normal tt, store r (f n) s)
  | None => (Throw (TypeError (refName r)), s)
  end.

(** [r.classList.add(tok)], [.remove(tok)], [.toggle(tok, force)] *)
Definition classListAdd (r : ElemRef) (tok : string) : JS unit :=
  readNode r classList;;
  checkToken tok;;
  writeNode r (λ n, withClassList ({[tok]} ∪ classList n) n).

Definition classListRemove (r : ElemRef) (tok : string) : JS unit :=
  readNode r classList;;
  checkToken tok;;
  writeNode r (λ n, withClassList (classList n ∖ {[tok]}) n).

Definition classListToggle (r : ElemRef) (tok : string) (force : bool) : JS unit :=
  if force then classListAdd r tok else classListRemove r tok.

(** [r.setAttribute(name, value)], [r.innerHTML = value] *)
Definition setAttribute (r : ElemRef) (name value : string) : JS unit :=
  writeNode r (λ n, withAttributes (<[name := value]> (attributes n)) n).

Definition setInnerHTML (r : ElemRef) (value : string) : JS unit :=
  writeNode r (withInnerHTML value).

(** The same on [body], which is never [null]. *)
Definition bodyClassListAdd (tok : string) : JS unit :=
  checkToken tok;;
  modify (λ s, withBody ({[tok]} ∪ body s) s).

Definition bodyClassListRemove (tok : string) : JS unit :=
  checkToken tok;;
  modify (λ s, withBody (body s ∖ {[tok]}) s).

Definition bodyClassListToggle (tok : string) (force : bool) : JS unit :=
  if force then bodyClassListAdd tok else bodyClassListRemove tok.

(** [localStorage.getItem(key)], [localStorage.setItem(key, value)] *)
Definition getItem (key : string) : JS (option string) := λ s,
  if accessible (localStorage s)
  then (Normal (slots (localStorage s) !! key), s)
  else (Throw SecurityError, s).

Definition setItem (key value : string) : JS unit := λ s,
  let st := localStorage s in
  if accessible st
  then if writable st
       then (Normal tt,
             withLocalStorage (mkStorage true true (<[key := value]> (slots st))) s)
       else (Throw QuotaExceededError, s)
  else (Throw SecurityError, s).

(** [scrollProgressIndicator.style.width = `${p}%`].  The text is a width
    when [p] is finite and not negative; a negative percentage and
    [Infinity%] are not, and the style engine drops the assignment. *)
Definition setWidth (p : Double) : JS unit := λ s,
  match scrollProgressIndicator s with
  | Some _ =>
      (Normal tt,
       match p with
       | Finite q =>
           if Qle_bool 0 q then withScrollProgressIndicator (Some (mkIndicator q)) s else s
       | _ => s
       end)
  | None => (Throw (TypeError "scrollProgressIndicator"), s)
  end.

(** ** Header, drawer, theme, progress (script.js 45-143) *)

(** [let currentTheme = localStorage.getItem('theme') || 'light'] (line 22):
    the preference store's read. *)
Definition readStoredTheme : JS string :=
  stored ← getItem "theme";
  ret (strOr stored "light").

(** Lines 45-66. *)
Definition handleHeaderScroll : JS unit :=
  currentScrollY ← gets scrollY;
  hdr ← gets header;
  match hdr with
  | None => skip
  | Some _ =>
      (if Qgtb currentScrollY 50
       then classListAdd RHeader "scrolled"
       else classListRemove RHeader "scrolled");;
      last ← gets lastScrollY;
      height ← readNode RHeader offsetHeight;
      open ← gets isNavOpen;
      (if Qgtb currentScrollY last && Qgtb currentScrollY height && negb open
       then classListAdd RHeader "hidden"
       else classListRemove RHeader "hidden");;
      modify (withLastScrollY currentScrollY)
  end.

(** Lines 71-89. *)
Definition toggleMobileNav : JS unit :=
  modify (λ s, withIsNavOpen (negb (isNavOpen s)) s);;
  open ← gets isNavOpen;
  classListToggle RNavToggle "active" open;;
  setAttribute RNavToggle "aria-expanded" (boolToString open);;
  panel ← gets mobileNavPanel;
  match panel with
  | Some _ =>
      classListToggle RMobileNavPanel "active" open;;
      setAttribute RMobileNavPanel "aria-hidden" (boolToString (negb open))
  | None => skip
  end;;
  bodyClassListToggle "no-scroll" open;;
  if open then classListRemove RHeader "hidden" else skip.

(** Lines 94-98. *)
Definition closeMobileNav : JS unit :=
  open ← gets isNavOpen;
  if open then toggleMobileNav else skip.

(** Lines 116-123. *)
Definition sunIcon : string := "<i class=" ++ dq ++ "fas fa-sun" ++ dq ++ "></i>".
Definition moonIcon : string := "<i class=" ++ dq ++ "fas fa-moon" ++ dq ++ "></i>".

Definition updateThemeToggleIcon : JS unit :=
  toggle ← gets themeToggle;
  match toggle with
  | Some _ =>
      theme ← gets currentTheme;
      setInnerHTML RThemeToggle (if (theme =? "dark")%string then sunIcon else moonIcon);;
      setAttribute RThemeToggle "aria-label"
        ("Switch to " ++ (if (theme =? "dark")%string then "light" else "dark") ++ " mode")
  | None => skip
  end.

(** Lines 104-111.  [classList.remove('light-mode', 'dark-mode')] removes
    the two tokens in turn. *)
Definition applyTheme (theme : string) : JS unit :=
  bodyClassListRemove "light-mode";;
  bodyClassListRemove "dark-mode";;
  bodyClassListAdd (theme ++ "-mode");;
  setItem "theme" theme;;
  modify (withCurrentTheme theme);;
  updateThemeToggleIcon;;
  consoleLog ("Theme applied: " ++ theme).

(** Lines 128-131. *)
Definition toggleTheme : JS unit :=
  theme ← gets currentTheme;
  let newTheme := if (theme =? "light")%string then "dark" else "light" in
  applyTheme newTheme.

(** Line 139 and line 141. *)
Definition scrollableHeight (s : State) : Z := (scrollHeight s - innerHeight s)%Z.

Definition scrolledPercentage (s : State) : Double :=
  if (0 <? scrollableHeight s)%Z
  then numberMul (numberDiv (scrollY s) (inject_Z (scrollableHeight s))) 100
  else Finite 0.

(** Lines 136-143. *)
Definition updateScrollProgress : JS unit :=
  indicator ← gets scrollProgressIndicator;
  match indicator with
  | None => skip
  | Some _ =>
      percentage ← gets scrolledPercentage;
      setWidth percentage
  end.

(** The debounced scroll callback (lines 318-321), and a scroll sample: the
    window reports offset [y] and the callback runs. *)
Definition scrollCallback : JS unit :=
  handleHeaderScroll;;
  updateScrollProgress.

Definition scrollSample (y : Q) : JS unit :=
  modify (withScrollY y);;
  scrollCallback.

(** ** Identifier resolution

    [staggerAnimation] is declared with [const] inside the body of
    [initScrollAnimations] (line 250).  A call resolves its name along the
    scope chain of the function it is written in.  The global scope holds
    the names the script takes from its host; the repository has no other
    script that could add to them. *)

Inductive Scope : Type :=
  | InitScrollAnimationsScope   (* body of initScrollAnimations, lines 224-312 *)
  | DisplayFinanceNewsScope     (* body of displayFinanceNews, lines 158-221 *)
  | ClosureScope                (* body of the DOMContentLoaded callback *)
  | GlobalScope.                (* the host's global object, as the script uses it *)

Definition declared (sc : Scope) : list string :=
  match sc with
  | InitScrollAnimationsScope =>
      ["defaultAnimation"; "staggerAnimation"; "aboutWrapper"]
  | DisplayFinanceNewsScope =>
      ["newsGrid"; "YOUR_BACKEND_API_ENDPOINT"; "response"; "newsData"; "itemsToDisplay"]
  | ClosureScope =>
      ["body"; "header"; "mainContent"; "footer"; "navToggle"; "mobileNavPanel";
       "themeToggle"; "scrollProgressIndicator"; "currentYearSpan";
       "prefersReducedMotion"; "lastScrollY"; "isNavOpen"; "currentTheme";
       "revealPageContent"; "handleHeaderScroll"; "toggleMobileNav"; "closeMobileNav";
       "applyTheme"; "updateThemeToggleIcon"; "toggleTheme"; "updateScrollProgress";
       "setFooterYear"; "displayFinanceNews"; "initScrollAnimations"; "scrollTimeout"]
  | GlobalScope =>
      ["document"; "window"; "gsap"; "ScrollTrigger"; "localStorage"; "console"; "fetch";
       "setTimeout"; "clearTimeout"; "Date"; "Error"]
  end.

Definition resolve (chain : list Scope) (name : string) : option Scope :=
  List.find (λ sc, bool_decide (name ∈ declared sc)) chain.

(** ** Selector queries on the page *)

Inductive Simple : Type :=
  | ByClass (c : string)
  | ById (i : string)
  | ByTag (t : string).

Inductive Selector : Type :=
  | Is (s : Simple)                              (* [.c], [#i], [t] *)
  | ChildOf (parent : Simple) (child : Simple).  (* [parent > child] *)

Definition matchesSimple (sel : Simple) (e : Element) : bool :=
  match sel with
  | ByClass c => bool_decide (c ∈ classes e)
  | ById i => (elementId e =? i)%string
  | ByTag t => (localName e =? t)%string
  end.

Definition parentOf (pg : list Element) (e : Element) : option Element :=
  match parentIndex e with
  | Some p => pg !! p
  | None => None
  end.

Definition matchesSelector (pg : list Element) (sel : Selector) (e : Element) : bool :=
  match sel with
  | Is s => matchesSimple s e
  | ChildOf p c =>
      matchesSimple c e &&
      match parentOf pg e with
      | Some pe => matchesSimple p pe
      | None => false
      end
  end.

(** A selector list ([a, b, c]) matches when one of its members does. *)
Definition matchesAny (pg : list Element) (sels : list Selector) (e : Element) : bool :=
  existsb (λ sel, matchesSelector pg sel e) sels.

Definition selected (pg : list Element) (sels : list Selector) (i : nat) : bool :=
  match pg !! i with
  | Some e => matchesAny pg sels e
  | None => false
  end.

(** [gsap.utils.toArray(selector)]: the matching elements, in document
    order. *)
Definition toArray (sels : list Selector) (pg : list Element) : list nat :=
  List.filter (selected pg sels) (seq 0 (length pg)).

(** [document.querySelector(selector)]: the first match. *)
Definition querySelector (sel : Selector) (pg : list Element) : option nat :=
  head (toArray [sel] pg).

(** [el.closest(selector)]: the nearest of [el] and its ancestors that
    matches.  The walk up is bounded by the size of the page. *)
Fixpoint closestWithin (fuel : nat) (pg : list Element) (sel : Simple) (i : nat)
  : option nat :=
  match fuel with
  | O => None
  | S fuel' =>
      match pg !! i with
      | None => None
      | Some e =>
          if matchesSimple sel e then Some i
          else match parentIndex e with
               | Some p => closestWithin fuel' pg sel p
               | None => None
               end
      end
  end.

Definition closest (pg : list Element) (sel : Simple) (i : nat) : option nat :=
  closestWithin (length pg) pg sel i.

(** [root.querySelector(selector)]: the first match among the descendants
    of [root]. *)
Fixpoint hasAncestorWithin (fuel : nat) (pg : list Element) (root i : nat) : bool :=
  match fuel with
  | O => false
  | S fuel' =>
      match pg !! i with
      | None => false
      | Some e =>
          match parentIndex e with
          | Some p => (p =? root)%nat || hasAncestorWithin fuel' pg root p
          | None => false
          end
      end
  end.

Definition querySelectorIn (root : nat) (sel : Selector) (pg : list Element) : option nat :=
  head (List.filter (hasAncestorWithin (length pg) pg root) (toArray [sel] pg)).

(** [el.children] *)
Definition children (pg : list Element) (i : nat) : list nat :=
  List.filter
    (λ j, match pg !! j with
          | Some e => bool_decide (parentIndex e = Some i)
          | None => false
          end)
    (seq 0 (length pg)).

(** ** The animation library, as the script uses it *)

Definition applyVars (v : TweenVars) (st : Style) : Style :=
  mkStyle (default (opacity st) (vOpacity v))
          (default (translateX st) (vX v))
          (default (translateY st) (vY v))
          (default (scale st) (vScale v)).

(** [gsap.set(el, vars)]: the properties take their values at once. *)
Definition gsapSet (el : nat) (v : TweenVars) : JS unit :=
  modify (λ s, withPage (alter (λ e, withStyle (applyVars v (style e)) e) el (page s)) s).

(** [gsap.from(targets, {..., scrollTrigger})], [gsap.timeline({scrollTrigger})]
    with its [from] calls: the animation is handed to the library. *)
Definition gsapRegister (a : Animation) : JS unit :=
  modify (λ s, withAnimations (animations s ++ [a]) s).

Definition scrollTriggerRefresh : JS unit :=
  modify (λ s, withRefreshes (S (refreshes s)) s).

Fixpoint forEach {A} (l : list A) (f : A -> JS unit) : JS unit :=
  match l with
  | [] => skip
  | x :: rest => f x;; forEach rest f
  end.

(** ** Scroll animations (script.js 224-312) *)

(** Lines 226-239. *)
Definition defaultAnimation (el : nat) : JS unit :=
  gsapRegister
    (mkAnimation (mkScrollTrigger el "top 90%" "play none none reverse")
       [mkMotion [el] (mkVars (Some 0) None (Some 50) (Some 0.98))%Q 0.8 "power3.out" None]).

(** Lines 250-267. *)
Definition staggerAnimation (gridSelector itemSelector : Selector) : JS unit :=
  pg ← gets page;
  match querySelector gridSelector pg with
  | Some grid =>
      gsapRegister
        (mkAnimation (mkScrollTrigger grid "top 85%" "play none none reverse")
           [mkMotion (toArray [itemSelector] pg) (mkVars (Some 0) None (Some 50) (Some 0.95))%Q
              0.6 "power2.out" (Some 0.15%Q)])
  | None => skip
  end.

(** A call of [staggerAnimation] written in a function with scope chain
    [chain]. *)
Definition callStaggerAnimation (chain : list Scope) (gridSelector itemSelector : Selector)
  : JS unit :=
  match resolve chain "staggerAnimation" with
  | Some InitScrollAnimationsScope => staggerAnimation gridSelector itemSelector
  | Some _ => throw (TypeError "staggerAnimation")
  | None => throw (ReferenceError "staggerAnimation")
  end.

(** Lines 224-312. *)
Definition initScrollAnimations : JS unit :=
  let chain := [InitScrollAnimationsScope; ClosureScope; GlobalScope] in
  pg ← gets page;
  forEach (toArray [Is (ByClass "animate-on-scroll")] pg)
    (λ el,
       if negb (bool_decide (is_Some (closest pg (ByClass "featured-grid") el)))
          && negb (bool_decide (is_Some (closest pg (ByClass "news-grid") el)))
       then defaultAnimation el
       else skip);;
  callStaggerAnimation chain (Is (ByClass "featured-grid")) (Is (ByClass "post-card"));;
  callStaggerAnimation chain (Is (ByClass "news-grid")) (Is (ByClass "news-item"));;
  match querySelector (Is (ByClass "about-content-wrapper")) pg with
  | Some aboutWrapper =>
      let textCol := querySelectorIn aboutWrapper (Is (ByClass "about-text-column")) pg in
      let imgCol := querySelectorIn aboutWrapper (Is (ByClass "about-image-column")) pg in
      match imgCol with
      | Some img => gsapSet img (mkVars (Some 1) None None (Some 1))%Q
      | None => skip
      end;;
      gsapRegister
        (mkAnimation (mkScrollTrigger aboutWrapper "top 80%" "play none none reverse")
           match textCol with
           | Some text =>
               [mkMotion (children pg text) (mkVars (Some 0) (Some (-50)) None None)%Q
                  0.7 "power3.out" (Some 0.2%Q)]
           | None => []
           end)
  | None => skip
  end.

(** The timer callback of lines 357-367. *)
Definition reducedMotionSelector : list Selector :=
  [Is (ByClass "animate-on-scroll"); Is (ByClass "post-card"); Is (ByClass "news-item");
   ChildOf (ByClass "about-content-wrapper") (ByTag "div")].

Definition restingVars : TweenVars := (mkVars (Some 1) (Some 0) (Some 0) (Some 1))%Q.

Definition animationTimer : JS unit :=
  reduced ← gets prefersReducedMotion;
  (if negb reduced
   then initScrollAnimations
   else
     pg ← gets page;
     forEach (toArray reducedMotionSelector pg) (λ el, gsapSet el restingVars));;
  scrollTriggerRefresh.

(** ** News panel (script.js 158-221) *)

Definition nl : string := String "010"%char EmptyString.

Definition YOUR_BACKEND_API_ENDPOINT : string := "/api/finance-news".

Definition loadingHTML : string :=
  "<p class=" ++ dq ++ "loading-news" ++ dq ++ ">Loading latest news...</p>".
Definition noItemsHTML : string := "<p>No news items found.</p>".
Definition errorHTML : string :=
  "<p class=" ++ dq ++ "error-news" ++ dq
  ++ ">Could not load news at this time. Check console for details.</p>".
Definition placeholderImage : string :=
  "https://via.placeholder.com/400x250/cccccc/999999?text=News".

(** The template literal of lines 195-206. *)
Definition newsItemHTML (link title imageUrl excerpt : string) : string :=
  nl ++ "                        <a href=" ++ dq ++ link ++ dq ++ " class=" ++ dq
    ++ "news-item-link" ++ dq ++ " target=" ++ dq ++ "_blank" ++ dq ++ " rel=" ++ dq
    ++ "noopener noreferrer" ++ dq ++ " aria-label=" ++ dq ++ "Read more about " ++ title
    ++ dq ++ ">"
  ++ nl ++ "                           <div class=" ++ dq ++ "news-item-image" ++ dq ++ ">"
  ++ nl ++ "                               <img src=" ++ dq ++ imageUrl ++ dq ++ " alt="
    ++ dq ++ dq ++ " loading=" ++ dq ++ "lazy" ++ dq ++ " width=" ++ dq ++ "400" ++ dq
    ++ " height=" ++ dq ++ "250" ++ dq ++ "> "
  ++ nl ++ "                           </div>"
  ++ nl ++ "                           <div class=" ++ dq ++ "news-item-content" ++ dq
    ++ ">"
  ++ nl ++ "                               <h3 class=" ++ dq ++ "news-item-title" ++ dq
    ++ ">" ++ title ++ "</h3>"
  ++ nl ++ "                               <p class=" ++ dq ++ "news-item-excerpt" ++ dq
    ++ ">" ++ excerpt ++ "</p>"
  ++ nl ++ "                               <span class=" ++ dq ++ "news-item-readmore" ++ dq
    ++ ">Read More &rarr;</span>"
  ++ nl ++ "                           </div>"
  ++ nl ++ "                        </a>"
  ++ nl ++ "                    ".

(** [fetch(url)]: one request leaves the page; the promise settles as the
    network decides. *)
Definition fetch (url : string) : JS (nat * Body) := λ s,
  let s' := withRequests (S (requests s)) s in
  match network s (requests s) with
  | Rejected => (Throw NetworkError, s')
  | Response status body => (Normal (status, body), s')
  end.

(** [response.ok]: a status in 200..299. *)
Definition responseOk (status : nat) : bool :=
  ((200 <=? status) && (status <=? 299))%nat.

(** [response.json()] *)
Definition responseJson (body : Body) : JS Body :=
  match body with
  | Unparseable => throw SyntaxError
  | _ => ret body
  end.

(** [newsGrid.innerHTML = html], [newsGrid.appendChild(article)] *)
Definition writeGrid (f : Grid -> Grid) : JS unit := λ s,
  match newsGrid s with
  | Some g => (Normal tt, withNewsGrid (Some (f g)) s)
  | None => (Throw (TypeError "newsGrid"), s)
  end.

Definition setGridHTML (html : string) : JS unit :=
  writeGrid (λ _, mkGrid html []).

Definition appendChild (a : Article) : JS unit :=
  writeGrid (λ g, mkGrid (markup g) (appended g ++ [a])).

(** The body of the [forEach] callback, lines 183-207. *)
Definition renderItem (item : NewsItem) : JS unit :=
  let title := strOr (title item) "No Title Available" in
  let link := strOr (link item) "#" in
  let imageUrl := strOr (imageUrl item) placeholderImage in
  let excerpt :=
    strOr (excerpt item) (strOr (description item) "No description available.") in
  appendChild (mkArticle "news-item" (newsItemHTML link title imageUrl excerpt)).

(** Lines 169-216, the [try] block. *)
Definition fetchAndRender : JS unit :=
  response ← fetch YOUR_BACKEND_API_ENDPOINT;
  (if negb (responseOk (fst response)) then throw (HttpError (fst response)) else skip);;
  newsData ← responseJson (snd response);
  setGridHTML "";;
  match newsData with
  | ParsedObject (Some items) =>
      if (0 <? length items)%nat
      then
        let itemsToDisplay := take 4 items in
        forEach itemsToDisplay renderItem;;
        callStaggerAnimation [DisplayFinanceNewsScope; ClosureScope; GlobalScope]
          (Is (ById "news-grid")) (Is (ByClass "news-item"))
      else setGridHTML noItemsHTML
  | _ => setGridHTML noItemsHTML
  end.

(** Lines 158-221.  The two [await]s are the points where the function is
    suspended; no other callback of the script touches the grid in
    between. *)
Definition displayFinanceNews : JS unit :=
  newsGrid ← gets newsGrid;
  match newsGrid with
  | None => skip
  | Some _ =>
      setGridHTML loadingHTML;;
      tryCatch fetchAndRender
        (λ error,
           consoleError "Error fetching or displaying finance news:" error;;
           setGridHTML errorHTML)
  end.

(** ** Listeners (script.js 316-339)

    A listener is registered only when its element exists; an exception
    that leaves a listener is reported by the host and ends that callback. *)

Definition clickNavToggle : JS unit :=
  toggle ← gets navToggle;
  match toggle with
  | Some _ => toggleMobileNav
  | None => skip
  end.

Definition clickPanelLink : JS unit :=
  panel ← gets mobileNavPanel;
  match panel with
  | Some _ => closeMobileNav
  | None => skip
  end.

Definition clickThemeToggle : JS unit :=
  toggle ← gets themeToggle;
  match toggle with
  | Some _ => toggleTheme
  | None => skip
  end.

(** * Properties: vocabulary *)

(** The test of line 59, on the state before the sample [y] is processed. *)
Definition hidesHeader (s : State) (h : Node) (y : Q) : bool :=
  Qgtb y (lastScrollY s) && Qgtb y (offsetHeight h) && negb (isNavOpen s).

(** The drawer's mirrored state agrees with the open flag: class [active]
    and [aria-expanded] on the trigger, class [active] and [aria-hidden] on
    the panel, class [no-scroll] on [body]. *)
Definition mirrored (s : State) : Prop :=
  (∀ t, navToggle s = Some t →
     ("active" ∈ classList t ↔ isNavOpen s = true)
     ∧ attributes t !! "aria-expanded" = Some (boolToString (isNavOpen s)))
  ∧ (∀ p, mobileNavPanel s = Some p →
     ("active" ∈ classList p ↔ isNavOpen s = true)
     ∧ attributes p !! "aria-hidden" = Some (boolToString (negb (isNavOpen s))))
  ∧ ("no-scroll" ∈ body s ↔ isNavOpen s = true).

(** The classes of [body] once a theme has been applied. *)
Definition themeClasses (theme : string) (c : gset string) : gset string :=
  {[theme ++ "-mode"]} ∪ ((c ∖ {["light-mode"]}) ∖ {["dark-mode"]}).

(** The progress ratio the indicator shows (its width over 100), and the
    ratio in the specification's words:
    [clamp(y / (totalScrollHeight - viewportHeight), 0, 1)], or 0 when the
    denominator is not positive. *)
Definition shownRatio (bar : Indicator) : Q := widthPercent bar / 100.

Definition clamp01 (r : Q) : Q :=
  if Qltb r 0 then 0 else if Qgtb r 1 then 1 else r.

Definition specProgressRatio (s : State) : Q :=
  if (0 <? scrollableHeight s)%Z
  then clamp01 (scrollY s / inject_Z (scrollableHeight s))
  else 0.

(** A fetch that fails: the request is rejected, the status is not a
    success, or the body is not JSON. *)
Definition fetchFails (o : FetchOutcome) : Prop :=
  match o with
  | Rejected => True
  | Response status body => responseOk status = false ∨ body = Unparseable
  end.

(** The card the loader builds for an item. *)
Definition cardOf (item : NewsItem) : Article :=
  mkArticle "news-item"
    (newsItemHTML
       (strOr (link item) "#")
       (strOr (title item) "No Title Available")
       (strOr (imageUrl item) placeholderImage)
       (strOr (excerpt item) (strOr (description item) "No description available."))).

(** The resting state of an element. *)
Definition resting : Style := mkStyle 1 0 0 1.

(** The elements the specification calls animatable: marked elements, grid
    items, and the columns of the "about" section.  The columns are the two
    the engine looks up by class under the wrapper (lines 275-278). *)
Definition marked (e : Element) : bool :=
  bool_decide ("animate-on-scroll" ∈ classes e).

Definition gridItem (e : Element) : bool :=
  bool_decide ("post-card" ∈ classes e) || bool_decide ("news-item" ∈ classes e).

Definition aboutColumn (pg : list Element) (i : nat) : bool :=
  match querySelector (Is (ByClass "about-content-wrapper")) pg with
  | Some wrapper =>
      bool_decide (querySelectorIn wrapper (Is (ByClass "about-text-column")) pg = Some i)
      || bool_decide (querySelectorIn wrapper (Is (ByClass "about-image-column")) pg = Some i)
  | None => false
  end.

Definition animatable (pg : list Element) (i : nat) (e : Element) : bool :=
  marked e || gridItem e || aboutColumn pg i.

(** A [div] whose parent is an "about" wrapper. *)
Definition wrapperDiv (pg : list Element) (e : Element) : bool :=
  (localName e =? "div")%string
  && match parentOf pg e with
     | Some pe => bool_decide ("about-content-wrapper" ∈ classes pe)
     | None => false
     end.

(** In document order a parent comes before its children. *)
Definition wellFormed (pg : list Element) : Prop :=
  ∀ i e p, pg !! i = Some e → parentIndex e = Some p → (p < i)%nat.

(** The page after [gsap.set(el, v)] for each [el] of [l], in order. *)
Definition setAll (v : TweenVars) (l : list nat) (pg : list Element) : list Element :=
  foldl (λ acc el, alter (λ e, withStyle (applyVars v (style e)) e) el acc) pg l.

(** ** A page to run the script on *)

Definition sampleHeader : Node := mkNode ∅ ∅ "" 80.
Definition sampleTrigger : Node := mkNode ∅ {["aria-expanded" := "false"]} "" 40.
Definition samplePanel : Node := mkNode ∅ {["aria-hidden" := "true"]} "" 600.
Definition sampleThemeToggle : Node := mkNode ∅ ∅ moonIcon 40.

Definition sampleElements : list Element :=
  [ mkElement "section" "about" {["about-content-wrapper"]} None (mkStyle 1 0 0 1);
    mkElement "div" "" {["about-text-column"]} (Some 0%nat) (mkStyle 0 (-50) 0 1);
    mkElement "div" "" {["about-image-column"]} (Some 0%nat) (mkStyle 0 0 0 0.9);
    mkElement "p" "" ∅ (Some 1%nat) (mkStyle 0.5 0 0 1);
    mkElement "div" "" {["featured-grid"]} None (mkStyle 1 0 0 1);
    mkElement "article" "" {["post-card"; "animate-on-scroll"]} (Some 4%nat)
      (mkStyle 0 0 50 0.95);
    mkElement "h2" "" {["animate-on-scroll"]} None (mkStyle 0 0 50 0.98) ].

(** An "about" section whose columns sit in a row inside the wrapper. *)
Definition nestedAbout : list Element :=
  [ mkElement "section" "about" {["about-content-wrapper"]} None (mkStyle 1 0 0 1);
    mkElement "div" "" {["row"]} (Some 0%nat) (mkStyle 1 0 0 1);
    mkElement "div" "" {["about-text-column"]} (Some 1%nat) (mkStyle 0 (-50) 0 1);
    mkElement "div" "" {["about-image-column"]} (Some 1%nat) (mkStyle 0 0 0 0.9) ].

Definition samplePage : State :=
  mkState ∅ (Some sampleHeader) (Some sampleTrigger) (Some samplePanel)
    (Some sampleThemeToggle) (Some (mkIndicator 0)) (Some (mkGrid "" []))
    sampleElements
    0 2000 1000 false (mkStorage true true ∅) (λ _, Response 500 Unparseable)
    0 false "light" 0 [] [] 0.

Definition sampleItem : NewsItem :=
  mkNewsItem (Some "A") (Some "http://x") None None None.

Definition sixItems : FetchOutcome :=
  Response 200 (ParsedObject (Some (replicate 6 sampleItem))).

Definition sampleCard : Article :=
  mkArticle "news-item"
    (newsItemHTML "http://x" "A" placeholderImage "No description available.").

(** ** Further vocabulary *)

(** Line 331: a click inside the panel reaches [closeMobileNav] only when
    its target is a link. *)
Definition clickPanel (targetIsLink : bool) : JS unit :=
  panel ← gets mobileNavPanel;
  match panel with
  | Some _ => if targetIsLink then closeMobileNav else skip
  | None => skip
  end.

(** The toggle control as [updateThemeToggleIcon] leaves it when the
    current theme is [theme] (lines 118-121). *)
Definition announce (theme : string) (t : Node) : Node :=
  let t1 := withInnerHTML (if (theme =? "dark")%string then sunIcon else moonIcon) t in
  withAttributes
    (<["aria-label" :=
         "Switch to " ++ (if (theme =? "dark")%string then "light" else "dark") ++ " mode"]>
       (attributes t1)) t1.

(** A run of scroll samples, each processed by the scroll callback. *)
Definition scrollSamples (ys : list Q) (s : State) : State :=
  foldl (λ st y, exec (scrollSample y) st) s ys.

(** The two reveal policies, as the animations they register.  The
    discrete reveal of one element (lines 227-238); the staggered reveal of
    the items of a grid (lines 253-265), when the grid exists; the timeline
    of the "about" section (lines 285-301), when the section exists. *)
Definition outsideGrids (pg : list Element) (el : nat) : bool :=
  negb (bool_decide (is_Some (closest pg (ByClass "featured-grid") el)))
  && negb (bool_decide (is_Some (closest pg (ByClass "news-grid") el))).

Definition discreteReveal (el : nat) : Animation :=
  mkAnimation (mkScrollTrigger el "top 90%" "play none none reverse")
    [mkMotion [el] (mkVars (Some 0) None (Some 50) (Some 0.98))%Q 0.8 "power3.out" None].

Definition staggeredReveal (pg : list Element) (gridSelector itemSelector : Selector)
  : list Animation :=
  match querySelector gridSelector pg with
  | Some grid =>
      [mkAnimation (mkScrollTrigger grid "top 85%" "play none none reverse")
         [mkMotion (toArray [itemSelector] pg) (mkVars (Some 0) None (Some 50) (Some 0.95))%Q
            0.6 "power2.out" (Some 0.15%Q)]]
  | None => []
  end.

Definition aboutReveal (pg : list Element) : list Animation :=
  match querySelector (Is (ByClass "about-content-wrapper")) pg with
  | Some aboutWrapper =>
      [mkAnimation (mkScrollTrigger aboutWrapper "top 80%" "play none none reverse")
         match querySelectorIn aboutWrapper (Is (ByClass "about-text-column")) pg with
         | Some text =>
             [mkMotion (children pg text) (mkVars (Some 0) (Some (-50)) None None)%Q
                0.7 "power3.out" (Some 0.2%Q)]
         | None => []
         end]
  | None => []
  end.

(** The image column of the "about" section, when both exist. *)
Definition aboutImageColumn (pg : list Element) : option nat :=
  match querySelector (Is (ByClass "about-content-wrapper")) pg with
  | Some aboutWrapper => querySelectorIn aboutWrapper (Is (ByClass "about-image-column")) pg
  | None => None
  end.

(** [a] is [i] or one of its ancestors. *)
Inductive onChain (pg : list Element) : nat -> nat -> Prop :=
  | chain_self (i : nat) (e : Element) :
      pg !! i = Some e -> onChain pg i i
  | chain_up (i p a : nat) (e : Element) :
      pg !! i = Some e -> parentIndex e = Some p -> onChain pg p a -> onChain pg i a.

(** ** The news loader between its suspensions

    [displayFinanceNews] is an [async] function: it runs to the [await] of
    line 170, is resumed when the response arrives and runs to the [await]
    of line 174, and is resumed again when the body has been parsed.  Other
    callbacks may run in between. *)

(** The request leaves the page; its number identifies the response. *)
Definition sendRequest : JS nat := λ s,
  (Normal (requests s), withRequests (S (requests s)) s).

Definition settled (request : nat) : JS (nat * Body) := λ s,
  match network s request with
  | Rejected => (Throw NetworkError, s)
  | Response status body => (Normal (status, body), s)
  end.

(** Lines 176-215. *)
Definition renderData (newsData : Body) : JS unit :=
  setGridHTML "";;
  match newsData with
  | ParsedObject (Some items) =>
      if (0 <? length items)%nat
      then
        let itemsToDisplay := take 4 items in
        forEach itemsToDisplay renderItem;;
        callStaggerAnimation [DisplayFinanceNewsScope; ClosureScope; GlobalScope]
          (Is (ById "news-grid")) (Is (ByClass "news-item"))
      else setGridHTML noItemsHTML
  | _ => setGridHTML noItemsHTML
  end.

(** Lines 217-220, the [catch] block. *)
Definition newsCatch (error : Exn) : JS unit :=
  consoleError "Error fetching or displaying finance news:" error;;
  setGridHTML errorHTML.

(** Lines 159-170: to the first [await]. *)
Definition displayFinanceNewsBegin : JS (option nat) :=
  newsGrid ← gets newsGrid;
  match newsGrid with
  | None => ret None
  | Some _ =>
      setGridHTML loadingHTML;;
      request ← sendRequest;
      ret (Some request)
  end.

(** Lines 170-174: from the response to the second [await]; the result is
    the body whose parse is awaited, if the function is still running. *)
Definition displayFinanceNewsResponse (request : nat) : JS (option Body) :=
  tryCatch
    (response ← settled request;
     (if negb (responseOk (fst response)) then throw (HttpError (fst response)) else skip);;
     ret (Some (snd response)))
    (λ error, newsCatch error;; ret None).

(** Lines 174-220: from the parsed body to the end. *)
Definition displayFinanceNewsBody (body : Body) : JS unit :=
  tryCatch (newsData ← responseJson body; renderData newsData) newsCatch.

(** The three segments with nothing in between. *)
Definition displayFinanceNewsSegments : JS unit :=
  begun ← displayFinanceNewsBegin;
  match begun with
  | None => skip
  | Some request =>
      arrived ← displayFinanceNewsResponse request;
      match arrived with
      | None => skip
      | Some body => displayFinanceNewsBody body
      end
  end.

(** ** The page around the closure

    What the callback itself does at [DOMContentLoaded] (lines 1-22 and
    341-367), and the callbacks the host runs afterwards. *)

Inductive NewsTask : Type :=
  | NewsIdle
  | AwaitingResponse (request : nat)
  | AwaitingBody (body : Body).

Record Shell : Type := mkShell {
  closure : State;                 (* everything the functions of the callback read and write *)
  mainContent : bool;              (* #main-content exists *)
  footer : bool;                   (* #main-footer exists *)
  fadeOpacity : gmap string Q;     (* style.opacity set by revealPageContent, by constant *)
  currentYearSpan : option string; (* textContent of #current-year, if it exists *)
  fullYear : N;                    (* new Date().getFullYear() *)
  pluginRegistered : bool;         (* gsap.registerPlugin(ScrollTrigger) has run *)
  listening : bool;                (* the listeners of lines 316-339 are registered *)
  scrollTimeout : bool;            (* a scroll callback is pending *)
  animationTimeout : bool;         (* the timer of line 357 is pending *)
  newsTask : NewsTask;             (* where displayFinanceNews is suspended *)
  warnings : list string           (* console.warn *)
}.

Definition setClosure (v : State) (sh : Shell) : Shell :=
  mkShell v (mainContent sh) (footer sh) (fadeOpacity sh) (currentYearSpan sh)
    (fullYear sh) (pluginRegistered sh) (listening sh) (scrollTimeout sh)
    (animationTimeout sh) (newsTask sh) (warnings sh).
Definition setMainContent (v : bool) (sh : Shell) : Shell :=
  mkShell (closure sh) v (footer sh) (fadeOpacity sh) (currentYearSpan sh) (fullYear sh)
    (pluginRegistered sh) (listening sh) (scrollTimeout sh) (animationTimeout sh)
    (newsTask sh) (warnings sh).
Definition setFooter (v : bool) (sh : Shell) : Shell :=
  mkShell (closure sh) (mainContent sh) v (fadeOpacity sh) (currentYearSpan sh)
    (fullYear sh) (pluginRegistered sh) (listening sh) (scrollTimeout sh)
    (animationTimeout sh) (newsTask sh) (warnings sh).
Definition setFadeOpacity (v : gmap string Q) (sh : Shell) : Shell :=
  mkShell (closure sh) (mainContent sh) (footer sh) v (currentYearSpan sh) (fullYear sh)
    (pluginRegistered sh) (listening sh) (scrollTimeout sh) (animationTimeout sh)
    (newsTask sh) (warnings sh).
Definition setCurrentYearSpan (v : option string) (sh : Shell) : Shell :=
  mkShell (closure sh) (mainContent sh) (footer sh) (fadeOpacity sh) v (fullYear sh)
    (pluginRegistered sh) (listening sh) (scrollTimeout sh) (animationTimeout sh)
    (newsTask sh) (warnings sh).
Definition setPluginRegistered (v : bool) (sh : Shell) : Shell :=
  mkShell (closure sh) (mainContent sh) (footer sh) (fadeOpacity sh)
    (currentYearSpan sh) (fullYear sh) v (listening sh) (scrollTimeout sh)
    (animationTimeout sh) (newsTask sh) (warnings sh).
Definition setListening (v : bool) (sh : Shell) : Shell :=
  mkShell (closure sh) (mainContent sh) (footer sh) (fadeOpacity sh)
    (currentYearSpan sh) (fullYear sh) (pluginRegistered sh) v (scrollTimeout sh)
    (animationTimeout sh) (newsTask sh) (warnings sh).
Definition setScrollTimeout (v : bool) (sh : Shell) : Shell :=
  mkShell (closure sh) (mainContent sh) (footer sh) (fadeOpacity sh)
    (currentYearSpan sh) (fullYear sh) (pluginRegistered sh) (listening sh) v
    (animationTimeout sh) (newsTask sh) (warnings sh).
Definition setAnimationTimeout (v : bool) (sh : Shell) : Shell :=
  mkShell (closure sh) (mainContent sh) (footer sh) (fadeOpacity sh)
    (currentYearSpan sh) (fullYear sh) (pluginRegistered sh) (listening sh)
    (scrollTimeout sh) v (newsTask sh) (warnings sh).
Definition setNewsTask (v : NewsTask) (sh : Shell) : Shell :=
  mkShell (closure sh) (mainContent sh) (footer sh) (fadeOpacity sh)
    (currentYearSpan sh) (fullYear sh) (pluginRegistered sh) (listening sh)
    (scrollTimeout sh) (animationTimeout sh) v (warnings sh).
Definition setWarnings (v : list string) (sh : Shell) : Shell :=
  mkShell (closure sh) (mainContent sh) (footer sh) (fadeOpacity sh)
    (currentYearSpan sh) (fullYear sh) (pluginRegistered sh) (listening sh)
    (scrollTimeout sh) (animationTimeout sh) (newsTask sh) v.

Definition PageJS (A : Type) : Type := Shell -> Completion A * Shell.

Definition retP {A} (a : A) : PageJS A := λ sh, (Normal a, sh).
Definition bindP {A B} (m : PageJS A) (f : A -> PageJS B) : PageJS B := λ sh,
  match m sh with
  | (Normal a, sh') => f a sh'
  | (Throw e, sh') => (Throw e, sh')
  end.

(** A function of the closure, run on the page. *)
Definition liftP {A} (m : JS A) : PageJS A := λ sh,
  let '(c, s') := m (closure sh) in (c, setClosure s' sh).

Definition getsP {A} (f : Shell -> A) : PageJS A := λ sh, (Normal (f sh), sh).
Definition modifyP (f : Shell -> Shell) : PageJS unit := λ sh, (Normal tt, f sh).
Definition skipP : PageJS unit := retP tt.

Declare Scope page_scope.
Delimit Scope page_scope with page.
Bind Scope page_scope with PageJS.
Notation "x ← y ; z" := (bindP y (λ x, z))
  (at level 20, y at level 100, z at level 200, only parsing) : page_scope.
Notation "x ;; z" := (bindP x (λ _, z))
  (at level 100, z at level 200, only parsing, right associativity) : page_scope.
Local Close Scope js_scope.
Local Open Scope page_scope.

(** Lines 29-40.  [elementsToFade] is [[header, mainContent, footer]]
    without the ones that are [null]. *)
Definition elementsToFade (hdr : option Node) (main foot : bool) : list string :=
  ((if hdr is Some _ then ["header"] else [])
   ++ (if main then ["mainContent"] else [])
   ++ (if foot then ["footer"] else []))%list.

Definition revealPageContent : PageJS unit :=
  liftP (consoleLog "Revealing page content...");;
  liftP (bodyClassListRemove "preload");;
  hdr ← liftP (gets header);
  main ← getsP mainContent;
  foot ← getsP footer;
  if (0 <? length (elementsToFade hdr main foot))%nat
  then
    modifyP (λ sh, setFadeOpacity
                     (foldl (λ m el, <[el := 1%Q]> m) (fadeOpacity sh)
                        (elementsToFade hdr main foot)) sh);;
    liftP (consoleLog "Page content revealed.");;
    liftP scrollTriggerRefresh
  else
    modifyP (λ sh, setWarnings
                     (warnings sh ++ ["Main content elements not found for reveal."]) sh).

(** Lines 148-152. *)
Definition setFooterYear : PageJS unit :=
  span ← getsP currentYearSpan;
  match span with
  | Some _ => modifyP (λ sh, setCurrentYearSpan (Some (pretty (fullYear sh))) sh)
  | None => skipP
  end.

(** Lines 5 and 20-22: the plugin and the state variables. *)
Definition initialiseState : PageJS unit :=
  modifyP (setPluginRegistered true);;
  y ← liftP (gets scrollY);
  liftP (modify (withLastScrollY y));;
  liftP (modify (withIsNavOpen false));;
  theme ← liftP readStoredTheme;
  liftP (modify (withCurrentTheme theme)).

(** Line 350: the call of [displayFinanceNews] returns at the first
    [await]. *)
Definition startNews : PageJS unit :=
  begun ← liftP displayFinanceNewsBegin;
  modifyP (setNewsTask (if begun is Some request then AwaitingResponse request
                        else NewsIdle)).

(** The callback of line 1, to its end at line 376.  The element lookups of
    lines 8-17 are the components of the state; the listeners of lines
    316-339 are registered before the theme is applied; the timer of line
    357 is set last. *)
Definition pageLoad : PageJS unit :=
  initialiseState;;
  modifyP (setListening true);;
  theme ← liftP (gets currentTheme);
  liftP (applyTheme theme);;
  setFooterYear;;
  startNews;;
  revealPageContent;;
  modifyP (setAnimationTimeout true).

(** What the host runs after the load: the window scrolls (the listener of
    lines 316-322 re-arms its timer), a timer fires, the user clicks, the
    response or its parsed body arrives. *)
Inductive PageEvent : Type :=
  | WindowScroll (y : Q)
  | ScrollTimeoutFires
  | NavToggleClicked
  | PanelClicked (targetIsLink : bool)
  | ThemeToggleClicked
  | AnimationTimeoutFires
  | NewsResponseArrives
  | NewsBodyParsed.

Definition whenListening (m : JS unit) : PageJS unit :=
  on ← getsP listening;
  if on then liftP m else skipP.

Definition dispatch (e : PageEvent) : PageJS unit :=
  match e with
  | WindowScroll y =>
      liftP (modify (withScrollY y));;
      on ← getsP listening;
      if on then modifyP (setScrollTimeout true) else skipP
  | ScrollTimeoutFires =>
      pending ← getsP scrollTimeout;
      if pending
      then modifyP (setScrollTimeout false);; liftP scrollCallback
      else skipP
  | NavToggleClicked => whenListening clickNavToggle
  | PanelClicked targetIsLink => whenListening (clickPanel targetIsLink)
  | ThemeToggleClicked => whenListening clickThemeToggle
  | AnimationTimeoutFires =>
      pending ← getsP animationTimeout;
      if pending
      then modifyP (setAnimationTimeout false);; liftP animationTimer
      else skipP
  | NewsResponseArrives =>
      task ← getsP newsTask;
      match task with
      | AwaitingResponse request =>
          arrived ← liftP (displayFinanceNewsResponse request);
          modifyP (setNewsTask (if arrived is Some body then AwaitingBody body
                                else NewsIdle))
      | _ => skipP
      end
  | NewsBodyParsed =>
      task ← getsP newsTask;
      match task with
      | AwaitingBody body =>
          modifyP (setNewsTask NewsIdle);;
          liftP (displayFinanceNewsBody body)
      | _ => skipP
      end
  end.

(** An exception that leaves a callback is reported by the host; the next
    event finds the page as the callback left it. *)
Definition step (sh : Shell) (e : PageEvent) : Shell := snd (dispatch e sh).

Definition run (es : list PageEvent) (sh : Shell) : Shell := foldl step sh es.

Definition isNewsEvent (e : PageEvent) : bool :=
  match e with
  | NewsResponseArrives | NewsBodyParsed => true
  | _ => false
  end.

(** The drawer is in step with its flag, and is closed when there is no
    trigger to open it. *)
Definition drawerInvariant (s : State) : Prop :=
  mirrored s ∧ (navToggle s = None → isNavOpen s = false).

(** What a callback leaves alone: the news panel and its request; the
    drawer. *)
Definition sameNews (s s' : State) : Prop :=
  newsGrid s' = newsGrid s ∧ network s' = network s ∧ requests s' = requests s.

Definition sameDrawer (s s' : State) : Prop :=
  isNavOpen s' = isNavOpen s
  ∧ navToggle s' = navToggle s
  ∧ mobileNavPanel s' = mobileNavPanel s
  ∧ ("no-scroll" ∈ body s' ↔ "no-scroll" ∈ body s).

(** The message the grid ends with, by the parsed body and by the outcome
    of the fetch. *)
Definition newsMessage (body : Body) : string :=
  match body with
  | ParsedNull | ParsedObject None | ParsedObject (Some []) => noItemsHTML
  | _ => errorHTML
  end.

Definition newsEnd (o : FetchOutcome) : string :=
  match o with
  | Rejected => errorHTML
  | Response status body => if responseOk status then newsMessage body else errorHTML
  end.

Definition sampleShell : Shell :=
  mkShell (withBody {["preload"]} samplePage) true true ∅ (Some "") 2026 false false
    false false NewsIdle [].

Local Close Scope page_scope.
Local Open Scope js_scope.

(** * Properties: proofs *)

(** ** Numbers *)

Section Rounding.
Local Open Scope Q_scope.

Lemma pow2_pos (e : Z) : 0 < pow2 e.
Proof. apply Qpower_0_lt. reflexivity. Qed.

Lemma pow2_add (a b : Z) : pow2 (a + b) == pow2 a * pow2 b.
Proof. apply Qpower_plus. discriminate. Qed.

Lemma pow2_le (a b : Z) : (a <= b)%Z -> pow2 a <= pow2 b.
Proof. intros H. apply Qpower_le_compat_l; [exact H | discriminate]. Qed.

Lemma pow2_lt (a b : Z) : (a < b)%Z -> pow2 a < pow2 b.
Proof. intros H. apply Qpower_lt_compat_l; [exact H | reflexivity]. Qed.

Lemma pow2_Z (n : Z) : (0 <= n)%Z -> pow2 n == inject_Z (2 ^ n).
Proof. intros H. unfold pow2. by rewrite Zpower_Qpower. Qed.

Lemma roundTiesToEven_comp (x y : Q) : x == y -> roundTiesToEven x = roundTiesToEven y.
Proof.
  intros E. unfold roundTiesToEven. rewrite (Qfloor_comp _ _ E).
  assert (E2 : x - inject_Z (Qfloor y) == y - inject_Z (Qfloor y)) by (rewrite E; reflexivity).
  by rewrite (Qcompare_comp _ _ E2 (1#2) (1#2) (Qeq_refl _)).
Qed.

Lemma roundTiesToEven_Z (n : Z) : roundTiesToEven (inject_Z n) = n.
Proof.
  unfold roundTiesToEven. rewrite Qfloor_Z.
  assert (E : inject_Z n - inject_Z n == 0) by ring.
  rewrite (Qcompare_comp _ _ E (1#2) (1#2) (Qeq_refl _)). reflexivity.
Qed.

Lemma roundTiesToEven_bounds (x : Q) :
  (Qfloor x <= roundTiesToEven x <= Qfloor x + 1)%Z.
Proof.
  unfold roundTiesToEven. destruct (_ ?= _); [destruct (Z.even _)|..]; lia.
Qed.

Lemma roundTiesToEven_mono (x y : Q) : x <= y -> (roundTiesToEven x <= roundTiesToEven y)%Z.
Proof.
  intros Hxy. pose proof (Qfloor_resp_le _ _ Hxy) as Hf.
  destruct (Z.eq_dec (Qfloor x) (Qfloor y)) as [E|N].
  - unfold roundTiesToEven. rewrite E.
    destruct (x - inject_Z (Qfloor y) ?= 1 # 2) eqn:Cx;
      destruct (y - inject_Z (Qfloor y) ?= 1 # 2) eqn:Cy;
      try (destruct (Z.even (Qfloor y))); try lia.
    all: repeat match goal with
         | H : (_ ?= _) = Eq |- _ => apply (proj2 (Qeq_alt _ _)) in H
         | H : (_ ?= _) = Lt |- _ => apply (proj2 (Qlt_alt _ _)) in H
         | H : (_ ?= _) = Gt |- _ => apply (proj2 (Qgt_alt _ _)) in H
         end; lra.
  - pose proof (roundTiesToEven_bounds x). pose proof (roundTiesToEven_bounds y). lia.
Qed.

(** [ilog2] *)
Lemma Zlog2_Q (n : Z) : (0 < n)%Z ->
  pow2 (Z.log2 n) <= inject_Z n /\ inject_Z n < pow2 (Z.log2 n + 1).
Proof.
  intros Hn. destruct (Z.log2_spec n Hn) as [H1 H2].
  pose proof (Z.log2_nonneg n) as H0.
  rewrite !pow2_Z by lia. rewrite <- Zle_Qle, <- Zlt_Qlt.
  split; [exact H1|]. by rewrite <- Z.add_1_r in H2.
Qed.

Lemma ilog2_spec (x : Q) : 0 < x -> pow2 (ilog2 x) <= x /\ x < pow2 (ilog2 x + 1).
Proof.
  intros Hx. unfold ilog2.
  set (a := Z.log2 (Qnum x)). set (b := Z.log2 (Z.pos (Qden x))).
  assert (Hn : (0 < Qnum x)%Z).
  { destruct x as [n d]. unfold Qlt in Hx. simpl in *. lia. }
  destruct (Zlog2_Q (Qnum x) Hn) as [Na Nb]. fold a in Na, Nb.
  destruct (Zlog2_Q (Z.pos (Qden x)) eq_refl) as [Da Db]. fold b in Da, Db.
  assert (Ex : inject_Z (Qnum x) == x * inject_Z (Z.pos (Qden x))).
  { destruct x as [n d]. simpl. rewrite (Qmake_Qdiv n d). field.
    intros E. discriminate E. }
  pose proof (pow2_pos b) as Pb. pose proof (pow2_pos (a - b)) as Pab.
  assert (Eab : pow2 a == pow2 (a - b) * pow2 b).
  { rewrite <- pow2_add. by replace (a - b + b)%Z with a by lia. }
  assert (Eab1 : pow2 (a + 1) == pow2 (a - b + 1) * pow2 b).
  { rewrite <- pow2_add. by replace (a - b + 1 + b)%Z with (a + 1)%Z by lia. }
  assert (Eb1 : pow2 (b + 1) == 2 * pow2 b).
  { rewrite pow2_add. unfold pow2 at 2. simpl. ring. }
  assert (Eab0 : pow2 (a - b) == 2 * pow2 (a - b - 1)).
  { replace (a - b)%Z with (a - b - 1 + 1)%Z at 1 by lia. rewrite pow2_add.
    unfold pow2 at 2. simpl. ring. }
  set (d := inject_Z (Z.pos (Qden x))) in *.
  destruct (Qle_bool (pow2 (a - b)) x) eqn:Hle.
  - apply Qle_bool_iff in Hle. split; [exact Hle|].
    (* x * 2^b <= x * d = n < 2^(a+1) = 2^(a-b+1) * 2^b *)
    apply Qnot_le_lt. intros Hge.
    assert (pow2 (a - b + 1) * pow2 b <= x * d) by nra. lra.
  - assert (Hlt : x < pow2 (a - b)).
    { apply Qnot_le_lt. intros H. apply Qle_bool_iff in H. congruence. }
    replace (a - b - 1 + 1)%Z with (a - b)%Z by lia. split; [|exact Hlt].
    apply Qnot_lt_le. intros Hc.
    rewrite Eab, Eab0 in Na. rewrite Eb1 in Db.
    pose proof (pow2_pos (a - b - 1)) as Pab1.
    generalize dependent (pow2 (a - b - 1)). generalize dependent (pow2 b).
    intros; nra.
Qed.

Lemma ilog2_unique (x : Q) (k : Z) : pow2 k <= x -> x < pow2 (k + 1) -> ilog2 x = k.
Proof.
  intros H1 H2. assert (Hx : 0 < x) by (pose proof (pow2_pos k); lra).
  destruct (ilog2_spec x Hx) as [L1 L2].
  assert (A : (k < ilog2 x + 1)%Z).
  { apply Qpower_lt_compat_l_inv with (q := 2); [|reflexivity]. fold (pow2 k) (pow2 (ilog2 x + 1)). lra. }
  assert (B : (ilog2 x < k + 1)%Z).
  { apply Qpower_lt_compat_l_inv with (q := 2); [|reflexivity]. fold (pow2 (ilog2 x)) (pow2 (k + 1)). lra. }
  lia.
Qed.

Lemma ilog2_mono (x y : Q) : 0 < x -> x <= y -> (ilog2 x <= ilog2 y)%Z.
Proof.
  intros Hx Hxy. destruct (ilog2_spec x Hx) as [L1 _].
  destruct (ilog2_spec y ltac:(lra)) as [_ L2].
  assert (A : (ilog2 x < ilog2 y + 1)%Z).
  { apply Qpower_lt_compat_l_inv with (q := 2); [|reflexivity].
    fold (pow2 (ilog2 x)) (pow2 (ilog2 y + 1)). lra. }
  lia.
Qed.

(** Rounding to a fixed grid *)
Lemma nearest_mono (e : Z) (x y : Q) : x <= y -> nearest e x <= nearest e y.
Proof.
  intros Hxy. unfold nearest. pose proof (pow2_pos e) as He.
  apply Qmult_le_compat_r; [|lra]. rewrite <- Zle_Qle. apply roundTiesToEven_mono.
  apply Qmult_le_compat_r; [exact Hxy|]. apply Qlt_le_weak, Qinv_lt_0_compat, He.
Qed.

Lemma nearest_comp (e : Z) (x y : Q) : x == y -> nearest e x = nearest e y.
Proof.
  intros E. unfold nearest. f_equal. f_equal. apply roundTiesToEven_comp. by rewrite E.
Qed.

Lemma nearest_fix (e n : Z) : nearest e (inject_Z n * pow2 e) == inject_Z n * pow2 e.
Proof.
  unfold nearest. pose proof (pow2_pos e) as He.
  rewrite (roundTiesToEven_comp _ (inject_Z n)); [by rewrite roundTiesToEven_Z|].
  field. lra.
Qed.

Lemma nearest_pow2 (e k : Z) : (e <= k)%Z -> nearest e (pow2 k) == pow2 k.
Proof.
  intros H. assert (E : pow2 k == inject_Z (2 ^ (k - e)) * pow2 e).
  { rewrite <- pow2_Z by lia. rewrite <- pow2_add. by replace (k - e + e)%Z with k by lia. }
  rewrite (nearest_comp e _ _ E), nearest_fix. by rewrite E.
Qed.

Lemma nearest_0 (e : Z) : nearest e 0 == 0.
Proof.
  unfold nearest. rewrite (roundTiesToEven_comp _ (inject_Z 0)).
  - rewrite roundTiesToEven_Z. ring.
  - pose proof (pow2_pos e). field. lra.
Qed.

Lemma quantum_pos (x : Q) : 0 < x -> quantum x = Z.max (ilog2 x - 52) (-1074).
Proof.
  intros Hx. unfold quantum. rewrite (ilog2_unique (Qabs x) (ilog2 x)); [done|..].
  - rewrite Qabs_pos by lra. by apply ilog2_spec.
  - rewrite Qabs_pos by lra. by apply ilog2_spec.
Qed.

Lemma nearest_quantum_mono (x y : Q) :
  0 < x -> x <= y -> nearest (quantum x) x <= nearest (quantum y) y.
Proof.
  intros Hx Hxy. assert (Hy : 0 < y) by lra.
  pose proof (ilog2_mono x y Hx Hxy) as Hk.
  rewrite (quantum_pos x Hx), (quantum_pos y Hy).
  destruct (Z.eq_dec (Z.max (ilog2 x - 52) (-1074)) (Z.max (ilog2 y - 52) (-1074)))
    as [E|N].
  - rewrite E. by apply nearest_mono.
  - set (ex := Z.max (ilog2 x - 52) (-1074)) in *.
    set (ey := Z.max (ilog2 y - 52) (-1074)) in *.
    assert (Hlt : (ilog2 x < ilog2 y)%Z) by lia.
    destruct (ilog2_spec x Hx) as [_ Hxb]. destruct (ilog2_spec y Hy) as [Hyb _].
    assert (Hb : x <= pow2 (ilog2 y)).
    { pose proof (pow2_le (ilog2 x + 1) (ilog2 y) ltac:(lia)). lra. }
    apply Qle_trans with (pow2 (ilog2 y)).
    + rewrite <- (nearest_pow2 ex (ilog2 y)) by lia. by apply nearest_mono.
    + rewrite <- (nearest_pow2 ey (ilog2 y)) at 1 by lia. by apply nearest_mono.
Qed.

(** Rounding to binary64 *)
Lemma ilog2_comp (x y : Q) : 0 < x -> x == y -> ilog2 x = ilog2 y.
Proof.
  intros Hx E. symmetry. apply ilog2_unique; rewrite <- E; by apply ilog2_spec.
Qed.

Lemma roundDouble_comp (x y : Q) : x == y -> roundDouble x = roundDouble y.
Proof.
  intros E. unfold roundDouble.
  assert (E0 : Qeq_bool x 0 = Qeq_bool y 0).
  { destruct (Qeq_bool y 0) eqn:Hy.
    - apply Qeq_bool_iff. apply Qeq_bool_iff in Hy. by rewrite E.
    - apply not_true_is_false. intros Hx. apply Qeq_bool_iff in Hx.
      rewrite E in Hx. apply Qeq_bool_iff in Hx. congruence. }
  rewrite <- E0. destruct (Qeq_bool x 0) eqn:Hx0; [done|].
  assert (Hne : ~ x == 0) by (by apply Qeq_bool_neq).
  assert (Hq : quantum x = quantum y).
  { unfold quantum. f_equal. f_equal. apply ilog2_comp; [|by rewrite E].
    destruct (Qlt_le_dec 0 x) as [Hp|Hn].
    - rewrite Qabs_pos; lra.
    - rewrite Qabs_neg by lra. destruct (Qle_lt_or_eq _ _ Hn) as [Hlt|Heq]; [lra|done]. }
  rewrite <- Hq, <- (nearest_comp (quantum x) x y E).
  assert (El : Qle_bool 0 x = Qle_bool 0 y).
  { destruct (Qle_bool 0 y) eqn:Hy.
    - apply Qle_bool_iff. apply Qle_bool_iff in Hy. by rewrite E.
    - apply not_true_is_false. intros Hx. apply Qle_bool_iff in Hx.
      rewrite E in Hx. apply Qle_bool_iff in Hx. congruence. }
  by rewrite El.
Qed.

Lemma Qabs_lt_0 (x : Q) : ~ x == 0 -> 0 < Qabs x.
Proof.
  intros Hne. destruct (Qlt_le_dec 0 x) as [Hp|Hn].
  - rewrite Qabs_pos; lra.
  - rewrite Qabs_neg by lra. destruct (Qle_lt_or_eq _ _ Hn) as [Hlt|Heq]; [lra|done].
Qed.

Lemma roundDouble_0 : roundDouble 0 = Finite 0.
Proof. reflexivity. Qed.

Lemma roundDouble_1 : roundDouble 1 = Finite 1.
Proof. vm_compute. reflexivity. Qed.

Lemma roundDouble_100 : roundDouble 100 = Finite 100.
Proof. vm_compute. reflexivity. Qed.

Lemma roundDouble_mono (x y : Q) :
  0 <= x -> x <= y -> Dle (roundDouble x) (roundDouble y).
Proof.
  intros Hx Hxy. unfold roundDouble.
  assert (Hy0 : Qle_bool 0 y = true) by (apply Qle_bool_iff; lra).
  assert (Hx0 : Qle_bool 0 x = true) by (by apply Qle_bool_iff).
  rewrite Hx0, Hy0.
  assert (Hny : 0 <= nearest (quantum y) y).
  { rewrite <- (nearest_0 (quantum y)). apply nearest_mono. lra. }
  destruct (Qeq_bool x 0) eqn:Ex.
  - destruct (Qeq_bool y 0); [cbn [Dle]; lra|].
    destruct (Qle_bool (pow2 1024) _); cbn [Dle]; [done|]. by rewrite Qred_correct.
  - assert (Hxp : 0 < x).
    { apply Qeq_bool_neq in Ex. destruct (Qle_lt_or_eq _ _ Hx) as [H|H]; [done|].
      exfalso. apply Ex. by symmetry. }
    assert (Ey : Qeq_bool y 0 = false).
    { apply not_true_is_false. intros H. apply Qeq_bool_iff in H. lra. }
    rewrite Ey. pose proof (nearest_quantum_mono x y Hxp Hxy) as Hm.
    assert (Hnx : 0 <= nearest (quantum x) x).
    { rewrite <- (nearest_0 (quantum x)). apply nearest_mono. lra. }
    destruct (Qle_bool (pow2 1024) (Qabs (nearest (quantum x) x))) eqn:Ox.
    + apply Qle_bool_iff in Ox. rewrite Qabs_pos in Ox by done.
      assert (Oy : Qle_bool (pow2 1024) (Qabs (nearest (quantum y) y)) = true).
      { apply Qle_bool_iff. rewrite Qabs_pos by done. lra. }
      by rewrite Oy.
    + destruct (Qle_bool (pow2 1024) (Qabs (nearest (quantum y) y))); cbn [Dle]; [done|].
      by rewrite !Qred_correct.
Qed.

Lemma roundDouble_nonpos (x : Q) : x <= 0 -> Dle (roundDouble x) (Finite 0).
Proof.
  intros Hx. unfold roundDouble.
  destruct (Qeq_bool x 0) eqn:Ex; [cbn [Dle]; lra|].
  assert (Hn : nearest (quantum x) x <= 0).
  { rewrite <- (nearest_0 (quantum x)). by apply nearest_mono. }
  assert (Hx0 : Qle_bool 0 x = false).
  { apply not_true_is_false. intros H. apply Qle_bool_iff in H.
    apply Qeq_bool_neq in Ex. apply Ex. lra. }
  rewrite Hx0. destruct (Qle_bool (pow2 1024) _); cbn [Dle]; [done|]. by rewrite Qred_correct.
Qed.

(** The rounded value is within half a unit in the last place. *)
Lemma roundTiesToEven_error (z : Q) : Qabs (inject_Z (roundTiesToEven z) - z) <= 1 # 2.
Proof.
  pose proof (Qfloor_le z) as Hlo. pose proof (Qlt_floor z) as Hhi.
  rewrite inject_Z_plus in Hhi. change (inject_Z 1) with 1 in Hhi.
  apply Qabs_Qle_condition. unfold roundTiesToEven.
  destruct (z - inject_Z (Qfloor z) ?= 1 # 2) eqn:C.
  - apply (proj2 (Qeq_alt _ _)) in C.
    destruct (Z.even (Qfloor z)); rewrite ?inject_Z_plus; change (inject_Z 1) with 1; lra.
  - apply (proj2 (Qlt_alt _ _)) in C. lra.
  - apply (proj2 (Qgt_alt _ _)) in C. rewrite inject_Z_plus. change (inject_Z 1) with 1. lra.
Qed.

Lemma nearest_error (e : Z) (x : Q) : Qabs (nearest e x - x) <= pow2 (e - 1).
Proof.
  pose proof (pow2_pos e) as He. pose proof (pow2_pos (e - 1)) as He1.
  assert (E : pow2 e == 2 * pow2 (e - 1)).
  { replace e with (e - 1 + 1)%Z at 1 by lia. rewrite pow2_add.
    change (pow2 1) with 2. ring. }
  pose proof (roundTiesToEven_error (x / pow2 e)) as Hr.
  apply Qabs_Qle_condition in Hr. apply Qabs_Qle_condition. unfold nearest.
  assert (Ex : x == x / pow2 e * pow2 e) by (field; lra).
  generalize dependent (inject_Z (roundTiesToEven (x / pow2 e))).
  generalize dependent (x / pow2 e). generalize dependent (pow2 (e - 1)).
  generalize dependent (pow2 e). intros; nra.
Qed.

Lemma roundDouble_error (x w : Q) :
  roundDouble x = Finite w -> Qabs (w - x) <= pow2 (quantum x - 1).
Proof.
  unfold roundDouble. destruct (Qeq_bool x 0) eqn:E0.
  - intros [= <-]. apply Qeq_bool_iff in E0.
    pose proof (pow2_pos (quantum x - 1)).
    apply Qabs_Qle_condition. lra.
  - destruct (Qle_bool (pow2 1024) _); [destruct (Qle_bool 0 x); discriminate|].
    intros [= <-]. rewrite Qred_correct. apply nearest_error.
Qed.

Lemma quantum_below (x : Q) (k : Z) :
  0 < x -> x <= pow2 k -> (-1074 <= k - 52)%Z -> (quantum x <= k - 52)%Z.
Proof.
  intros Hx Hk Hmin. rewrite (quantum_pos x Hx).
  destruct (ilog2_spec x Hx) as [Hl _].
  assert (ilog2 x <= k)%Z; [|lia].
  apply Qpower_le_compat_l_inv with (q := 2); [|reflexivity].
  fold (pow2 (ilog2 x)) (pow2 k). lra.
Qed.

Lemma quantum_under (x : Q) (k : Z) :
  0 < x -> x < pow2 k -> (-1074 <= k - 53)%Z -> (quantum x <= k - 53)%Z.
Proof.
  intros Hx Hk Hmin. rewrite (quantum_pos x Hx).
  destruct (ilog2_spec x Hx) as [Hl _].
  assert (ilog2 x < k)%Z; [|lia].
  apply Qpower_lt_compat_l_inv with (q := 2); [|reflexivity].
  fold (pow2 (ilog2 x)) (pow2 k). lra.
Qed.

(** The percentage of line 141, for a positive scrollable height [h]. *)
Lemma percentage_range (y h : Q) :
  0 < h ->
  let p := numberMul (numberDiv y h) 100 in
  (0 <= y <= h ->
     exists w, p = Finite w /\ 0 <= w <= 100 /\ Qabs (w - y / h * 100) <= pow2 (-45))
  /\ (y == 0 -> p = Finite 0)
  /\ (y == h -> p = Finite 100)
  /\ (h < y -> Dle (Finite 100) p)
  /\ (y < 0 -> Dle p (Finite 0)).
Proof.
  intros Hh. cbv zeta. unfold numberDiv.
  assert (Hinv : 0 < / h) by (by apply Qinv_lt_0_compat).
  assert (Hone : h / h == 1) by (field; lra).
  split; [|split; [|split; [|split]]].
  - intros [Hy0 Hyh].
    assert (H0 : 0 <= y / h) by (unfold Qdiv; nra).
    assert (H1 : y / h <= 1) by (rewrite <- Hone; unfold Qdiv; nra).
    pose proof (roundDouble_mono 0 (y / h) ltac:(lra) H0) as L.
    pose proof (roundDouble_mono (y / h) 1 H0 H1) as U.
    rewrite roundDouble_0 in L. rewrite roundDouble_1 in U.
    destruct (roundDouble (y / h)) as [q| |] eqn:Eq; cbn [Dle] in L, U; try done.
    unfold numberMul.
    pose proof (roundDouble_mono 0 (q * 100) ltac:(lra) ltac:(lra)) as L2.
    pose proof (roundDouble_mono (q * 100) 100 ltac:(lra) ltac:(lra)) as U2.
    rewrite roundDouble_0 in L2. rewrite roundDouble_100 in U2.
    destruct (roundDouble (q * 100)) as [w| |] eqn:Ew; cbn [Dle] in L2, U2; try done.
    exists w. split; [done|]. split; [done|].
    assert (Eq' : Qabs (q - y / h) <= pow2 (-53)).
    { destruct (Qle_lt_or_eq _ _ H0) as [Hpos|Hz].
      - eapply Qle_trans; [apply (roundDouble_error _ _ Eq)|]. apply pow2_le.
        pose proof (quantum_below (y / h) 0 Hpos ltac:(exact H1) ltac:(lia)). lia.
      - rewrite (roundDouble_comp (y / h) 0) in Eq by (by symmetry).
        rewrite roundDouble_0 in Eq. injection Eq as <-. rewrite <- Hz.
        apply Qabs_Qle_condition. pose proof (pow2_pos (-53)). lra. }
    assert (Ew' : Qabs (w - q * 100) <= pow2 (-47)).
    { destruct (Qle_lt_or_eq _ _ L) as [Hpos|Hz].
      - eapply Qle_trans; [apply (roundDouble_error _ _ Ew)|]. apply pow2_le.
        assert (Hb : q * 100 < pow2 7) by (change (pow2 7) with 128; lra).
        pose proof (quantum_under (q * 100) 7 ltac:(lra) Hb ltac:(lia)). lia.
      - rewrite (roundDouble_comp (q * 100) 0) in Ew by (rewrite <- Hz; ring).
        rewrite roundDouble_0 in Ew. injection Ew as <-. rewrite <- Hz.
        apply Qabs_Qle_condition. pose proof (pow2_pos (-47)). lra. }
    apply Qabs_Qle_condition in Eq', Ew'. apply Qabs_Qle_condition.
    assert (E53 : pow2 (-47) == 64 * pow2 (-53)).
    { change 64 with (pow2 6). rewrite <- pow2_add. reflexivity. }
    assert (E45 : pow2 (-45) == 256 * pow2 (-53)).
    { change 256 with (pow2 8). rewrite <- pow2_add. reflexivity. }
    rewrite E45. rewrite E53 in Ew'. pose proof (pow2_pos (-53)) as P53.
    generalize dependent (pow2 (-53)). intros; lra.
  - intros Hy. rewrite (roundDouble_comp (y / h) 0) by (rewrite Hy; field; lra).
    reflexivity.
  - intros Hy. rewrite (roundDouble_comp (y / h) 1) by (rewrite Hy; exact Hone).
    rewrite roundDouble_1. unfold numberMul. vm_compute. reflexivity.
  - intros Hy.
    assert (H1 : 1 <= y / h) by (rewrite <- Hone; unfold Qdiv; nra).
    pose proof (roundDouble_mono 1 (y / h) ltac:(lra) H1) as L.
    rewrite roundDouble_1 in L.
    destruct (roundDouble (y / h)) as [q| |]; cbn [Dle] in L; try done.
    unfold numberMul.
    pose proof (roundDouble_mono 100 (q * 100) ltac:(lra) ltac:(lra)) as L2.
    by rewrite roundDouble_100 in L2.
  - intros Hy.
    assert (H0 : y / h <= 0) by (unfold Qdiv; nra).
    pose proof (roundDouble_nonpos (y / h) H0) as U.
    destruct (roundDouble (y / h)) as [q| |]; cbn [Dle] in U; try done.
    unfold numberMul. apply roundDouble_nonpos. lra.
Qed.
End Rounding.

(** ** Comparisons *)

Lemma Qgtb_true (a b : Q) : Qgtb a b = true ↔ (b < a)%Q.
Proof.
  unfold Qgtb. rewrite negb_true_iff, <- not_true_iff_false, Qle_bool_iff.
  split; [apply Qnot_le_lt | apply Qlt_not_le].
Qed.

Lemma Qgtb_false (a b : Q) : Qgtb a b = false ↔ (a <= b)%Q.
Proof. unfold Qgtb. rewrite negb_false_iff. apply Qle_bool_iff. Qed.

Lemma Qltb_false (a b : Q) : Qltb a b = false ↔ (b <= a)%Q.
Proof. unfold Qltb. rewrite negb_false_iff. apply Qle_bool_iff. Qed.

(** ** Class lists and attributes *)

Section ClassTokens.
Context (c : gset string) (tok : string).

Lemma class_off_on : tok ∈ c → {[tok]} ∪ (c ∖ {[tok]}) = c.
Proof.
  intros Hin. apply set_eq. intros x.
  rewrite elem_of_union, elem_of_difference, elem_of_singleton.
  destruct (decide (x = tok)) as [->|]; tauto.
Qed.

Lemma class_on_off : tok ∉ c → ({[tok]} ∪ c) ∖ {[tok]} = c.
Proof.
  intros Hout. apply set_eq. intros x.
  rewrite elem_of_difference, elem_of_union, elem_of_singleton.
  destruct (decide (x = tok)) as [->|]; tauto.
Qed.

Lemma class_removed : tok ∉ c ∖ {[tok]}.
Proof. rewrite elem_of_difference, elem_of_singleton. tauto. Qed.

Lemma class_added : tok ∈ {[tok]} ∪ c.
Proof. rewrite elem_of_union, elem_of_singleton. tauto. Qed.
End ClassTokens.

Lemma attribute_twice (a : gmap string string) (k v w : string) :
  a !! k = Some w → <[k := w]> (<[k := v]> a) = a.
Proof. intros H. rewrite insert_insert_eq. by apply insert_id. Qed.

(** A node whose class and attribute are switched and switched back. *)
Lemma node_off_on (n : Node) (tok k v w : string) :
  tok ∈ classList n → attributes n !! k = Some w →
  let n1 := withClassList (classList n ∖ {[tok]}) n in
  let n2 := withAttributes (<[k := v]> (attributes n1)) n1 in
  let n3 := withClassList ({[tok]} ∪ classList n2) n2 in
  withAttributes (<[k := w]> (attributes n3)) n3 = n.
Proof.
  intros Hin Hk. destruct n; simpl in *. unfold withAttributes, withClassList; simpl.
  by rewrite class_off_on, attribute_twice.
Qed.

Lemma node_on_off (n : Node) (tok k v w : string) :
  tok ∉ classList n → attributes n !! k = Some w →
  let n1 := withClassList ({[tok]} ∪ classList n) n in
  let n2 := withAttributes (<[k := v]> (attributes n1)) n1 in
  let n3 := withClassList (classList n2 ∖ {[tok]}) n2 in
  withAttributes (<[k := w]> (attributes n3)) n3 = n.
Proof.
  intros Hout Hk. destruct n; simpl in *. unfold withAttributes, withClassList; simpl.
  by rewrite class_on_off, attribute_twice.
Qed.

(** ** Scroll state coordinator *)

Lemma handleHeaderScroll_absent (s : State) :
  header s = None → handleHeaderScroll s = (Normal tt, s).
Proof. intros Hh. unfold handleHeaderScroll, bind, gets. by rewrite Hh. Qed.

Lemma handleHeaderScroll_present (s : State) (h : Node) :
  header s = Some h →
  let y := scrollY s in
  let scrolled :=
    if Qgtb y 50 then {["scrolled"]} ∪ classList h else classList h ∖ {["scrolled"]} in
  let shown :=
    if hidesHeader s h y then {["hidden"]} ∪ scrolled else scrolled ∖ {["hidden"]} in
  handleHeaderScroll s =
    (Normal tt, withLastScrollY y (withHeader (Some (withClassList shown h)) s)).
Proof.
  intros Hh. destruct s; simpl in *; subst.
  unfold hidesHeader, handleHeaderScroll, bind, gets; simpl.
  destruct (Qgtb scrollY0 50); simpl;
    destruct (Qgtb scrollY0 lastScrollY0), (Qgtb scrollY0 (offsetHeight h)), isNavOpen0;
    reflexivity.
Qed.

Lemma updateScrollProgress_absent (s : State) :
  scrollProgressIndicator s = None → updateScrollProgress s = (Normal tt, s).
Proof. intros Hb. unfold updateScrollProgress, bind, gets. by rewrite Hb. Qed.

Lemma updateScrollProgress_run (s : State) (bar : Indicator) :
  scrollProgressIndicator s = Some bar →
  updateScrollProgress s =
    (Normal tt,
     match scrolledPercentage s with
     | Finite w =>
         if Qle_bool 0 w then withScrollProgressIndicator (Some (mkIndicator w)) s else s
     | _ => s
     end).
Proof.
  intros Hb. unfold updateScrollProgress, bind, gets, setWidth. rewrite Hb. cbn beta iota.
  by rewrite Hb.
Qed.

Lemma updateScrollProgress_frame (s : State) :
  header (exec updateScrollProgress s) = header s
  ∧ lastScrollY (exec updateScrollProgress s) = lastScrollY s
  ∧ isNavOpen (exec updateScrollProgress s) = isNavOpen s.
Proof.
  unfold exec. destruct (scrollProgressIndicator s) as [bar|] eqn:Hb.
  - rewrite (updateScrollProgress_run s bar Hb). cbn [snd].
    destruct (scrolledPercentage s) as [w| |]; [destruct (Qle_bool 0 w)|..]; by destruct s.
  - by rewrite updateScrollProgress_absent.
Qed.

Lemma scrollSample_header (s : State) (h : Node) (y : Q) :
  header s = Some h →
  ∃ h', header (exec (scrollSample y) s) = Some h'
        ∧ ("hidden" ∈ classList h' ↔ hidesHeader s h y = true)
        ∧ ("scrolled" ∈ classList h' ↔ (50 < y)%Q)
        ∧ offsetHeight h' = offsetHeight h
        ∧ lastScrollY (exec (scrollSample y) s) = y
        ∧ isNavOpen (exec (scrollSample y) s) = isNavOpen s.
Proof.
  intros Hh. unfold exec, scrollSample, scrollCallback, bind, modify.
  rewrite (handleHeaderScroll_present (withScrollY y s) h) by (destruct s; exact Hh).
  cbv zeta. set (s1 := withLastScrollY _ _).
  destruct (updateScrollProgress_frame s1) as (H1 & H2 & H3).
  unfold exec in H1, H2, H3. rewrite H1, H2, H3. subst s1. destruct s; simpl in *.
  eexists; split; [reflexivity|]. simpl. unfold hidesHeader; simpl.
  split; [|split; [|done]].
  - destruct (_ && _ && _).
    + split; [done|]. intros _. apply class_added.
    + split; [|done]. intros Hin. by apply class_removed in Hin.
  - rewrite <- Qgtb_true.
    destruct (Qgtb y 50), (_ && _ && _); (split; [try done | try done; intros _]).
    + apply elem_of_union. right. apply class_added.
    + apply elem_of_difference. split; [apply class_added|].
      rewrite elem_of_singleton. discriminate.
    + intros [Hin|Hin]%elem_of_union.
      * by apply elem_of_singleton in Hin.
      * by apply class_removed in Hin.
    + intros [Hin _]%elem_of_difference. by apply class_removed in Hin.
Qed.

(** C3.  A scroll sample [y] processed after [lastY] leaves the header hidden
    exactly when [y > lastY], [y] is beyond the header's height and the
    drawer is closed; a sample below the previous one, and the same sample
    again, leave it visible. *)
Theorem header_hidden_on_scroll (s : State) (h : Node) (y : Q) :
  header s = Some h →
  let s1 := exec (scrollSample y) s in
  (∃ h1, header s1 = Some h1 ∧
     ("hidden" ∈ classList h1 ↔
        (lastScrollY s < y)%Q ∧ (offsetHeight h < y)%Q ∧ isNavOpen s = false))
  ∧ (∀ y', (y' < y)%Q →
       ∃ h2, header (exec (scrollSample y') s1) = Some h2 ∧ "hidden" ∉ classList h2)
  ∧ (∃ h2, header (exec (scrollSample y) s1) = Some h2 ∧ "hidden" ∉ classList h2).
Proof.
  intros Hh s1.
  destruct (scrollSample_header s h y Hh) as (h1 & Hh1 & Hhid & _ & Hoff & Hlast & Hopen).
  fold s1 in Hh1, Hlast, Hopen.
  assert (Hdown : ∀ y', (y' <= y)%Q →
            ∃ h2, header (exec (scrollSample y') s1) = Some h2 ∧ "hidden" ∉ classList h2).
  { intros y' Hle.
    destruct (scrollSample_header s1 h1 y' Hh1) as (h2 & Hh2 & Hhid2 & _).
    exists h2; split; [done|]. rewrite Hhid2. unfold hidesHeader. rewrite Hlast.
    apply Qgtb_false in Hle. rewrite Hle. done. }
  split; [|split].
  - exists h1; split; [done|]. rewrite Hhid. unfold hidesHeader.
    rewrite !andb_true_iff, !Qgtb_true, negb_true_iff. tauto.
  - intros y' Hlt. apply Hdown. by apply Qlt_le_weak.
  - apply Hdown. apply Qle_refl.
Qed.

Lemma header_hidden_on_scroll_witness :
  header samplePage = Some sampleHeader
  ∧ ∃ h1, header (exec (scrollSample 300) samplePage) = Some h1
          ∧ ("hidden" ∈ classList h1 ↔
               (lastScrollY samplePage < 300)%Q ∧ (offsetHeight sampleHeader < 300)%Q
               ∧ isNavOpen samplePage = false).
Proof.
  split; [reflexivity|].
  exact (proj1 (header_hidden_on_scroll samplePage sampleHeader 300 eq_refl)).
Defined.

(** ** Navigation drawer *)

Ltac run_drawer :=
  unfold exec, completion, clickNavToggle, closeMobileNav, toggleMobileNav,
    bind, modify, gets;
  simpl.

Lemma closeMobileNav_closed (s : State) :
  isNavOpen s = false → closeMobileNav s = (Normal tt, s).
Proof. intros H. unfold closeMobileNav, bind, gets. by rewrite H. Qed.

Lemma opening_shows_header (s : State) (t h : Node) :
  isNavOpen s = false → navToggle s = Some t → header s = Some h →
  completion toggleMobileNav s = Normal tt
  ∧ header (exec toggleMobileNav s) = Some (withClassList (classList h ∖ {["hidden"]}) h).
Proof.
  intros Hopen Ht Hh.
  destruct s as [bd hd nt pn ? ? ? ? ? ? ? ? ? ? ? op]; simpl in *; subst.
  run_drawer.
  destruct pn; simpl; done.
Qed.

(** Opening the drawer on a page without a header: every mirror is written,
    then line 87 dereferences [null]. *)
Lemma opening_without_header (s : State) (t : Node) :
  isNavOpen s = false → navToggle s = Some t → header s = None →
  completion toggleMobileNav s = Throw (TypeError "header")
  ∧ isNavOpen (exec toggleMobileNav s) = true.
Proof.
  intros Hopen Ht Hh.
  destruct s as [bd hd nt pn ? ? ? ? ? ? ? ? ? ? ? op]; simpl in *; subst.
  run_drawer.
  destruct pn; simpl; done.
Qed.

(** Without the trigger, line 73 dereferences [null]; no listener calls the
    function in that case. *)
Lemma toggle_without_trigger (s : State) :
  navToggle s = None →
  completion toggleMobileNav s = Throw (TypeError "navToggle")
  ∧ clickNavToggle s = (Normal tt, s).
Proof.
  intros Ht. destruct s as [bd hd nt pn ? ? ? ? ? ? ? ? ? ? ? op]; simpl in *; subst.
  run_drawer.
  destruct op; simpl; done.
Qed.

(** Once the trigger has been used, the mirrors agree with the flag. *)
Lemma toggle_establishes_mirror (s : State) (t : Node) :
  navToggle s = Some t → mirrored (exec toggleMobileNav s).
Proof.
  intros Ht. destruct s as [bd hd nt pn ? ? ? ? ? ? ? ? ? ? ? op]; simpl in *; subst.
  unfold mirrored. run_drawer.
  destruct pn, hd, op; simpl; repeat split; intros; simplify_eq; simpl;
    rewrite ?lookup_insert_eq; try done; simpl in *;
    match goal with
    | |- _ ∈ {[_]} ∪ _ => apply class_added
    | H : _ ∈ _ ∖ {[_]} |- _ => by apply class_removed in H
    end.
Qed.

Lemma samplePage_mirrored : mirrored samplePage.
Proof.
  unfold mirrored, samplePage; simpl.
  repeat split; intros; simplify_eq; try done.
  all: unfold sampleTrigger, samplePanel in *; simpl in *.
  all: match goal with H : _ ∈ ∅ |- _ => by apply not_elem_of_empty in H end.
Qed.

Lemma toggleMobileNav_trigger (s : State) (t : Node) :
  navToggle s = Some t → is_Some (navToggle (exec toggleMobileNav s)).
Proof.
  intros Ht. destruct s as [bd hd nt pn ? ? ? ? ? ? ? ? ? ? ? op]; simpl in *; subst.
  run_drawer. destruct pn, hd, op; simpl; eauto.
Qed.

(** C6 (as amended).  Two calls of [toggleMobileNav] return the open flag
    to its value.  From a state whose mirrors agree with the flag they also
    restore the trigger (class [active], [aria-expanded]), the panel (class
    [active], [aria-hidden]) and the [no-scroll] class of [body]; on a page
    with the trigger they leave mirrors that agree with the flag, so they
    restore the mirrors only if these agreed with the flag before. *)
Theorem toggle_twice_restores (s : State) :
  let s2 := exec toggleMobileNav (exec toggleMobileNav s) in
  isNavOpen s2 = isNavOpen s
  ∧ (mirrored s →
       navToggle s2 = navToggle s
       ∧ mobileNavPanel s2 = mobileNavPanel s
       ∧ body s2 = body s)
  ∧ (is_Some (navToggle s) →
       mirrored s2
       ∧ (navToggle s2 = navToggle s ∧ mobileNavPanel s2 = mobileNavPanel s
          ∧ body s2 = body s → mirrored s)).
Proof.
  cbv zeta.
  assert (Hflag : isNavOpen (exec toggleMobileNav (exec toggleMobileNav s)) = isNavOpen s).
  { destruct s as [bd hd nt pn ? ? ? ? ? ? ? ? ? ? ? op]; simpl.
    run_drawer.
    destruct nt, pn, hd, op; reflexivity. }
  split; [exact Hflag|]. split.
  - intros (Ht & Hp & Hb).
    destruct s as [bd hd nt pn ? ? ? ? ? ? ? ? ? ? ? op]; simpl in *.
    assert (Hnot : ¬ (false = true)) by discriminate.
    destruct nt as [t|], pn as [p|], hd as [h|], op; simpl.
    all: run_drawer.
    all: repeat match goal with
         | H : ∀ n, Some ?t = Some n → _ |- _ => destruct (H t eq_refl) as [? ?]; clear H
         | H : ∀ n, None = Some n → _ |- _ => clear H
         end.
    all: repeat split; try reflexivity.
    all: try (f_equal; first [apply node_off_on | apply node_on_off]; simpl; tauto).
    all: first [apply class_off_on | apply class_on_off]; tauto.
  - intros [t Ht].
    destruct (toggleMobileNav_trigger s t Ht) as [t1 Ht1].
    pose proof (toggle_establishes_mirror (exec toggleMobileNav s) t1 Ht1) as Hm.
    split; [exact Hm|].
    intros (Et & Ep & Eb). unfold mirrored in Hm |- *.
    by rewrite Et, Ep, Eb, Hflag in Hm.
Qed.

Lemma toggle_twice_restores_witness :
  mirrored samplePage
  ∧ isNavOpen (exec toggleMobileNav (exec toggleMobileNav samplePage)) = false
  ∧ navToggle (exec toggleMobileNav (exec toggleMobileNav samplePage)) = Some sampleTrigger
  ∧ mobileNavPanel (exec toggleMobileNav (exec toggleMobileNav samplePage)) = Some samplePanel
  ∧ body (exec toggleMobileNav (exec toggleMobileNav samplePage)) = ∅.
Proof.
  split; [exact samplePage_mirrored|].
  destruct (toggle_twice_restores samplePage) as (Hflag & Hrest & _).
  split; [exact Hflag | exact (Hrest samplePage_mirrored)].
Defined.

(** C6 (as stated) fails: on a closed drawer whose trigger and panel carry
    no ARIA attribute, as nothing in the script writes them at load, two
    toggles complete and leave [aria-expanded] and [aria-hidden] behind;
    the trigger and the panel are not what they were. *)
Lemma toggle_twice_adds_attributes :
  let bare := mkNode ∅ ∅ "" 40 in
  let s := withMobileNavPanel (Some bare) (withNavToggle (Some bare) samplePage) in
  let s2 := exec toggleMobileNav (exec toggleMobileNav s) in
  isNavOpen s = false
  ∧ completion toggleMobileNav s = Normal tt
  ∧ completion toggleMobileNav (exec toggleMobileNav s) = Normal tt
  ∧ isNavOpen s2 = false
  ∧ navToggle s = Some bare
  ∧ navToggle s2 = Some (mkNode ∅ {["aria-expanded" := "false"]} "" 40)
  ∧ mobileNavPanel s2 = Some (mkNode ∅ {["aria-hidden" := "true"]} "" 40)
  ∧ navToggle s2 ≠ navToggle s
  ∧ mobileNavPanel s2 ≠ mobileNavPanel s.
Proof.
  cbv zeta.
  assert (Ht : navToggle (exec toggleMobileNav (exec toggleMobileNav
                 (withMobileNavPanel (Some (mkNode ∅ ∅ "" 40))
                    (withNavToggle (Some (mkNode ∅ ∅ "" 40)) samplePage))))
               = Some (mkNode ∅ {["aria-expanded" := "false"]} "" 40))
    by (vm_compute; reflexivity).
  assert (Hp : mobileNavPanel (exec toggleMobileNav (exec toggleMobileNav
                 (withMobileNavPanel (Some (mkNode ∅ ∅ "" 40))
                    (withNavToggle (Some (mkNode ∅ ∅ "" 40)) samplePage))))
               = Some (mkNode ∅ {["aria-hidden" := "true"]} "" 40))
    by (vm_compute; reflexivity).
  repeat split; try reflexivity; try assumption.
  - rewrite Ht. intros H.
    apply (f_equal (λ n : option Node, n ≫= λ x, attributes x !! "aria-expanded")) in H.
    vm_compute in H. discriminate.
  - rewrite Hp. intros H.
    apply (f_equal (λ n : option Node, n ≫= λ x, attributes x !! "aria-hidden")) in H.
    vm_compute in H. discriminate.
Qed.

(** C10.  Closing the drawer, by [toggleMobileNav] or by [closeMobileNav],
    leaves the header as it was: line 87 runs only when the drawer has just
    been opened. *)
Theorem closing_keeps_header (s : State) :
  isNavOpen s = true →
  header (exec toggleMobileNav s) = header s
  ∧ isNavOpen (exec toggleMobileNav s) = false
  ∧ header (exec closeMobileNav s) = header s
  ∧ isNavOpen (exec closeMobileNav s) = false.
Proof.
  intros Hopen.
  destruct s as [bd hd nt pn ? ? ? ? ? ? ? ? ? ? ? op]; simpl in *; subst.
  run_drawer.
  destruct nt, pn; simpl; done.
Qed.

Lemma closing_keeps_header_witness :
  let hidden := Some (withClassList {["hidden"]} sampleHeader) in
  let s := withIsNavOpen true (withHeader hidden samplePage) in
  isNavOpen s = true
  ∧ header (exec toggleMobileNav s) = hidden
  ∧ isNavOpen (exec toggleMobileNav s) = false
  ∧ header (exec closeMobileNav s) = hidden
  ∧ isNavOpen (exec closeMobileNav s) = false.
Proof.
  cbv zeta. split; [reflexivity|].
  exact (closing_keeps_header
           (withIsNavOpen true
              (withHeader (Some (withClassList {["hidden"]} sampleHeader)) samplePage))
           eq_refl).
Defined.

(** C5.  On a page with the trigger but without the header, a click on the
    trigger throws: [toggleMobileNav] flips the flag, writes the mirrors and
    then dereferences the missing header at line 87, where
    [handleHeaderScroll] on the same page returns at once. *)
Theorem toggle_without_header_throws :
  let s := withHeader None samplePage in
  completion clickNavToggle s = Throw (TypeError "header")
  ∧ isNavOpen (exec clickNavToggle s) = true
  ∧ handleHeaderScroll s = (Normal tt, s).
Proof. cbv zeta. repeat split. Qed.

(** The other optional targets: absent, nothing happens. *)
Lemma updateThemeToggleIcon_absent (s : State) :
  themeToggle s = None → updateThemeToggleIcon s = (Normal tt, s).
Proof. intros H. unfold updateThemeToggleIcon, bind, gets. by rewrite H. Qed.

Lemma displayFinanceNews_absent (s : State) :
  newsGrid s = None → displayFinanceNews s = (Normal tt, s).
Proof. intros H. unfold displayFinanceNews, bind, gets. by rewrite H. Qed.

Lemma toggle_without_panel (s : State) (t h : Node) :
  navToggle s = Some t → header s = Some h → mobileNavPanel s = None →
  completion toggleMobileNav s = Normal tt
  ∧ mobileNavPanel (exec toggleMobileNav s) = None.
Proof.
  intros Ht Hh Hp.
  destruct s as [bd hd nt pn ? ? ? ? ? ? ? ? ? ? ? op]; simpl in *; subst.
  run_drawer.
  destruct op; simpl; done.
Qed.

(** ** Scroll progress *)

(** What a scroll sample leaves on the indicator. *)
Lemma scrollSample_progress (s : State) (bar : Indicator) (y : Q) :
  scrollProgressIndicator s = Some bar →
  scrollProgressIndicator (exec (scrollSample y) s) =
    Some match scrolledPercentage (withScrollY y s) with
         | Finite w => if Qle_bool 0 w then mkIndicator w else bar
         | _ => bar
         end.
Proof.
  intros Hb. unfold exec, scrollSample, scrollCallback, bind, modify.
  assert (Hrun : ∀ s1, scrollProgressIndicator s1 = Some bar →
            scrolledPercentage s1 = scrolledPercentage (withScrollY y s) →
            scrollProgressIndicator (snd (updateScrollProgress s1)) =
              Some match scrolledPercentage (withScrollY y s) with
                   | Finite w => if Qle_bool 0 w then mkIndicator w else bar
                   | _ => bar
                   end).
  { intros s1 Hb1 Hp. rewrite (updateScrollProgress_run s1 bar Hb1), Hp. cbn [snd].
    destruct (scrolledPercentage (withScrollY y s)) as [w| |]; [|done..].
    destruct (Qle_bool 0 w); [by destruct s1 | done]. }
  destruct (header s) as [h|] eqn:Hh.
  - rewrite (handleHeaderScroll_present (withScrollY y s) h) by (destruct s; exact Hh).
    cbv zeta. apply Hrun; by destruct s.
  - rewrite (handleHeaderScroll_absent (withScrollY y s)) by (destruct s; exact Hh).
    apply Hrun; by destruct s.
Qed.

(** C2 (as amended).  After a scroll sample [y] the indicator's width is 0
    when the scrollable height [h] is not positive.  When [h] is positive
    the width is the percentage [(y / h) * 100] computed in binary64, with
    no clamp, whenever that is finite and not negative; a negative or
    infinite percentage leaves the indicator as it was.  The percentage is
    in [0, 100] and within [2^-45] of the exact one for [0 <= y <= h], is 0
    at [y = 0] and 100 at [y = h], is at least 100 for [y > h] and at most 0
    for [y < 0]. *)
Theorem scroll_progress_ratio (s : State) (bar : Indicator) (y : Q) :
  scrollProgressIndicator s = Some bar →
  let h := scrollableHeight s in
  let p := numberMul (numberDiv y (inject_Z h)) 100 in
  ∃ bar', scrollProgressIndicator (exec (scrollSample y) s) = Some bar'
    ∧ ((h ≤ 0)%Z → widthPercent bar' = 0%Q)
    ∧ ((0 < h)%Z →
         (∀ w, p = Finite w → (0 <= w)%Q → widthPercent bar' = w)
         ∧ (∀ w, p = Finite w → (w < 0)%Q → bar' = bar)
         ∧ (p = PlusInfinity ∨ p = MinusInfinity → bar' = bar)
         ∧ ((0 <= y <= inject_Z h)%Q →
              ∃ w, p = Finite w ∧ (0 <= w <= 100)%Q
                   ∧ (Qabs (w - y / inject_Z h * 100) <= pow2 (-45))%Q)
         ∧ (y == 0 → p = Finite 0)
         ∧ (y == inject_Z h → p = Finite 100)
         ∧ ((inject_Z h < y)%Q → Dle (Finite 100) p)
         ∧ ((y < 0)%Q → Dle p (Finite 0))).
Proof.
  intros Hb. cbv zeta. rewrite (scrollSample_progress s bar y Hb).
  eexists. split; [reflexivity|].
  assert (Hp : scrolledPercentage (withScrollY y s)
               = if (0 <? scrollableHeight s)%Z
                 then numberMul (numberDiv y (inject_Z (scrollableHeight s))) 100
                 else Finite 0) by (by destruct s).
  rewrite Hp. clear Hp. set (h := scrollableHeight s).
  destruct (Z.ltb_spec 0 h) as [Hpos|Hneg].
  - split; [lia|]. intros _.
    assert (Hq : (0 < inject_Z h)%Q) by (by rewrite (Zlt_Qlt 0 h) in Hpos).
    destruct (percentage_range y (inject_Z h) Hq) as (R1 & R2 & R3 & R4 & R5).
    remember (numberMul (numberDiv y (inject_Z h)) 100) as p eqn:Ep. clear Ep.
    split; [|split; [|split; [|done]]].
    + intros w -> Hw. apply Qle_bool_iff in Hw. by rewrite Hw.
    + intros w -> Hw.
      assert (Hf : Qle_bool 0 w = false).
      { apply not_true_is_false. intros H. apply Qle_bool_iff in H.
        by apply (Qlt_not_le _ _ Hw). }
      by rewrite Hf.
    + by intros [-> | ->].
  - split; [done|]. lia.
Qed.

Lemma scroll_progress_ratio_witness :
  scrollProgressIndicator samplePage = Some (mkIndicator 0)
  ∧ ∃ bar', scrollProgressIndicator (exec (scrollSample 250) samplePage) = Some bar'
            ∧ widthPercent bar' = 25%Q.
Proof.
  split; [reflexivity|].
  destruct (scroll_progress_ratio samplePage (mkIndicator 0) 250 eq_refl)
    as (bar' & Hbar & _ & Hpos).
  exists bar'. split; [exact Hbar|].
  destruct (Hpos eq_refl) as (Hwidth & _).
  apply Hwidth; [vm_compute; reflexivity | discriminate].
Defined.

(** C2 (as stated) fails: with 1000 scrollable pixels, a sample at 1200
    leaves the indicator at 120%, a ratio of 6/5, where the clamped ratio
    is 1. *)
Lemma scroll_progress_not_clamped :
  let s := exec (scrollSample 1200) samplePage in
  scrollableHeight s = 1000%Z
  ∧ scrollProgressIndicator s = Some (mkIndicator 120)
  ∧ specProgressRatio s == 1
  ∧ ¬ (shownRatio (mkIndicator 120) == specProgressRatio s)
  ∧ ¬ (widthPercent (mkIndicator 120) <= 100)%Q.
Proof.
  cbv zeta. split; [|split; [|split; [|split]]].
  - reflexivity.
  - vm_compute. reflexivity.
  - reflexivity.
  - intros H. vm_compute in H. discriminate.
  - intros H. vm_compute in H. apply H. reflexivity.
Qed.

(** The rounding shows: with 100 scrollable pixels a sample at 57 leaves the
    width at 56.99999999999999%, the binary64 value just below 57. *)
Lemma scroll_progress_rounded :
  let s := exec (scrollSample 57) (withInnerHeight 1900 samplePage) in
  scrollableHeight s = 100%Z
  ∧ scrollProgressIndicator s
    = Some (mkIndicator (8022036836253695 # 140737488355328))
  ∧ (8022036836253695 # 140737488355328 < 57)%Q
  ∧ (57 - (8022036836253695 # 140737488355328) == pow2 (-47))%Q.
Proof.
  cbv zeta. split; [|split; [|split]].
  - reflexivity.
  - vm_compute. reflexivity.
  - reflexivity.
  - reflexivity.
Qed.

(** A negative sample leaves the indicator where the previous one put it. *)
Lemma scroll_progress_negative_sample :
  let s := exec (scrollSample (-50)) (exec (scrollSample 250) samplePage) in
  scrolledPercentage s = Finite (-5)
  ∧ scrollProgressIndicator s = Some (mkIndicator 25).
Proof. cbv zeta. split; vm_compute; reflexivity. Qed.

(** ** Theme *)

Lemma checkToken_mode (theme : string) (s : State) :
  hasWhitespace theme = false → checkToken (theme ++ "-mode") s = (Normal tt, s).
Proof.
  intros Hw. assert (Hws : hasWhitespace (theme ++ "-mode") = false).
  { induction theme as [|c r IH]; [reflexivity|]. simpl in *.
    apply orb_false_iff in Hw as [-> Hr]. simpl. by apply IH. }
  unfold checkToken. rewrite Hws. destruct theme; reflexivity.
Qed.

Lemma applyTheme_storage (theme : string) (s : State) :
  hasWhitespace theme = false →
  accessible (localStorage s) && writable (localStorage s) = true →
  completion (applyTheme theme) s = Normal tt
  ∧ accessible (localStorage (exec (applyTheme theme) s)) = true
  ∧ slots (localStorage (exec (applyTheme theme) s)) !! "theme" = Some theme.
Proof.
  intros Hw Hst.
  destruct s as [bd ? ? ? tg ? ? ? ? ? ? ? [acc wr sl]].
  unfold exec, completion, applyTheme, bind.
  unfold bodyClassListRemove, bodyClassListAdd, bind, modify. simpl.
  rewrite checkToken_mode by done.
  unfold setItem, updateThemeToggleIcon, bind, gets. simpl in *.
  apply andb_true_iff in Hst as [-> ->]. destruct tg; simpl.
  all: repeat split; apply lookup_insert_eq.
Qed.

(** The state in which [applyTheme] reaches line 109, when the token is
    valid and the storage takes the write. *)
Lemma applyTheme_prefix (theme : string) (s : State) :
  hasWhitespace theme = false →
  accessible (localStorage s) && writable (localStorage s) = true →
  applyTheme theme s
  = bind updateThemeToggleIcon (λ _, consoleLog ("Theme applied: " ++ theme))
      (withCurrentTheme theme
         (withLocalStorage
            (mkStorage true true (<["theme" := theme]> (slots (localStorage s))))
            (withBody (themeClasses theme (body s)) s))).
Proof.
  intros Hw Hst.
  destruct s as [bd ? ? ? tg ? ? ? ? ? ? ? [acc wr sl]].
  unfold applyTheme, bind at 1 2 3 4 5.
  unfold bodyClassListRemove, bodyClassListAdd, bind, modify. simpl.
  rewrite checkToken_mode by done.
  unfold setItem. simpl in *.
  apply andb_true_iff in Hst as [-> ->]. reflexivity.
Qed.

Lemma updateThemeToggleIcon_present (s : State) (t : Node) :
  themeToggle s = Some t →
  updateThemeToggleIcon s
  = (Normal tt,
     withThemeToggle
       (Some (mkNode (classList t)
                (<["aria-label" :=
                     "Switch to "
                     ++ (if (currentTheme s =? "dark")%string then "light" else "dark")
                     ++ " mode"]>
                   (attributes t))
                (if (currentTheme s =? "dark")%string then sunIcon else moonIcon)
                (offsetHeight t)))
       s).
Proof.
  intros Ht.
  unfold updateThemeToggleIcon, bind, gets, setInnerHTML, setAttribute, writeNode.
  destruct s as [? ? ? ? tg]; cbn [themeToggle currentTheme deref store] in *. subst tg.
  reflexivity.
Qed.

(** What [applyTheme] does to the body, the storage and [currentTheme]. *)
Lemma applyTheme_outcome (theme : string) (s : State) :
  hasWhitespace theme = false →
  let s' := exec (applyTheme theme) s in
  body s' = themeClasses theme (body s)
  ∧ (accessible (localStorage s) && writable (localStorage s) = true →
       completion (applyTheme theme) s = Normal tt
       ∧ currentTheme s' = theme
       ∧ slots (localStorage s') !! "theme" = Some theme)
  ∧ (accessible (localStorage s) && writable (localStorage s) = false →
       (∃ e, completion (applyTheme theme) s = Throw e)
       ∧ currentTheme s' = currentTheme s
       ∧ themeToggle s' = themeToggle s
       ∧ localStorage s' = localStorage s).
Proof.
  intros Hw. cbv zeta.
  destruct s as [bd ? ? ? tg ? ? ? ? ? ? ? [acc wr sl]].
  unfold exec, completion, applyTheme, bind.
  unfold bodyClassListRemove, bodyClassListAdd, bind, modify. simpl.
  rewrite checkToken_mode by done.
  unfold setItem, updateThemeToggleIcon, bind, gets. simpl.
  destruct acc, wr; simpl; [destruct tg; simpl|..].
  all: repeat split; try discriminate; try reflexivity; eauto.
  all: apply lookup_insert_eq.
Qed.

(** C4 (as amended).  [applyTheme] always switches the theme classes of
    [body].  When the storage write succeeds it completes normally, with
    the theme persisted and held in [currentTheme], and the toggle control,
    if the page has one, shows the icon and the label of the other theme;
    when the write throws, the exception leaves [applyTheme] and neither
    [currentTheme] nor the toggle control is updated. *)
Theorem applyTheme_persistence (theme : string) (s : State) :
  hasWhitespace theme = false →
  let s' := exec (applyTheme theme) s in
  body s' = themeClasses theme (body s)
  ∧ (accessible (localStorage s) && writable (localStorage s) = true →
       completion (applyTheme theme) s = Normal tt
       ∧ currentTheme s' = theme
       ∧ slots (localStorage s') !! "theme" = Some theme
       ∧ (themeToggle s = None → themeToggle s' = None)
       ∧ (∀ t, themeToggle s = Some t →
            ∃ t', themeToggle s' = Some t'
                  ∧ classList t' = classList t
                  ∧ (theme = "dark" →
                       innerHTML t' = sunIcon
                       ∧ attributes t' !! "aria-label" = Some "Switch to light mode")
                  ∧ (theme ≠ "dark" →
                       innerHTML t' = moonIcon
                       ∧ attributes t' !! "aria-label" = Some "Switch to dark mode")))
  ∧ (accessible (localStorage s) && writable (localStorage s) = false →
       (∃ e, completion (applyTheme theme) s = Throw e)
       ∧ currentTheme s' = currentTheme s
       ∧ themeToggle s' = themeToggle s
       ∧ localStorage s' = localStorage s).
Proof.
  intros Hw. cbv zeta.
  destruct (applyTheme_outcome theme s Hw) as (Hbody & Hok & Hfail).
  split; [exact Hbody|]. split; [|exact Hfail].
  intros Hst. destruct (Hok Hst) as (Hc & Hcur & Hslot).
  split; [exact Hc|]. split; [exact Hcur|]. split; [exact Hslot|].
  unfold exec. rewrite applyTheme_prefix by done. unfold bind.
  set (s1 := withCurrentTheme theme _).
  assert (Htg : themeToggle s1 = themeToggle s) by (by destruct s).
  assert (Hth : currentTheme s1 = theme) by (by destruct s).
  split.
  - intros Hnone. rewrite updateThemeToggleIcon_absent by congruence.
    unfold consoleLog, modify. cbn [snd]. rewrite <- Hnone, <- Htg. by destruct s1.
  - intros t Ht. rewrite (updateThemeToggleIcon_present s1 t) by congruence.
    rewrite Hth. unfold consoleLog, modify. cbn [snd].
    eexists. split; [by destruct s1|]. cbn [classList innerHTML attributes].
    split; [reflexivity|]. split.
    + intros ->. split; [reflexivity|]. apply lookup_insert_eq.
    + intros Hne. apply String.eqb_neq in Hne. rewrite Hne.
      split; [reflexivity|]. apply lookup_insert_eq.
Qed.

Lemma applyTheme_persistence_witness :
  hasWhitespace "dark" = false
  ∧ accessible (localStorage samplePage) && writable (localStorage samplePage) = true
  ∧ completion (applyTheme "dark") samplePage = Normal tt
  ∧ currentTheme (exec (applyTheme "dark") samplePage) = "dark"
  ∧ slots (localStorage (exec (applyTheme "dark") samplePage)) !! "theme" = Some "dark"
  ∧ ∃ t', themeToggle (exec (applyTheme "dark") samplePage) = Some t'
          ∧ innerHTML t' = sunIcon
          ∧ attributes t' !! "aria-label" = Some "Switch to light mode".
Proof.
  split; [reflexivity|]. split; [reflexivity|].
  destruct (proj1 (proj2 (applyTheme_persistence "dark" samplePage eq_refl)) eq_refl)
    as (Hc & Hcur & Hslot & _ & Htoggle).
  split; [exact Hc|]. split; [exact Hcur|]. split; [exact Hslot|].
  destruct (Htoggle sampleThemeToggle eq_refl) as (t' & Ht' & _ & Hdark & _).
  exists t'. split; [exact Ht'|]. exact (Hdark eq_refl).
Defined.

(** C4 (as stated) fails: with a storage that refuses the write,
    [applyTheme "dark"] throws to its caller and [currentTheme] stays
    ["light"]. *)
Lemma applyTheme_write_failure_propagates :
  let s := withLocalStorage (mkStorage true false ∅) samplePage in
  completion (applyTheme "dark") s = Throw QuotaExceededError
  ∧ completion (applyTheme "dark") s ≠ Normal tt
  ∧ currentTheme (exec (applyTheme "dark") s) = "light"
  ∧ currentTheme (exec (applyTheme "dark") s) ≠ "dark".
Proof. cbv zeta. repeat split; discriminate. Qed.

(** C7 (as amended).  With storage accessible, the read of line 22 yields
    the stored string whenever it is non-empty, whatever it is, and
    ["light"] when the slot is unset or empty; so it yields a value of
    {light, dark} when the slot holds one of these or nothing.  With storage
    access denied the read throws, and nothing is yielded. *)
Theorem stored_theme_read (s : State) :
  let stored := slots (localStorage s) !! "theme" in
  (accessible (localStorage s) = true →
     readStoredTheme s = (Normal (strOr stored "light"), s)
     ∧ (∀ v, stored = Some v → v ≠ "" → strOr stored "light" = v)
     ∧ (stored = None ∨ stored = Some "" → strOr stored "light" = "light")
     ∧ (stored = Some "light" ∨ stored = Some "dark" ∨ stored = Some "" ∨ stored = None →
          strOr stored "light" = "light" ∨ strOr stored "light" = "dark"))
  ∧ (accessible (localStorage s) = false →
       readStoredTheme s = (Throw SecurityError, s)).
Proof.
  cbv zeta. unfold readStoredTheme, bind, getItem, ret. split; intros Ha; rewrite Ha.
  - split; [reflexivity|]. split; [|split].
    + intros v -> Hv. destruct v; done.
    + intros [-> | ->]; reflexivity.
    + intros [-> | [-> | [-> | ->]]]; simpl; auto.
  - reflexivity.
Qed.

Lemma stored_theme_read_witness :
  let s := withLocalStorage (mkStorage true true {["theme" := "dark"]}) samplePage in
  let denied := withLocalStorage (mkStorage false false ∅) samplePage in
  accessible (localStorage s) = true
  ∧ readStoredTheme s = (Normal "dark", s)
  ∧ accessible (localStorage denied) = false
  ∧ readStoredTheme denied = (Throw SecurityError, denied).
Proof.
  cbv zeta. split; [reflexivity|]. split; [|split; [reflexivity|]].
  - exact (proj1 (proj1 (stored_theme_read
      (withLocalStorage (mkStorage true true {["theme" := "dark"]}) samplePage)) eq_refl)).
  - exact (proj2 (stored_theme_read
      (withLocalStorage (mkStorage false false ∅) samplePage)) eq_refl).
Defined.

(** C7 (as stated) fails: a slot holding ["blue"] is read as ["blue"], and
    with storage access denied the read throws instead of yielding
    ["light"]. *)
Lemma stored_theme_not_validated :
  let blue := withLocalStorage (mkStorage true true {["theme" := "blue"]}) samplePage in
  let denied := withLocalStorage (mkStorage false false ∅) samplePage in
  completion readStoredTheme blue = Normal "blue"
  ∧ "blue" ≠ "light" ∧ "blue" ≠ "dark"
  ∧ completion readStoredTheme denied = Throw SecurityError.
Proof. cbv zeta. repeat split; discriminate. Qed.

(** What [applyTheme] persists is what the next page load reads. *)
Lemma applyTheme_then_read (theme : string) (s : State) :
  hasWhitespace theme = false → theme ≠ "" →
  accessible (localStorage s) && writable (localStorage s) = true →
  completion readStoredTheme (exec (applyTheme theme) s) = Normal theme.
Proof.
  intros Hw Hne Hst.
  destruct (applyTheme_storage theme s Hw Hst) as (_ & Hacc & Hslot).
  unfold completion, readStoredTheme, bind, getItem, ret.
  rewrite Hacc. simpl. rewrite Hslot. destruct theme; done.
Qed.

(** ** News panel *)

Ltac run_news :=
  unfold exec, completion, displayFinanceNews, tryCatch, fetchAndRender,
    bind, gets, fetch;
  simpl.

Lemma news_cards_rendered (items : list NewsItem) (s : State) (g : Grid) :
  newsGrid s = Some g →
  forEach items renderItem s =
    (Normal tt,
     withNewsGrid (Some (mkGrid (markup g) (appended g ++ map cardOf items))) s).
Proof.
  revert s g. induction items as [|item rest IH]; intros s g Hg.
  - simpl. unfold skip, ret. rewrite app_nil_r. destruct s, g; simpl in *; by subst.
  - simpl. unfold bind, renderItem, appendChild, writeGrid. rewrite Hg.
    erewrite IH by (destruct s; reflexivity).
    destruct s; simpl. unfold cardOf. by rewrite <- app_assoc.
Qed.

(** The call of line 211 resolves nowhere. *)
Lemma staggerAnimation_out_of_scope :
  resolve [DisplayFinanceNewsScope; ClosureScope; GlobalScope] "staggerAnimation" = None
  ∧ resolve [InitScrollAnimationsScope; ClosureScope; GlobalScope] "staggerAnimation"
    = Some InitScrollAnimationsScope.
Proof. split; reflexivity. Qed.


(** Every success with at least one item ends in the error state. *)
Lemma news_success_lost (s : State) (g : Grid) (status : nat) (items : list NewsItem) :
  newsGrid s = Some g →
  network s (requests s) = Response status (ParsedObject (Some items)) →
  responseOk status = true → items ≠ [] →
  newsGrid (exec (setGridHTML "";; forEach (take 4 items) renderItem) s)
    = Some (mkGrid "" (map cardOf (take 4 items)))
  ∧ newsGrid (exec displayFinanceNews s) = Some (mkGrid errorHTML []).
Proof.
  intros Hg Hnet Hok Hne. split.
  - unfold exec, bind, setGridHTML, writeGrid. rewrite Hg.
    erewrite news_cards_rendered by (destruct s; reflexivity). by destruct s.
  - destruct s as [? ? ? ? ? ? ng ? ? ? ? ? ? net ? ? ? req]; simpl in *; subst.
    run_news. rewrite Hnet. cbn -[forEach]. rewrite Hok. cbn -[forEach].
    destruct items as [|item rest]; [done|]. cbn -[forEach take].
    unfold bind. erewrite news_cards_rendered by reflexivity. reflexivity.
Qed.

(** A success without items (the value [null], an object without [items],
    an empty list) shows the "no items" message. *)
Lemma news_no_items (s : State) (g : Grid) (status : nat) (body : Body) :
  newsGrid s = Some g →
  network s (requests s) = Response status body →
  responseOk status = true →
  body = ParsedNull ∨ body = ParsedObject None ∨ body = ParsedObject (Some []) →
  newsGrid (exec displayFinanceNews s) = Some (mkGrid noItemsHTML []).
Proof.
  intros Hg Hnet Hok Hbody.
  destruct s as [? ? ? ? ? ? ng ? ? ? ? ? ? net ? ? ? req]; simpl in *; subst.
  run_news. rewrite Hnet. simpl. rewrite Hok.
  destruct Hbody as [-> | [-> | ->]]; reflexivity.
Qed.

(** C1.  The endpoint answers 200 with six items [{title: "A", link:
    "http://x"}].  The loader builds the first four cards, each with the
    placeholder image and the fallback excerpt; the call of
    [staggerAnimation] then throws a [ReferenceError], and the [catch]
    block replaces the cards by the error message.  No animation is
    registered. *)
Theorem news_success_ends_in_error :
  let s := withNetwork (λ _, sixItems) samplePage in
  newsGrid (exec (setGridHTML "";; forEach (take 4 (replicate 6 sampleItem)) renderItem) s)
    = Some (mkGrid "" (replicate 4 sampleCard))
  ∧ completion fetchAndRender (exec (setGridHTML loadingHTML) s)
    = Throw (ReferenceError "staggerAnimation")
  ∧ newsGrid (exec displayFinanceNews s) = Some (mkGrid errorHTML [])
  ∧ animations (exec displayFinanceNews s) = [].
Proof. cbv zeta. repeat split. Qed.

(** C8.  When the fetch fails (rejected, status outside 200..299, or body
    not JSON) the grid ends with the error message and no card, after one
    request, and the loader completes normally. *)
Theorem news_failure_shows_error (s : State) (g : Grid) :
  newsGrid s = Some g →
  fetchFails (network s (requests s)) →
  let s' := exec displayFinanceNews s in
  newsGrid s' = Some (mkGrid errorHTML [])
  ∧ requests s' = S (requests s)
  ∧ completion displayFinanceNews s = Normal tt.
Proof.
  intros Hg Hfail. cbv zeta.
  destruct s as [? ? ? ? ? ? ng ? ? ? ? ? ? net ? ? ? req]; simpl in *; subst.
  run_news.
  destruct (net req) as [|status body]; simpl; [done|].
  destruct Hfail as [Hok | ->].
  - rewrite Hok. simpl. done.
  - destruct (responseOk status); simpl; done.
Qed.

Lemma news_failure_shows_error_witness :
  newsGrid samplePage = Some (mkGrid "" [])
  ∧ fetchFails (network samplePage (requests samplePage))
  ∧ newsGrid (exec displayFinanceNews samplePage) = Some (mkGrid errorHTML [])
  ∧ requests (exec displayFinanceNews samplePage) = 1%nat
  ∧ completion displayFinanceNews samplePage = Normal tt.
Proof.
  assert (Hfail : fetchFails (network samplePage (requests samplePage)))
    by (left; reflexivity).
  split; [reflexivity|]. split; [exact Hfail|].
  exact (news_failure_shows_error samplePage (mkGrid "" []) eq_refl Hfail).
Defined.

(** ** Selector queries

    On a well-formed page the walks of [closest] and of [querySelectorIn]
    reach the root before their bound. *)

Lemma closestWithin_enough (pg : list Element) (sel : Simple) :
  wellFormed pg →
  ∀ i fuel, (i < fuel)%nat → closestWithin fuel pg sel i = closestWithin (S i) pg sel i.
Proof.
  intros Hwf i. induction (lt_wf i) as [i _ IH]. intros fuel Hlt.
  destruct fuel as [|fuel]; [lia|]. simpl.
  destruct (pg !! i) as [e|] eqn:He; [|done].
  destruct (matchesSimple sel e); [done|].
  destruct (parentIndex e) as [p|] eqn:Hp; [|done].
  assert (Hpi : (p < i)%nat) by eauto.
  rewrite (IH p Hpi fuel) by lia. symmetry. apply IH; [done|lia].
Qed.

Lemma closest_total (pg : list Element) (sel : Simple) (i : nat) (e : Element) :
  wellFormed pg → pg !! i = Some e →
  closest pg sel i = closestWithin (S i) pg sel i.
Proof.
  intros Hwf He. apply closestWithin_enough; [done|]. by apply lookup_lt_Some in He.
Qed.

Lemma hasAncestorWithin_enough (pg : list Element) (root : nat) :
  wellFormed pg →
  ∀ i fuel, (i < fuel)%nat →
    hasAncestorWithin fuel pg root i = hasAncestorWithin (S i) pg root i.
Proof.
  intros Hwf i. induction (lt_wf i) as [i _ IH]. intros fuel Hlt.
  destruct fuel as [|fuel]; [lia|]. simpl.
  destruct (pg !! i) as [e|] eqn:He; [|done].
  destruct (parentIndex e) as [p|] eqn:Hp; [|done].
  assert (Hpi : (p < i)%nat) by eauto.
  rewrite (IH p Hpi fuel) by lia. f_equal. symmetry. apply IH; [done|lia].
Qed.

Lemma sampleElements_wellFormed : wellFormed sampleElements.
Proof.
  intros i e p He Hp. 
  do 7 (destruct i as [|i]; [simpl in He; simplify_eq; simpl in Hp; simplify_eq; lia|]).
  done.
Qed.

(** ** Reduced motion *)

Lemma applyVars_resting (st : Style) : applyVars restingVars st = resting.
Proof. reflexivity. Qed.

Lemma toArray_spec (sels : list Selector) (pg : list Element) (i : nat) :
  i ∈ toArray sels pg ↔ ∃ e, pg !! i = Some e ∧ matchesAny pg sels e = true.
Proof.
  unfold toArray. rewrite list_elem_of_In, filter_In, in_seq. unfold selected. split.
  - intros [_ H]. destruct (pg !! i) as [e|]; [eauto | discriminate].
  - intros (e & He & Hm). rewrite He. split; [|done].
    apply lookup_lt_Some in He. lia.
Qed.

Section SetAll.
Context (v : TweenVars).

Lemma forEach_gsapSet (l : list nat) (s : State) :
  forEach l (λ el, gsapSet el v) s = (Normal tt, withPage (setAll v l (page s)) s).
Proof.
  revert s. induction l as [|el rest IH]; intros s.
  - destruct s; reflexivity.
  - simpl. unfold bind, gsapSet, modify. rewrite IH. destruct s; reflexivity.
Qed.

Lemma setAll_cons (el : nat) (rest : list nat) (pg : list Element) :
  setAll v (el :: rest) pg
  = setAll v rest (alter (λ e, withStyle (applyVars v (style e)) e) el pg).
Proof. reflexivity. Qed.

Lemma setAll_length (l : list nat) (pg : list Element) :
  length (setAll v l pg) = length pg.
Proof.
  revert pg. induction l as [|el rest IH]; intros pg; [done|].
  by rewrite setAll_cons, IH, length_alter.
Qed.

Lemma setAll_out (l : list nat) (pg : list Element) (i : nat) :
  i ∉ l → setAll v l pg !! i = pg !! i.
Proof.
  revert pg. induction l as [|el rest IH]; intros pg Hi; [done|].
  apply not_elem_of_cons in Hi as [Hne Hi].
  rewrite setAll_cons, IH by done. by apply list_lookup_alter_ne.
Qed.

(** Only the style of an element changes. *)
Lemma setAll_shape (l : list nat) (pg : list Element) (i : nat) (e : Element) :
  pg !! i = Some e →
  ∃ e', setAll v l pg !! i = Some e'
        ∧ localName e' = localName e ∧ elementId e' = elementId e
        ∧ classes e' = classes e ∧ parentIndex e' = parentIndex e.
Proof.
  revert pg e. induction l as [|el rest IH]; intros pg e He; [by exists e|].
  rewrite setAll_cons. destruct (decide (el = i)) as [->|Hne].
  - apply (IH _ (withStyle (applyVars v (style e)) e)).
    by rewrite list_lookup_alter_eq, He.
  - apply IH. by rewrite list_lookup_alter_ne.
Qed.
End SetAll.

Lemma setAll_resting (l : list nat) (pg : list Element) (i : nat) (e : Element) :
  pg !! i = Some e → i ∈ l →
  ∃ e', setAll restingVars l pg !! i = Some e' ∧ style e' = resting.
Proof.
  revert pg e. induction l as [|el rest IH]; intros pg e He Hi;
    [by apply elem_of_nil in Hi|].
  rewrite setAll_cons. destruct (decide (el = i)) as [->|Hne].
  - destruct (decide (i ∈ rest)) as [Hin|Hout].
    + apply (IH _ (withStyle resting e)); [|done].
      by rewrite list_lookup_alter_eq, He.
    + rewrite setAll_out by done. rewrite list_lookup_alter_eq, He. simpl. eauto.
  - apply elem_of_cons in Hi as [->|Hi]; [done|].
    apply (IH _ e); [|done]. by rewrite list_lookup_alter_ne.
Qed.

(** The selector of line 362, member by member. *)
Lemma reducedMotionSelector_spec (pg : list Element) (e : Element) :
  matchesAny pg reducedMotionSelector e = marked e || gridItem e || wrapperDiv pg e.
Proof.
  unfold matchesAny, reducedMotionSelector, marked, gridItem, wrapperDiv.
  cbn [existsb matchesSelector matchesSimple].
  destruct (bool_decide ("animate-on-scroll" ∈ classes e)); [done|].
  destruct (bool_decide ("post-card" ∈ classes e)); [done|].
  destruct (bool_decide ("news-item" ∈ classes e)); [done|].
  cbn [orb]. rewrite orb_false_r.
  destruct (localName e =? "div")%string; [|done]. cbn [andb].
  destruct (parentOf pg e); done.
Qed.

(** C9 (as amended).  With the reduced-motion preference set, the timer
    callback registers no animation and leaves with opacity 1, offsets 0
    and scale 1, whatever the scroll position, every marked element, every
    grid item and every [div] that is a child of an "about" wrapper; every
    other element keeps its style.  So a column of the "about" section is
    set to rest when it is such a [div] (or is marked, or is a grid item),
    and only then. *)
Theorem reduced_motion_rests (s : State) :
  prefersReducedMotion s = true →
  let s' := exec animationTimer s in
  completion animationTimer s = Normal tt
  ∧ animations s' = animations s
  ∧ length (page s') = length (page s)
  ∧ ∀ i e, page s !! i = Some e →
      ∃ e', page s' !! i = Some e'
            ∧ localName e' = localName e ∧ elementId e' = elementId e
            ∧ classes e' = classes e ∧ parentIndex e' = parentIndex e
            ∧ (marked e || gridItem e || wrapperDiv (page s) e = true → style e' = resting)
            ∧ (marked e || gridItem e || wrapperDiv (page s) e = false → style e' = style e)
            ∧ (animatable (page s) i e = true →
                 style e' = resting
                 ∨ (aboutColumn (page s) i = true ∧ wrapperDiv (page s) e = false
                    ∧ style e' = style e)).
Proof.
  intros Hr. cbv zeta.
  unfold exec, completion, animationTimer, bind, gets. rewrite Hr. simpl.
  rewrite forEach_gsapSet. unfold scrollTriggerRefresh, modify. simpl.
  destruct s as [? ? ? ? ? ? ? pg]; simpl in *.
  split; [done|]. split; [done|]. split; [apply setAll_length|].
  intros i e He.
  destruct (setAll_shape restingVars (toArray reducedMotionSelector pg) pg i e He)
    as (e' & He' & Hn & Hi & Hc & Hp).
  exists e'.
  assert (Hset : marked e || gridItem e || wrapperDiv pg e = true → style e' = resting).
  { intros Ha. rewrite <- reducedMotionSelector_spec in Ha.
    destruct (setAll_resting (toArray reducedMotionSelector pg) pg i e He)
      as (e2 & He2 & Hst).
    { apply toArray_spec. eauto. }
    congruence. }
  assert (Hkeep : marked e || gridItem e || wrapperDiv pg e = false → style e' = style e).
  { intros Ha. rewrite <- reducedMotionSelector_spec in Ha. rewrite setAll_out in He'.
    - congruence.
    - rewrite toArray_spec. intros (e2 & He2 & Hm). congruence. }
  repeat split; try done.
  unfold animatable. intros Ha.
  destruct (marked e || gridItem e) eqn:Hmg; [left; by apply Hset|].
  destruct (wrapperDiv pg e) eqn:Hw; [left; by apply Hset|].
  right. rewrite orb_false_l in Ha. split; [exact Ha|]. split; [done|]. by apply Hkeep.
Qed.

Lemma reduced_motion_rests_witness :
  let s := withPrefersReducedMotion true (withScrollY 700 samplePage) in
  prefersReducedMotion s = true
  ∧ animations (exec animationTimer s) = []
  ∧ style <$> page (exec animationTimer s) !! 5%nat = Some resting
  ∧ style <$> page (exec animationTimer s) !! 3%nat = Some (mkStyle 0.5 0 0 1).
Proof.
  cbv zeta.
  destruct (reduced_motion_rests
              (withPrefersReducedMotion true (withScrollY 700 samplePage)) eq_refl)
    as (_ & Hanim & _ & Hall).
  split; [reflexivity|]. split; [exact Hanim|]. split.
  - destruct (Hall 5%nat _ eq_refl) as (e' & -> & _ & _ & _ & _ & Hrest & _).
    simpl. f_equal. apply Hrest. reflexivity.
  - destruct (Hall 3%nat _ eq_refl) as (e' & -> & _ & _ & _ & _ & _ & Hsame & _).
    simpl. f_equal. apply Hsame. reflexivity.
Defined.

(** C9 (as stated) fails: when the columns of the "about" section sit in a
    row inside the wrapper, the engine would find both by class, and the
    reduced-motion branch sets the row to rest and leaves the two columns
    at opacity 0. *)
Lemma reduced_motion_misses_columns :
  let s := withPrefersReducedMotion true (withPage nestedAbout samplePage) in
  let s' := exec animationTimer s in
  querySelector (Is (ByClass "about-content-wrapper")) (page s) = Some 0%nat
  ∧ querySelectorIn 0 (Is (ByClass "about-text-column")) (page s) = Some 2%nat
  ∧ querySelectorIn 0 (Is (ByClass "about-image-column")) (page s) = Some 3%nat
  ∧ aboutColumn (page s) 2 = true
  ∧ aboutColumn (page s) 3 = true
  ∧ style <$> page s' !! 1%nat = Some resting
  ∧ style <$> page s' !! 2%nat = Some (mkStyle 0 (-50) 0 1)
  ∧ style <$> page s' !! 3%nat = Some (mkStyle 0 0 0 0.9)
  ∧ mkStyle 0 (-50) 0 1 ≠ resting
  ∧ mkStyle 0 0 0 0.9 ≠ resting.
Proof. cbv zeta. repeat split; discriminate. Qed.

(** Without the preference the engine runs: on the sample page it registers
    the discrete reveal of the heading, the staggered reveal of the featured
    grid, and the timeline of the "about" section. *)
Lemma default_motion_registers :
  map (λ a, trigger (scrollTrigger a)) (animations (exec animationTimer samplePage))
  = [6; 4; 0]%nat.
Proof. reflexivity. Qed.


(** * Further properties *)

(** ** Header and scroll *)

Lemma scrollSample_classes (s : State) (h : Node) (y : Q) :
  header s = Some h →
  ∃ h', header (exec (scrollSample y) s) = Some h'
        ∧ ("scrolled" ∈ classList h' ↔ (50 < y)%Q)
        ∧ (∀ c, c ≠ "scrolled" → c ≠ "hidden" → c ∈ classList h' ↔ c ∈ classList h)
        ∧ attributes h' = attributes h ∧ innerHTML h' = innerHTML h.
Proof.
  intros Hh. unfold exec, scrollSample, scrollCallback, bind, modify.
  rewrite (handleHeaderScroll_present (withScrollY y s) h) by (destruct s; exact Hh).
  cbv zeta. set (s1 := withLastScrollY _ _).
  destruct (updateScrollProgress_frame s1) as (H1 & _ & _).
  unfold exec in H1. rewrite H1. subst s1. destruct s; simpl in *.
  eexists; split; [reflexivity|]. simpl. split; [|split; [|done]].
  - rewrite <- Qgtb_true.
    destruct (Qgtb y 50), (hidesHeader _ _ _); (split; [try done | try done; intros _]).
    + apply elem_of_union. right. apply class_added.
    + apply elem_of_difference. split; [apply class_added|].
      rewrite elem_of_singleton. discriminate.
    + intros [Hin|Hin]%elem_of_union.
      * by apply elem_of_singleton in Hin.
      * by apply class_removed in Hin.
    + intros [Hin _]%elem_of_difference. by apply class_removed in Hin.
  - intros c Hs Hhid.
    destruct (Qgtb y 50), (hidesHeader _ _ _);
      repeat (rewrite elem_of_union || rewrite elem_of_difference
              || rewrite elem_of_singleton); tauto.
Qed.

(** X1.  After a scroll sample [y] the header carries the class [scrolled]
    exactly when [y > 50], whatever the previous offset and the state of
    the drawer; the sample touches no class of the header other than
    [scrolled] and [hidden]. *)
Theorem header_scrolled_flag (s : State) (h : Node) (y : Q) :
  header s = Some h →
  ∃ h', header (exec (scrollSample y) s) = Some h'
        ∧ ("scrolled" ∈ classList h' ↔ (50 < y)%Q)
        ∧ (∀ c, c ≠ "scrolled" → c ≠ "hidden" → c ∈ classList h' ↔ c ∈ classList h).
Proof.
  intros Hh. destruct (scrollSample_classes s h y Hh) as (h' & H1 & H2 & H3 & _).
  exists h'. auto.
Qed.

Lemma header_scrolled_flag_witness :
  header samplePage = Some sampleHeader
  ∧ ∃ h', header (exec (scrollSample 51) samplePage) = Some h'
          ∧ ("scrolled" ∈ classList h' ↔ (50 < 51)%Q)
          ∧ (∀ c, c ≠ "scrolled" → c ≠ "hidden" →
               c ∈ classList h' ↔ c ∈ classList sampleHeader).
Proof.
  split; [reflexivity|].
  exact (header_scrolled_flag samplePage sampleHeader 51 eq_refl).
Defined.

(** X2.  On a page without the header the scroll callback returns from
    [handleHeaderScroll] before line 65: the last offset is not recorded,
    and only the progress bar is brought up to date. *)
Theorem scroll_without_header (s : State) (y : Q) :
  header s = None →
  exec (scrollSample y) s = exec updateScrollProgress (withScrollY y s)
  ∧ lastScrollY (exec (scrollSample y) s) = lastScrollY s
  ∧ header (exec (scrollSample y) s) = None.
Proof.
  intros Hh.
  assert (E : exec (scrollSample y) s = exec updateScrollProgress (withScrollY y s)).
  { unfold exec, scrollSample, scrollCallback, bind, modify.
    rewrite handleHeaderScroll_absent by (destruct s; exact Hh). reflexivity. }
  rewrite E. split; [reflexivity|].
  destruct (updateScrollProgress_frame (withScrollY y s)) as (H1 & H2 & _).
  rewrite H1, H2. destruct s; simpl in *. auto.
Qed.

Lemma scroll_without_header_witness :
  let s := withLastScrollY 40 (withHeader None samplePage) in
  header s = None
  ∧ lastScrollY (exec (scrollSample 900) s) = 40%Q
  ∧ header (exec (scrollSample 900) s) = None.
Proof.
  cbv zeta. split; [reflexivity|].
  exact (proj2 (scroll_without_header
                  (withLastScrollY 40 (withHeader None samplePage)) 900 eq_refl)).
Defined.

Lemma scrollSamples_open (ys : list Q) (s : State) (h : Node) :
  isNavOpen s = true → header s = Some h → "hidden" ∉ classList h →
  isNavOpen (scrollSamples ys s) = true
  ∧ ∃ h', header (scrollSamples ys s) = Some h' ∧ "hidden" ∉ classList h'.
Proof.
  revert s h. induction ys as [|y ys IH]; intros s h Hopen Hh Hvis; [eauto|].
  destruct (scrollSample_header s h y Hh) as (h1 & Hh1 & Hhid & _ & _ & _ & Hop1).
  simpl. apply (IH _ h1); [congruence | done |].
  rewrite Hhid. unfold hidesHeader. rewrite Hopen, andb_false_r. done.
Qed.

(** X3.  Opening the drawer shows the header, and while the drawer stays
    open no run of scroll samples hides it again. *)
Theorem open_drawer_keeps_header (s : State) (t h : Node) (ys : list Q) :
  isNavOpen s = false → navToggle s = Some t → header s = Some h →
  let s' := scrollSamples ys (exec toggleMobileNav s) in
  isNavOpen s' = true
  ∧ ∃ h', header s' = Some h' ∧ "hidden" ∉ classList h'.
Proof.
  intros Hopen Ht Hh. cbv zeta.
  destruct (opening_shows_header s t h Hopen Ht Hh) as [_ Hh1].
  apply (scrollSamples_open ys _ (withClassList (classList h ∖ {["hidden"]}) h));
    [|exact Hh1|].
  - destruct s as [bd hd nt pn ? ? ? ? ? ? ? ? ? ? ? op]; simpl in *; subst.
    run_drawer. destruct pn; reflexivity.
  - simpl. apply class_removed.
Qed.

Lemma open_drawer_keeps_header_witness :
  let s := withHeader (Some (withClassList {["hidden"]} sampleHeader)) samplePage in
  isNavOpen s = false ∧ navToggle s = Some sampleTrigger
  ∧ isNavOpen (scrollSamples [100; 400; 900]%Q (exec toggleMobileNav s)) = true
  ∧ ∃ h', header (scrollSamples [100; 400; 900]%Q (exec toggleMobileNav s)) = Some h'
          ∧ "hidden" ∉ classList h'.
Proof.
  cbv zeta. split; [reflexivity|]. split; [reflexivity|].
  exact (open_drawer_keeps_header
           (withHeader (Some (withClassList {["hidden"]} sampleHeader)) samplePage)
           sampleTrigger (withClassList {["hidden"]} sampleHeader) [100; 400; 900]%Q
           eq_refl eq_refl eq_refl).
Defined.


(** ** Drawer *)

(** X4.  [closeMobileNav] leaves the drawer closed in every state, and a
    second call changes nothing. *)
Theorem closeMobileNav_idempotent (s : State) :
  isNavOpen (exec closeMobileNav s) = false
  ∧ exec closeMobileNav (exec closeMobileNav s) = exec closeMobileNav s.
Proof.
  assert (Hclosed : isNavOpen (exec closeMobileNav s) = false).
  { destruct s as [bd hd nt pn ? ? ? ? ? ? ? ? ? ? ? op]; simpl.
    run_drawer. destruct op; [|reflexivity]. simpl. destruct nt, pn; reflexivity. }
  split; [exact Hclosed|].
  unfold exec at 1. by rewrite closeMobileNav_closed.
Qed.

(** X5.  A click inside the panel that is not on a link changes nothing; a
    click on a link while the drawer is open closes it: the flag is false,
    the page scrolls again ([no-scroll] is off [body]), and the trigger and
    the panel mirror the closed drawer. *)
Theorem panel_click (s : State) (t p : Node) :
  navToggle s = Some t → mobileNavPanel s = Some p → isNavOpen s = true →
  clickPanel false s = (Normal tt, s)
  ∧ completion (clickPanel true) s = Normal tt
  ∧ (let s' := exec (clickPanel true) s in
     isNavOpen s' = false
     ∧ ("no-scroll" ∉ body s')
     ∧ mirrored s'
     ∧ header s' = header s).
Proof.
  intros Ht Hp Hopen.
  destruct s as [bd hd nt pn ? ? ? ? ? ? ? ? ? ? ? op]; simpl in *; subst.
  unfold clickPanel, mirrored. run_drawer.
  repeat split; intros; simplify_eq; simpl in *; rewrite ?lookup_insert_eq; try done.
  all: match goal with
       | |- _ ∉ _ ∖ {[_]} => apply class_removed
       | H : _ ∈ _ ∖ {[_]} |- _ => by apply class_removed in H
       end.
Qed.

Lemma panel_click_witness :
  let s := exec toggleMobileNav samplePage in
  isNavOpen s = true
  ∧ isNavOpen (exec (clickPanel true) s) = false
  ∧ ("no-scroll" ∉ body (exec (clickPanel true) s))
  ∧ mirrored (exec (clickPanel true) s).
Proof.
  cbv zeta.
  destruct (panel_click (exec toggleMobileNav samplePage)
              (withAttributes (<["aria-expanded" := "true"]> (attributes sampleTrigger))
                 (withClassList ({["active"]} ∪ classList sampleTrigger) sampleTrigger))
              (withAttributes (<["aria-hidden" := "false"]> (attributes samplePanel))
                 (withClassList ({["active"]} ∪ classList samplePanel) samplePanel))
              eq_refl eq_refl eq_refl)
    as (_ & _ & Hflag & Hscroll & Hmirror & _).
  split; [reflexivity|]. auto.
Defined.

(** ** Theme *)

Lemma applyTheme_body (theme : string) (s : State) :
  hasWhitespace theme = false →
  body (exec (applyTheme theme) s) = themeClasses theme (body s).
Proof. intros Hw. exact (proj1 (applyTheme_outcome theme s Hw)). Qed.

(** X6.  Whether or not the preference can be stored, [applyTheme] leaves
    [body] with exactly one of the two theme classes, that of the theme
    applied, and with every other class as it was. *)
Theorem theme_classes_exclusive (theme : string) (s : State) :
  theme = "light" ∨ theme = "dark" →
  let b := body (exec (applyTheme theme) s) in
  ("light-mode" ∈ b ↔ theme = "light")
  ∧ ("dark-mode" ∈ b ↔ theme = "dark")
  ∧ ∀ c, c ≠ "light-mode" → c ≠ "dark-mode" → c ∈ b ↔ c ∈ body s.
Proof.
  intros Hth. cbv zeta.
  rewrite applyTheme_body by (destruct Hth as [-> | ->]; reflexivity).
  unfold themeClasses.
  destruct Hth as [-> | ->]; simpl; repeat split;
    repeat (rewrite elem_of_union || rewrite elem_of_difference
            || rewrite elem_of_singleton);
    try tauto; try (intros; discriminate); try intuition congruence.
  all: intros [Heq | [[_ Hne] Hne']]; [discriminate Heq | by (contradict Hne || contradict Hne')].
Qed.

Lemma theme_classes_exclusive_witness :
  ("dark" = "light" ∨ "dark" = "dark")
  ∧ "dark-mode"
    ∈ body (exec (applyTheme "dark")
              (withBody {["light-mode"; "no-scroll"]}
                 (withLocalStorage (mkStorage true false ∅) samplePage)))
  ∧ "light-mode"
    ∉ body (exec (applyTheme "dark")
              (withBody {["light-mode"; "no-scroll"]}
                 (withLocalStorage (mkStorage true false ∅) samplePage))).
Proof.
  destruct (theme_classes_exclusive "dark"
              (withBody {["light-mode"; "no-scroll"]}
                 (withLocalStorage (mkStorage true false ∅) samplePage))
              (or_intror eq_refl)) as (Hlight & Hdark & _).
  split; [by right|]. split.
  - apply Hdark. reflexivity.
  - intros Hin. apply Hlight in Hin. discriminate.
Defined.


Lemma updateThemeToggleIcon_run (s : State) :
  updateThemeToggleIcon s
  = (Normal tt,
     match themeToggle s with
     | Some t => withThemeToggle (Some (announce (currentTheme s) t)) s
     | None => s
     end).
Proof.
  unfold updateThemeToggleIcon, bind, gets, setInnerHTML, setAttribute, writeNode, announce.
  destruct s as [? ? ? ? tg]; cbn [themeToggle currentTheme deref store].
  destruct tg; reflexivity.
Qed.

Lemma applyTheme_success (theme : string) (s : State) :
  hasWhitespace theme = false →
  accessible (localStorage s) && writable (localStorage s) = true →
  ∃ s', applyTheme theme s = (Normal tt, s')
        ∧ currentTheme s' = theme
        ∧ localStorage s'
          = mkStorage true true (<["theme" := theme]> (slots (localStorage s)))
        ∧ themeToggle s' = announce theme <$> themeToggle s.
Proof.
  intros Hw Hst. rewrite applyTheme_prefix by done.
  unfold bind. rewrite updateThemeToggleIcon_run. unfold consoleLog, modify.
  eexists. split; [reflexivity|].
  destruct s as [? ? ? ? tg]; cbn [themeToggle currentTheme withCurrentTheme].
  destruct tg; repeat split.
Qed.

(** X7.  With working storage [toggleTheme] turns light into dark and
    anything else into light, so the theme it leaves is light or dark and
    is the one stored; from light or dark, two toggles come back to the
    theme they started from. *)
Theorem toggleTheme_flips (s : State) :
  accessible (localStorage s) && writable (localStorage s) = true →
  let s1 := exec toggleTheme s in
  let s2 := exec toggleTheme s1 in
  currentTheme s1 = (if (currentTheme s =? "light")%string then "dark" else "light")
  ∧ completion readStoredTheme s1 = Normal (currentTheme s1)
  ∧ (currentTheme s = "light" ∨ currentTheme s = "dark" →
       currentTheme s2 = currentTheme s
       ∧ completion readStoredTheme s2 = Normal (currentTheme s)).
Proof.
  intros Hst. cbv zeta.
  assert (Hstep : ∀ st,
    accessible (localStorage st) && writable (localStorage st) = true →
    let th := if (currentTheme st =? "light")%string then "dark" else "light" in
    currentTheme (exec toggleTheme st) = th
    ∧ completion readStoredTheme (exec toggleTheme st) = Normal th
    ∧ accessible (localStorage (exec toggleTheme st))
      && writable (localStorage (exec toggleTheme st)) = true).
  { intros st Hok. cbv zeta. unfold exec, toggleTheme, bind, gets. simpl.
    set (th := if (currentTheme st =? "light")%string then "dark" else "light").
    assert (Hw : hasWhitespace th = false) by (subst th; by destruct (_ =? _)%string).
    destruct (applyTheme_success th st Hw Hok) as (s' & -> & Hcur & Hsto & _). simpl.
    unfold completion, readStoredTheme, bind, getItem, ret. rewrite Hsto. simpl.
    rewrite lookup_insert_eq. split; [done|]. split; [|done].
    subst th. by destruct (_ =? _)%string. }
  destruct (Hstep s Hst) as (H1 & H2 & H3).
  destruct (Hstep (exec toggleTheme s) H3) as (H4 & H5 & _).
  split; [exact H1|]. split; [by rewrite H1|].
  intros Hth. rewrite H5, H4, H1. destruct Hth as [-> | ->]; simpl; done.
Qed.

Lemma toggleTheme_flips_witness :
  accessible (localStorage samplePage) && writable (localStorage samplePage) = true
  ∧ currentTheme (exec toggleTheme samplePage) = "dark"
  ∧ currentTheme (exec toggleTheme (exec toggleTheme samplePage)) = "light".
Proof.
  split; [reflexivity|].
  destruct (toggleTheme_flips samplePage eq_refl) as (H1 & _ & H2).
  split; [exact H1|]. exact (proj1 (H2 (or_introl eq_refl))).
Defined.

(** ** Round trip of the preference *)

(** X8.  With working storage, what [applyTheme] persists is what the read
    of the next load yields: dark after dark is applied, light after light
    is applied next. *)
Theorem theme_round_trip (s : State) :
  accessible (localStorage s) && writable (localStorage s) = true →
  let s1 := exec (applyTheme "dark") s in
  let s2 := exec (applyTheme "light") s1 in
  completion readStoredTheme s1 = Normal "dark"
  ∧ completion readStoredTheme s2 = Normal "light".
Proof.
  intros Hst. cbv zeta.
  destruct (applyTheme_success "dark" s eq_refl Hst) as (s1 & Hrun & _ & Hsto & _).
  split; [by apply applyTheme_then_read|].
  apply applyTheme_then_read; [done..|].
  unfold exec. rewrite Hrun. cbn [snd]. by rewrite Hsto.
Qed.

Lemma theme_round_trip_witness :
  accessible (localStorage samplePage) && writable (localStorage samplePage) = true
  ∧ completion readStoredTheme (exec (applyTheme "dark") samplePage) = Normal "dark"
  ∧ completion readStoredTheme
      (exec (applyTheme "light") (exec (applyTheme "dark") samplePage)) = Normal "light".
Proof.
  split; [reflexivity|]. exact (theme_round_trip samplePage eq_refl).
Defined.

(** ** Progress *)

Lemma numberMul_mono (a b : Double) :
  Dle (Finite 0) a → Dle a b → Dle (numberMul a 100) (numberMul b 100).
Proof.
  intros Ha Hab. destruct a as [p| |], b as [q| |]; cbn [Dle] in *; try done.
  - unfold numberMul. apply roundDouble_mono; lra.
  - unfold numberMul. by destruct (roundDouble (p * 100)).
Qed.

(** X9.  With a positive scrollable height the percentage never decreases
    when the offset grows from 0 on: the two roundings keep the order. *)
Theorem scroll_progress_monotone (s : State) (y1 y2 : Q) :
  (0 < scrollableHeight s)%Z → (0 <= y1)%Q → (y1 <= y2)%Q →
  Dle (scrolledPercentage (withScrollY y1 s)) (scrolledPercentage (withScrollY y2 s)).
Proof.
  intros Hh Hy1 Hy12.
  assert (Hform : ∀ y, scrolledPercentage (withScrollY y s)
                       = numberMul (numberDiv y (inject_Z (scrollableHeight s))) 100).
  { intros y. unfold scrolledPercentage.
    replace (scrollableHeight (withScrollY y s)) with (scrollableHeight s)
      by (by destruct s).
    rewrite (proj2 (Z.ltb_lt _ _) Hh). by destruct s. }
  rewrite !Hform. set (h := inject_Z (scrollableHeight s)).
  assert (Hq : (0 < h)%Q) by (subst h; by rewrite (Zlt_Qlt 0) in Hh).
  assert (Hinv : (0 < / h)%Q) by (by apply Qinv_lt_0_compat).
  assert (H0 : (0 <= y1 / h)%Q) by (unfold Qdiv; nra).
  assert (H12 : (y1 / h <= y2 / h)%Q) by (unfold Qdiv; nra).
  unfold numberDiv. apply numberMul_mono.
  - rewrite <- roundDouble_0. apply roundDouble_mono; [lra | done].
  - by apply roundDouble_mono.
Qed.

Lemma scroll_progress_monotone_witness :
  (0 < scrollableHeight samplePage)%Z
  ∧ Dle (scrolledPercentage (withScrollY 570 samplePage))
        (scrolledPercentage (withScrollY 571 samplePage)).
Proof.
  split; [reflexivity|].
  apply (scroll_progress_monotone samplePage 570 571); [reflexivity | discriminate..].
Defined.


(** ** Reveal animations *)

Lemma forEach_discrete (pg : list Element) (l : list nat) (s : State) :
  forEach l
    (λ el, if negb (bool_decide (is_Some (closest pg (ByClass "featured-grid") el)))
              && negb (bool_decide (is_Some (closest pg (ByClass "news-grid") el)))
           then defaultAnimation el else skip) s
  = (Normal tt,
     withAnimations (animations s ++ map discreteReveal (List.filter (outsideGrids pg) l)) s).
Proof.
  revert s. induction l as [|el rest IH]; intros s.
  - simpl. rewrite app_nil_r. by destruct s.
  - simpl. unfold bind. fold (outsideGrids pg el).
    destruct (outsideGrids pg el); simpl.
    + unfold defaultAnimation, gsapRegister, modify. rewrite IH.
      destruct s; simpl. by rewrite <- app_assoc.
    + unfold skip, ret. apply IH.
Qed.

Lemma staggerAnimation_run (gridSelector itemSelector : Selector) (s : State) :
  staggerAnimation gridSelector itemSelector s
  = (Normal tt,
     withAnimations (animations s ++ staggeredReveal (page s) gridSelector itemSelector) s).
Proof.
  unfold staggerAnimation, staggeredReveal, bind, gets.
  destruct (querySelector gridSelector (page s)); simpl.
  - reflexivity.
  - unfold skip, ret. rewrite app_nil_r. by destruct s.
Qed.

(** The registrations and the one style change of [initScrollAnimations]. *)
Lemma initScrollAnimations_run (s : State) :
  let pg := page s in
  initScrollAnimations s
  = (Normal tt,
     withAnimations
       (animations s
        ++ map discreteReveal
             (List.filter (outsideGrids pg) (toArray [Is (ByClass "animate-on-scroll")] pg))
        ++ staggeredReveal pg (Is (ByClass "featured-grid")) (Is (ByClass "post-card"))
        ++ staggeredReveal pg (Is (ByClass "news-grid")) (Is (ByClass "news-item"))
        ++ aboutReveal pg)
       (withPage
          match aboutImageColumn pg with
          | Some img =>
              alter (λ e, withStyle
                            (applyVars (mkVars (Some 1) None None (Some 1))%Q (style e)) e)
                img pg
          | None => pg
          end s)).
Proof.
  cbv zeta. unfold initScrollAnimations, bind, gets. rewrite forEach_discrete.
  unfold callStaggerAnimation.
  change (resolve [InitScrollAnimationsScope; ClosureScope; GlobalScope] "staggerAnimation")
    with (Some InitScrollAnimationsScope).
  cbv iota. rewrite !staggerAnimation_run. destruct s as [? ? ? ? ? ? ? pg]; simpl.
  unfold aboutReveal, aboutImageColumn.
  destruct (querySelector (Is (ByClass "about-content-wrapper")) pg) as [w|]; simpl.
  - destruct (querySelectorIn w (Is (ByClass "about-image-column")) pg);
      unfold bind, gsapSet, gsapRegister, modify, skip, ret; simpl;
      rewrite <- ?app_assoc; reflexivity.
  - unfold skip, ret. rewrite app_nil_r, <- ?app_assoc. reflexivity.
Qed.


(** What [closest] finds, in terms of the chain of ancestors. *)
Lemma closestWithin_None (pg : list Element) (sel : Simple) (fuel i : nat) :
  wellFormed pg → (i < fuel)%nat →
  closestWithin fuel pg sel i = None
  ↔ ∀ a e, onChain pg i a → pg !! a = Some e → matchesSimple sel e = false.
Proof.
  intros Hwf. revert fuel. induction (lt_wf i) as [i _ IH]. intros fuel Hlt.
  destruct fuel as [|fuel]; [lia|]. simpl.
  destruct (pg !! i) as [e|] eqn:He.
  - destruct (matchesSimple sel e) eqn:Hm.
    + split; [done|]. intros Hall.
      rewrite (Hall i e (chain_self pg i e He) He) in Hm. done.
    + destruct (parentIndex e) as [p|] eqn:Hp.
      * assert (Hpi : (p < i)%nat) by eauto.
        rewrite (IH p Hpi fuel) by lia. split.
        -- intros Hall a e' Hch Ha. inversion Hch; subst; simplify_eq; eauto.
        -- intros Hall a e' Hch Ha. eapply Hall; [|done]. by eapply chain_up.
      * split; [|done]. intros _ a e' Hch Ha.
        inversion Hch; subst; simplify_eq. done.
  - split; [|done]. intros _ a e' Hch Ha. inversion Hch; simplify_eq.
Qed.

Lemma outsideGrids_spec (pg : list Element) (el : nat) (e : Element) :
  wellFormed pg → pg !! el = Some e →
  outsideGrids pg el = true
  ↔ ∀ a ea, onChain pg el a → pg !! a = Some ea →
      ("featured-grid" ∉ classes ea) ∧ "news-grid" ∉ classes ea.
Proof.
  intros Hwf He. unfold outsideGrids, closest.
  assert (Hlt : (el < length pg)%nat) by (by apply lookup_lt_Some in He).
  rewrite andb_true_iff, !negb_true_iff, !bool_decide_eq_false.
  rewrite <- !eq_None_not_Some, !closestWithin_None by done.
  simpl. setoid_rewrite bool_decide_eq_false. split.
  - intros [H1 H2] a ea Hch Ha. eauto.
  - intros Hall. split; intros a ea Hch Ha; by destruct (Hall a ea Hch Ha).
Qed.

Lemma not_discrete_staggered (pg : list Element) (g i : Selector) (el : nat) :
  discreteReveal el ∉ staggeredReveal pg g i.
Proof.
  unfold staggeredReveal. destruct (querySelector g pg); [|apply not_elem_of_nil].
  intros Hin%list_elem_of_singleton. discriminate.
Qed.

Lemma not_discrete_about (pg : list Element) (el : nat) :
  discreteReveal el ∉ aboutReveal pg.
Proof.
  unfold aboutReveal.
  destruct (querySelector _ pg); [|apply not_elem_of_nil].
  intros Hin%list_elem_of_singleton. discriminate.
Qed.

Lemma discreteReveal_inj (a b : nat) : discreteReveal a = discreteReveal b → a = b.
Proof. intros H. by injection H. Qed.

(** X10.  [initScrollAnimations] gives an element its own reveal exactly
    when the element is marked [animate-on-scroll] and neither it nor any
    of its ancestors is a [featured-grid] or a [news-grid]; the animations
    registered before stay in place. *)
Theorem discrete_reveal_policy (s : State) :
  wellFormed (page s) →
  ∃ new : list Animation, animations (exec initScrollAnimations s) = (animations s ++ new)%list
    ∧ ∀ el e, page s !! el = Some e →
        discreteReveal el ∈ new
        ↔ "animate-on-scroll" ∈ classes e
          ∧ ∀ a ea, onChain (page s) el a → page s !! a = Some ea →
              ("featured-grid" ∉ classes ea) ∧ "news-grid" ∉ classes ea.
Proof.
  intros Hwf. unfold exec. rewrite initScrollAnimations_run. cbv zeta.
  eexists. split; [by destruct s|].
  intros el e He.
  rewrite !elem_of_app, list_elem_of_fmap.
  rewrite <- (outsideGrids_spec (page s) el e Hwf He). split.
  - intros [(x & Heq & Hin) | [Hin | [Hin | Hin]]].
    + apply discreteReveal_inj in Heq as <-.
      apply list_elem_of_In, filter_In in Hin as [Hin Hout].
      apply list_elem_of_In, toArray_spec in Hin as (e' & He' & Hm).
      simplify_eq. split; [|done].
      simpl in Hm. rewrite orb_false_r in Hm. by apply bool_decide_eq_true in Hm.
    + by apply not_discrete_staggered in Hin.
    + by apply not_discrete_staggered in Hin.
    + by apply not_discrete_about in Hin.
  - intros [Hmark Hout]. left. exists el. split; [done|].
    apply list_elem_of_In, filter_In. split; [|done].
    apply list_elem_of_In, toArray_spec. exists e. split; [done|].
    simpl. rewrite orb_false_r. by apply bool_decide_eq_true.
Qed.

Lemma discrete_reveal_policy_witness :
  wellFormed (page samplePage)
  ∧ ∃ new : list Animation, animations (exec initScrollAnimations samplePage) = ([] ++ new)%list
           ∧ discreteReveal 6 ∈ new ∧ discreteReveal 5 ∉ new.
Proof.
  split; [exact sampleElements_wellFormed|].
  destruct (discrete_reveal_policy samplePage sampleElements_wellFormed)
    as (new & Hnew & Hpol).
  exists new. split; [exact Hnew|].
  assert (Hrun : animations (exec initScrollAnimations samplePage) = new) by exact Hnew.
  subst new. split; vm_compute; [repeat constructor|].
  intros Hin. repeat (apply elem_of_cons in Hin as [Hin|Hin]; [discriminate|]).
  by apply elem_of_nil in Hin.
Defined.


Lemma filter_seq_first (f : nat → bool) (a n x : nat) (rest : list nat) :
  List.filter f (seq a n) = x :: rest →
  f x = true ∧ ∀ i, (a <= i < x)%nat → f i = false.
Proof.
  revert a. induction n as [|n IH]; intros a; simpl; [done|].
  destruct (f a) eqn:Hfa.
  - intros [= <- _]. split; [done|]. lia.
  - intros Hrest. destruct (IH _ Hrest) as [Hx Hbefore]. split; [done|].
    intros i Hi. destruct (decide (i = a)) as [->|]; [done|]. apply Hbefore. lia.
Qed.

(** X11.  [staggerAnimation] does nothing when no element matches the grid
    selector.  Otherwise it registers one animation, triggered by the first
    such element, whose targets are all the elements of the document that
    match the item selector, inside the grid or not, with 0.15 between
    items. *)
Theorem stagger_targets (gridSelector itemSelector : Selector) (s : State) :
  match querySelector gridSelector (page s) with
  | None => staggerAnimation gridSelector itemSelector s = (Normal tt, s)
  | Some grid =>
      (∃ g, page s !! grid = Some g ∧ matchesSelector (page s) gridSelector g = true)
      ∧ (∀ i g, (i < grid)%nat → page s !! i = Some g →
           matchesSelector (page s) gridSelector g = false)
      ∧ ∃ m, animations (exec (staggerAnimation gridSelector itemSelector) s)
             = (animations s
                ++ [mkAnimation (mkScrollTrigger grid "top 85%" "play none none reverse")
                      [m]])%list
             ∧ stagger m = Some 0.15%Q
             ∧ ∀ j, j ∈ targets m
                 ↔ ∃ e, page s !! j = Some e
                        ∧ matchesSelector (page s) itemSelector e = true
  end.
Proof.
  pose proof (staggerAnimation_run gridSelector itemSelector s) as Hrun.
  unfold staggeredReveal in Hrun. unfold querySelector in *.
  destruct (toArray [gridSelector] (page s)) as [|grid rest] eqn:Hgrids; simpl in *.
  - rewrite Hrun, app_nil_r. by destruct s.
  - split; [|split].
    + assert (Hin : grid ∈ toArray [gridSelector] (page s)) by (rewrite Hgrids; left).
      apply toArray_spec in Hin as (g & Hg & Hm). exists g. split; [done|].
      simpl in Hm. by rewrite orb_false_r in Hm.
    + intros i g Hlt Hi. destruct (matchesSelector (page s) gridSelector g) eqn:Hm; [|done].
      unfold toArray in Hgrids.
      destruct (filter_seq_first _ _ _ _ _ Hgrids) as [_ Hbefore].
      specialize (Hbefore i ltac:(lia)). unfold selected in Hbefore.
      rewrite Hi in Hbefore. simpl in Hbefore. by rewrite Hm in Hbefore.
    + eexists. unfold exec. rewrite Hrun. split; [by destruct s|]. split; [done|].
      intros j. simpl. rewrite toArray_spec. simpl.
      by setoid_rewrite orb_false_r.
Qed.


(** ** The news loader, suspended and resumed *)

Lemma fetchAndRender_segments (s : State) :
  fetchAndRender s
  = bind sendRequest
      (λ request,
         bind (settled request)
           (λ response,
              bind (if negb (responseOk (fst response))
                    then throw (HttpError (fst response)) else skip)
                (λ _, bind (responseJson (snd response)) renderData))) s.
Proof.
  unfold fetchAndRender, bind, fetch, sendRequest, settled. simpl.
  destruct s as [? ? ? ? ? ? ? ? ? ? ? ? ? net ? ? ? req]; simpl.
  destruct (net req); reflexivity.
Qed.

(** Run without interruption, the three segments of
    [displayFinanceNews] (to the first [await], from the response to the
    second, from the parsed body to the end) do what the function does in
    one piece. *)
Theorem displayFinanceNews_segments (s : State) :
  displayFinanceNewsSegments s = displayFinanceNews s.
Proof.
  unfold displayFinanceNews, tryCatch, bind at 1 2.
  unfold displayFinanceNewsSegments, displayFinanceNewsBegin,
    displayFinanceNewsResponse, displayFinanceNewsBody, tryCatch, newsCatch.
  unfold bind, gets, ret, skip, sendRequest, settled, setGridHTML, writeGrid.
  destruct s as [? ? ? ? ? ? ng ? ? ? ? ? ? net ? ? ? req]. cbn [newsGrid].
  destruct ng as [g|]; [|reflexivity]. cbn -[fetchAndRender renderData].
  rewrite fetchAndRender_segments.
  unfold bind, sendRequest, settled. cbn -[renderData].
  destruct (net req) as [|status body]; cbn -[renderData]; [reflexivity|].
  destruct (responseOk status); cbn -[renderData]; [|reflexivity].
  destruct body as [| |items]; cbn -[renderData]; try reflexivity.
  all: destruct (renderData _ _) as [[|e] s']; reflexivity.
Qed.


(** ** What each callback leaves alone *)

Lemma updateScrollProgress_same (s : State) :
  sameNews s (exec updateScrollProgress s) ∧ sameDrawer s (exec updateScrollProgress s).
Proof.
  unfold exec, sameNews, sameDrawer.
  destruct (scrollProgressIndicator s) as [bar|] eqn:Hb.
  - rewrite (updateScrollProgress_run s bar Hb). cbn [snd].
    destruct (scrolledPercentage s) as [w| |]; [destruct (Qle_bool 0 w)|..]; by destruct s.
  - by rewrite updateScrollProgress_absent.
Qed.

Lemma scrollCallback_frame (s : State) :
  sameNews s (exec scrollCallback s) ∧ sameDrawer s (exec scrollCallback s).
Proof.
  assert (Hrun : ∃ s1, exec scrollCallback s = exec updateScrollProgress s1
                       ∧ sameNews s s1 ∧ sameDrawer s s1).
  { unfold exec, scrollCallback, bind. destruct (header s) as [h|] eqn:Hh.
    - rewrite (handleHeaderScroll_present s h Hh). cbv zeta.
      eexists. split; [reflexivity|]. unfold sameNews, sameDrawer. by destruct s.
    - rewrite (handleHeaderScroll_absent s Hh). exists s. by unfold sameNews, sameDrawer. }
  destruct Hrun as (s1 & -> & (N1 & N2 & N3) & (D1 & D2 & D3 & D4)).
  destruct (updateScrollProgress_same s1) as [(M1 & M2 & M3) (E1 & E2 & E3 & E4)].
  unfold sameNews, sameDrawer.
  rewrite M1, M2, M3, E1, E2, E3, E4. done.
Qed.

Lemma toggleMobileNav_news (s : State) : sameNews s (exec toggleMobileNav s).
Proof.
  unfold sameNews. destruct s as [bd hd nt pn ? ? ? ? ? ? ? ? ? ? ? op].
  run_drawer. destruct nt, pn, hd, op; simpl; done.
Qed.

Lemma clickNavToggle_news (s : State) : sameNews s (exec clickNavToggle s).
Proof.
  unfold exec, clickNavToggle, bind, gets.
  destruct (navToggle s); [apply toggleMobileNav_news | done].
Qed.

Lemma clickPanel_news (b : bool) (s : State) : sameNews s (exec (clickPanel b) s).
Proof.
  unfold exec, clickPanel, closeMobileNav, bind, gets.
  destruct (mobileNavPanel s); [|done]. destruct b; [|done].
  destruct (isNavOpen s); [apply toggleMobileNav_news | done].
Qed.

Lemma applyTheme_frame (theme : string) (s : State) :
  theme = "light" ∨ theme = "dark" →
  sameNews s (exec (applyTheme theme) s) ∧ sameDrawer s (exec (applyTheme theme) s).
Proof.
  intros Hth. unfold sameNews, sameDrawer.
  destruct s as [bd ? ? ? tg ? ? ? ? ? ? ? [acc wr sl]].
  unfold exec, applyTheme, bind, bodyClassListRemove, bodyClassListAdd, bind, modify,
    setItem, updateThemeToggleIcon, gets.
  destruct Hth as [-> | ->]; simpl; destruct acc, wr; simpl; try destruct tg; simpl.
  all: repeat split; try done.
  all: repeat (rewrite elem_of_union || rewrite elem_of_difference
               || rewrite elem_of_singleton); try tauto.
  all: first [ intros [Heq | [[? _] _]]; [discriminate Heq | done]
             | intros Hin; right; repeat split; [done | discriminate..] ].
Qed.

Lemma clickThemeToggle_frame (s : State) :
  sameNews s (exec clickThemeToggle s) ∧ sameDrawer s (exec clickThemeToggle s).
Proof.
  unfold exec, clickThemeToggle, toggleTheme, bind, gets.
  destruct (themeToggle s); [|unfold sameNews, sameDrawer; done].
  apply applyTheme_frame. destruct (_ =? _)%string; auto.
Qed.

Lemma animationTimer_frame (s : State) :
  sameNews s (exec animationTimer s) ∧ sameDrawer s (exec animationTimer s).
Proof.
  unfold sameNews, sameDrawer, exec, animationTimer, bind, gets.
  destruct (prefersReducedMotion s) eqn:Hr; simpl.
  - rewrite forEach_gsapSet. unfold scrollTriggerRefresh, modify. by destruct s.
  - rewrite initScrollAnimations_run. cbv zeta.
    unfold scrollTriggerRefresh, modify. by destruct s.
Qed.

Lemma displayFinanceNewsResponse_drawer (request : nat) (s : State) :
  sameDrawer s (exec (displayFinanceNewsResponse request) s).
Proof.
  unfold sameDrawer, exec, displayFinanceNewsResponse, tryCatch, newsCatch, bind, settled,
    consoleError, setGridHTML, writeGrid, modify, ret.
  destruct s as [? ? ? ? ? ? ng ? ? ? ? ? ? net]; simpl.
  destruct (net request) as [|status body]; simpl.
  - destruct ng; done.
  - destruct (responseOk status); simpl; [done|]. destruct ng; done.
Qed.

Lemma renderData_drawer (newsData : Body) (s : State) :
  sameDrawer s (exec (renderData newsData) s).
Proof.
  unfold sameDrawer, exec, renderData, bind, setGridHTML, writeGrid.
  destruct (newsGrid s) as [g|] eqn:Hg; [|done].
  assert (Hmsg : ∀ st, sameDrawer s st → newsGrid st = Some (mkGrid "" []) →
    sameDrawer s (snd (writeGrid (λ _, mkGrid noItemsHTML []) st))).
  { intros st Hst Hgrid. unfold writeGrid. rewrite Hgrid. by destruct st. }
  destruct newsData as [| |[items|]]; try (apply Hmsg; by destruct s).
  destruct (0 <? length items)%nat; [|apply Hmsg; by destruct s].
  erewrite news_cards_rendered by (destruct s; reflexivity).
  by destruct s.
Qed.

Lemma displayFinanceNewsBody_drawer (body : Body) (s : State) :
  sameDrawer s (exec (displayFinanceNewsBody body) s).
Proof.
  unfold exec, displayFinanceNewsBody, tryCatch, bind, responseJson.
  assert (Hcatch : ∀ e st, sameDrawer s st → sameDrawer s (snd (newsCatch e st))).
  { intros e st Hst. unfold newsCatch, bind, consoleError, setGridHTML, writeGrid, modify.
    simpl. destruct st as [? ? ? ? ? ? ng]; simpl in *. by destruct ng. }
  assert (Hrender : ∀ d, sameDrawer s
            (snd (let (c, s') := renderData d s in
                  match c with Normal a => (Normal a, s') | Throw e => newsCatch e s' end))).
  { intros d. pose proof (renderData_drawer d s) as Hd. unfold exec in Hd.
    destruct (renderData d s) as [[|e] s']; simpl in *; [done|]. by apply Hcatch. }
  destruct body; simpl; [by apply Hcatch; unfold sameDrawer | apply Hrender..].
Qed.


(** ** The page under events *)

Lemma run_app (es1 es2 : list PageEvent) (sh : Shell) :
  run (es1 ++ es2) sh = run es2 (run es1 sh).
Proof. apply foldl_app. Qed.

Lemma closure_liftP {A} (m : JS A) (sh : Shell) :
  closure (snd (liftP m sh)) = exec m (closure sh).
Proof. unfold liftP, exec. by destruct (m (closure sh)). Qed.

Lemma step_closure (sh : Shell) (e : PageEvent) :
  closure (step sh e)
  = match e with
    | WindowScroll y => withScrollY y (closure sh)
    | ScrollTimeoutFires =>
        if scrollTimeout sh then exec scrollCallback (closure sh) else closure sh
    | NavToggleClicked =>
        if listening sh then exec clickNavToggle (closure sh) else closure sh
    | PanelClicked b =>
        if listening sh then exec (clickPanel b) (closure sh) else closure sh
    | ThemeToggleClicked =>
        if listening sh then exec clickThemeToggle (closure sh) else closure sh
    | AnimationTimeoutFires =>
        if animationTimeout sh then exec animationTimer (closure sh) else closure sh
    | NewsResponseArrives =>
        match newsTask sh with
        | AwaitingResponse request => exec (displayFinanceNewsResponse request) (closure sh)
        | _ => closure sh
        end
    | NewsBodyParsed =>
        match newsTask sh with
        | AwaitingBody body => exec (displayFinanceNewsBody body) (closure sh)
        | _ => closure sh
        end
    end.
Proof.
  unfold step, dispatch, whenListening, bindP, getsP, modifyP, skipP, retP.
  destruct e; cbn beta iota.
  - unfold liftP, modify. cbn. by destruct (listening sh).
  - destruct (scrollTimeout sh); [|done].
    apply (closure_liftP scrollCallback (setScrollTimeout false sh)).
  - destruct (listening sh); [apply closure_liftP | done].
  - destruct (listening sh); [apply closure_liftP | done].
  - destruct (listening sh); [apply closure_liftP | done].
  - destruct (animationTimeout sh); [|done].
    apply (closure_liftP animationTimer (setAnimationTimeout false sh)).
  - destruct (newsTask sh) as [|request|]; try done.
    pose proof (closure_liftP (displayFinanceNewsResponse request) sh) as Hc.
    destruct (liftP (displayFinanceNewsResponse request) sh) as [[] sh']; exact Hc.
  - destruct (newsTask sh) as [| |body]; try done.
    apply (closure_liftP (displayFinanceNewsBody body) (setNewsTask NewsIdle sh)).
Qed.

Lemma sameDrawer_invariant (s s' : State) :
  sameDrawer s s' → drawerInvariant s → drawerInvariant s'.
Proof.
  intros (Ho & Ht & Hp & Hb) [(Mt & Mp & Mb) Hnone].
  unfold drawerInvariant, mirrored. rewrite Ho, Ht, Hp, Hb. done.
Qed.

Lemma toggleMobileNav_invariant (s : State) (t : Node) :
  navToggle s = Some t → drawerInvariant (exec toggleMobileNav s).
Proof.
  intros Ht. split; [by eapply toggle_establishes_mirror|].
  intros Hnone. destruct (toggleMobileNav_trigger s t Ht) as [? Hsome]. congruence.
Qed.

Lemma drawer_clicks_invariant (s : State) :
  drawerInvariant s →
  drawerInvariant (exec clickNavToggle s)
  ∧ ∀ b, drawerInvariant (exec (clickPanel b) s).
Proof.
  intros Hinv. split.
  - unfold exec, clickNavToggle, bind, gets.
    destruct (navToggle s) as [t|] eqn:Ht; [|done]. by eapply toggleMobileNav_invariant.
  - intros b. unfold exec, clickPanel, closeMobileNav, bind, gets.
    destruct (mobileNavPanel s); [|done]. destruct b; [|done].
    destruct (isNavOpen s) eqn:Hopen; [|done].
    destruct (navToggle s) as [t|] eqn:Ht; [by eapply toggleMobileNav_invariant|].
    destruct Hinv as [_ Hnone]. rewrite (Hnone Ht) in Hopen. done.
Qed.

Lemma step_invariant (sh : Shell) (e : PageEvent) :
  drawerInvariant (closure sh) → drawerInvariant (closure (step sh e)).
Proof.
  intros Hinv. rewrite step_closure.
  destruct e.
  - revert Hinv. apply sameDrawer_invariant. unfold sameDrawer. by destruct (closure sh).
  - destruct (scrollTimeout sh); [|done].
    revert Hinv. apply sameDrawer_invariant, scrollCallback_frame.
  - destruct (listening sh); [|done]. by apply drawer_clicks_invariant.
  - destruct (listening sh); [|done]. by apply drawer_clicks_invariant.
  - destruct (listening sh); [|done].
    revert Hinv. apply sameDrawer_invariant, clickThemeToggle_frame.
  - destruct (animationTimeout sh); [|done].
    revert Hinv. apply sameDrawer_invariant, animationTimer_frame.
  - destruct (newsTask sh); try done.
    revert Hinv. apply sameDrawer_invariant, displayFinanceNewsResponse_drawer.
  - destruct (newsTask sh); try done.
    revert Hinv. apply sameDrawer_invariant, displayFinanceNewsBody_drawer.
Qed.

(** X12.  Once the drawer's classes and ARIA attributes agree with the open
    flag (and the drawer is closed if the page has no trigger), they agree
    after every sequence of events: scrolls, timers, clicks on the trigger,
    the panel or the theme control, and the arrival of the news.  Whatever
    the markup was, they agree from the first click on the trigger on. *)
Theorem drawer_mirrors_flag (es : list PageEvent) (sh : Shell) :
  (drawerInvariant (closure sh) → drawerInvariant (closure (run es sh)))
  ∧ (listening sh = true → is_Some (navToggle (closure sh)) →
       drawerInvariant (closure (run (NavToggleClicked :: es) sh))).
Proof.
  assert (Hkeep : ∀ l sh0,
            drawerInvariant (closure sh0) → drawerInvariant (closure (run l sh0))).
  { induction l as [|e l IH]; intros sh0 Hinv; [done|].
    apply IH, step_invariant, Hinv. }
  split; [apply Hkeep|].
  intros Hon [t Ht].
  change (run (NavToggleClicked :: es) sh) with (run es (step sh NavToggleClicked)).
  apply Hkeep. rewrite step_closure, Hon.
  unfold exec, clickNavToggle, bind, gets. rewrite Ht.
  by apply (toggleMobileNav_invariant (closure sh) t).
Qed.

Lemma sampleShell_invariant : drawerInvariant (closure sampleShell).
Proof.
  split; [|discriminate].
  unfold mirrored, sampleShell, samplePage; simpl.
  repeat split; intros; simplify_eq; try done.
  all: unfold sampleTrigger, samplePanel in *; simpl in *.
  all: match goal with
       | H : _ ∈ ∅ |- _ => by apply not_elem_of_empty in H
       | H : _ ∈ {[_]} |- _ => by apply elem_of_singleton in H
       end.
Qed.

Lemma drawer_mirrors_flag_witness :
  let es := [NavToggleClicked; WindowScroll 300; ScrollTimeoutFires; ThemeToggleClicked;
             PanelClicked true; NavToggleClicked] in
  let sh := setListening true sampleShell in
  let bare := setClosure (withNavToggle (Some (mkNode ∅ ∅ "" 40)) (closure sh)) sh in
  drawerInvariant (closure sh)
  ∧ drawerInvariant (closure (run es sh))
  ∧ listening bare = true
  ∧ is_Some (navToggle (closure bare))
  ∧ drawerInvariant (closure (run (NavToggleClicked :: es) bare)).
Proof.
  cbv zeta. split; [exact sampleShell_invariant|]. split; [|split; [reflexivity|split]].
  - exact (proj1 (drawer_mirrors_flag _ (setListening true sampleShell))
             sampleShell_invariant).
  - by eexists.
  - apply (proj2 (drawer_mirrors_flag _ _)); [reflexivity | by eexists].
Defined.

(** X13.  The scroll listener coalesces: any burst of scroll events followed
    by one firing of its timer runs the scroll callback once, on the last
    offset of the burst; the timer is then spent, and a further firing
    changes nothing. *)
Theorem scroll_debounce (ys : list Q) (y : Q) (sh : Shell) :
  listening sh = true →
  let sh' := run (map WindowScroll (ys ++ [y]) ++ [ScrollTimeoutFires]) sh in
  closure sh' = exec (scrollSample y) (closure sh)
  ∧ scrollTimeout sh' = false
  ∧ step sh' ScrollTimeoutFires = sh'.
Proof.
  intros Hon. cbv zeta.
  assert (Hburst : ∀ l sh0, listening sh0 = true →
    run (map WindowScroll (l ++ [y])) sh0
    = setScrollTimeout true (setClosure (withScrollY y (closure sh0)) sh0)).
  { induction l as [|y0 l IH]; intros sh0 Hon0.
    - unfold run, step, dispatch, bindP, liftP, getsP, modifyP, modify. simpl.
      rewrite Hon0. by destruct sh0.
    - change (run (map WindowScroll ((y0 :: l) ++ [y])) sh0)
        with (run (map WindowScroll (l ++ [y])) (step sh0 (WindowScroll y0))).
      rewrite IH.
      + unfold step, dispatch, bindP, liftP, getsP, modifyP, modify. simpl.
        rewrite Hon0. destruct sh0 as [[] ? ? ? ? ? ? ? ? ? ? ?]; reflexivity.
      + unfold step, dispatch, bindP, liftP, getsP, modifyP, modify. simpl.
        rewrite Hon0. by destruct sh0. }
  rewrite run_app, Hburst by done.
  unfold run, step, dispatch, bindP, liftP, getsP, modifyP, skipP, retP. simpl.
  unfold exec, scrollSample, bind, modify.
  destruct (scrollCallback (withScrollY y (closure sh))) as [[] s']; simpl; done.
Qed.

Lemma scroll_debounce_witness :
  let sh := setListening true sampleShell in
  listening sh = true
  ∧ closure (run [WindowScroll 100; WindowScroll 250; WindowScroll 400; ScrollTimeoutFires] sh)
    = exec (scrollSample 400) (closure sh).
Proof.
  cbv zeta. split; [reflexivity|].
  exact (proj1 (scroll_debounce [100; 250]%Q 400 (setListening true sampleShell) eq_refl)).
Defined.


(** ** The news panel under interleaving *)

Lemma displayFinanceNewsBegin_run (s : State) (g : Grid) :
  newsGrid s = Some g →
  displayFinanceNewsBegin s
  = (Normal (Some (requests s)),
     withRequests (S (requests s)) (withNewsGrid (Some (mkGrid loadingHTML [])) s)).
Proof.
  intros Hg. unfold displayFinanceNewsBegin, bind, gets, setGridHTML, writeGrid,
    sendRequest, ret.
  rewrite Hg. simpl. destruct s; simpl in *. by rewrite Hg.
Qed.

Lemma displayFinanceNewsResponse_run (request : nat) (s : State) (g : Grid) :
  newsGrid s = Some g →
  ∃ s', network s' = network s
    ∧ match network s request with
      | Rejected =>
          displayFinanceNewsResponse request s = (Normal None, s')
          ∧ newsGrid s' = Some (mkGrid errorHTML [])
      | Response status body =>
          if responseOk status
          then displayFinanceNewsResponse request s = (Normal (Some body), s')
               ∧ newsGrid s' = Some g
          else displayFinanceNewsResponse request s = (Normal None, s')
               ∧ newsGrid s' = Some (mkGrid errorHTML [])
      end.
Proof.
  intros Hg.
  unfold displayFinanceNewsResponse, tryCatch, newsCatch, bind, settled, consoleError,
    setGridHTML, writeGrid, modify, ret.
  destruct s as [? ? ? ? ? ? ng ? ? ? ? ? ? net]; simpl in *; subst.
  destruct (net request) as [|status body]; simpl;
    [|destruct (responseOk status); simpl].
  all: eexists; split; [|split; [reflexivity|]]; reflexivity.
Qed.

Lemma displayFinanceNewsBody_run (body : Body) (s : State) (g : Grid) :
  newsGrid s = Some g →
  ∃ s', displayFinanceNewsBody body s = (Normal tt, s')
        ∧ network s' = network s
        ∧ newsGrid s' = Some (mkGrid (newsMessage body) []).
Proof.
  intros Hg.
  unfold displayFinanceNewsBody, tryCatch, newsCatch, renderData, responseJson, bind,
    consoleError, setGridHTML, writeGrid, modify, ret, throw.
  destruct s as [? ? ? ? ? ? ng ? ? ? ? ? ? net]; simpl in *; subst.
  destruct body as [| |[items|]]; simpl; eauto.
  destruct items as [|item rest]; [simpl; eauto|].
  cbn -[forEach take]. erewrite news_cards_rendered by reflexivity. simpl. eauto.
Qed.

Lemma displayFinanceNews_end (s : State) (g : Grid) :
  newsGrid s = Some g →
  newsGrid (exec displayFinanceNews s)
  = Some (mkGrid (newsEnd (network s (requests s))) []).
Proof.
  intros Hg. unfold exec. rewrite <- displayFinanceNews_segments.
  unfold displayFinanceNewsSegments, bind.
  rewrite (displayFinanceNewsBegin_run s g Hg).
  set (s1 := withRequests _ _).
  destruct (displayFinanceNewsResponse_run (requests s) s1 (mkGrid loadingHTML []))
    as (s2 & Hnet & Hresp); [by destruct s|].
  replace (network s1) with (network s) in Hresp by (by destruct s).
  unfold newsEnd. destruct (network s (requests s)) as [|status body].
  - destruct Hresp as [-> Hgrid]. exact Hgrid.
  - destruct (responseOk status).
    + destruct Hresp as [-> Hgrid].
      destruct (displayFinanceNewsBody_run body s2 _ Hgrid) as (s3 & -> & _ & Hend).
      exact Hend.
    + destruct Hresp as [-> Hgrid]. exact Hgrid.
Qed.

Lemma newsTask_liftP {A} (m : JS A) (sh : Shell) :
  newsTask (snd (liftP m sh)) = newsTask sh.
Proof. unfold liftP. by destruct (m (closure sh)). Qed.

Lemma step_other (sh : Shell) (e : PageEvent) :
  isNewsEvent e = false →
  sameNews (closure sh) (closure (step sh e)) ∧ newsTask (step sh e) = newsTask sh.
Proof.
  intros He. split.
  - rewrite step_closure. destruct e; try discriminate.
    + unfold sameNews. by destruct (closure sh).
    + destruct (scrollTimeout sh); [apply scrollCallback_frame | done].
    + destruct (listening sh); [apply clickNavToggle_news | done].
    + destruct (listening sh); [apply clickPanel_news | done].
    + destruct (listening sh); [apply clickThemeToggle_frame | done].
    + destruct (animationTimeout sh); [apply animationTimer_frame | done].
  - unfold step, dispatch, whenListening, bindP, getsP, modifyP, skipP, retP.
    destruct e; try discriminate; cbn beta iota.
    + unfold liftP, modify. cbn. by destruct (listening sh).
    + destruct (scrollTimeout sh); [|done].
      apply (newsTask_liftP scrollCallback (setScrollTimeout false sh)).
    + destruct (listening sh); [apply newsTask_liftP | done].
    + destruct (listening sh); [apply newsTask_liftP | done].
    + destruct (listening sh); [apply newsTask_liftP | done].
    + destruct (animationTimeout sh); [|done].
      apply (newsTask_liftP animationTimer (setAnimationTimeout false sh)).
Qed.

Lemma run_others (es : list PageEvent) (sh : Shell) :
  forallb (λ e, negb (isNewsEvent e)) es = true →
  sameNews (closure sh) (closure (run es sh)) ∧ newsTask (run es sh) = newsTask sh.
Proof.
  revert sh. induction es as [|e es IH]; intros sh Hall; [done|].
  simpl in Hall. apply andb_true_iff in Hall as [He Hes]. apply negb_true_iff in He.
  destruct (step_other sh e He) as [(H1 & H2 & H3) Htask].
  destruct (IH (step sh e) Hes) as [(H4 & H5 & H6) Htask'].
  change (run (e :: es) sh) with (run es (step sh e)).
  unfold sameNews. rewrite H4, H5, H6, Htask'. done.
Qed.

(** X14.  However scrolls, timers and clicks interleave with the pending
    request and with the parsing of its body, the news panel ends with the
    content [displayFinanceNews] gives when it runs in one piece, and the
    loader is then idle. *)
Theorem news_interleaving (s0 : State) (g : Grid) (sh : Shell)
    (es1 es2 es3 : list PageEvent) :
  newsGrid s0 = Some g →
  closure sh = exec displayFinanceNewsBegin s0 →
  newsTask sh = AwaitingResponse (requests s0) →
  forallb (λ e, negb (isNewsEvent e)) (es1 ++ es2 ++ es3) = true →
  let sh' := run (es1 ++ NewsResponseArrives :: es2 ++ NewsBodyParsed :: es3) sh in
  newsGrid (closure sh') = newsGrid (exec displayFinanceNews s0)
  ∧ newsTask sh' = NewsIdle.
Proof.
  intros Hg Hclosure Htask Hall. cbv zeta.
  rewrite !forallb_app, !andb_true_iff in Hall. destruct Hall as (Hes1 & Hes2 & Hes3).
  rewrite (displayFinanceNews_end s0 g Hg).
  unfold exec in Hclosure. rewrite (displayFinanceNewsBegin_run s0 g Hg) in Hclosure.
  simpl in Hclosure.
  (* the first stretch *)
  rewrite run_app. destruct (run_others es1 sh Hes1) as [(G1 & N1 & _) T1].
  set (sh1 := run es1 sh) in *.
  assert (Hgrid1 : newsGrid (closure sh1) = Some (mkGrid loadingHTML []))
    by (rewrite G1, Hclosure; by destruct s0).
  assert (Hnet1 : network (closure sh1) = network s0)
    by (rewrite N1, Hclosure; by destruct s0).
  (* the response *)
  change (run (NewsResponseArrives :: es2 ++ NewsBodyParsed :: es3) sh1)
    with (run (es2 ++ NewsBodyParsed :: es3) (step sh1 NewsResponseArrives)).
  set (sh2 := step sh1 NewsResponseArrives).
  destruct (displayFinanceNewsResponse_run (requests s0) (closure sh1) _ Hgrid1)
    as (s2 & Hnet2 & Hresp).
  rewrite Hnet1 in Hnet2. rewrite Hnet1 in Hresp.
  assert (Hsh2 : closure sh2 = s2
    ∧ newsTask sh2 = match network s0 (requests s0) with
                     | Response status body =>
                         if responseOk status then AwaitingBody body else NewsIdle
                     | Rejected => NewsIdle
                     end).
  { subst sh2. unfold step, dispatch, bindP, getsP, modifyP, liftP.
    rewrite T1, Htask. cbn beta iota.
    destruct (network s0 (requests s0)) as [|status body].
    - destruct Hresp as [-> _]. done.
    - destruct (responseOk status); destruct Hresp as [-> _]; done. }
  destruct Hsh2 as [Hc2 Ht2].
  (* the second stretch *)
  rewrite run_app. destruct (run_others es2 sh2 Hes2) as [(G3 & N3 & _) T3].
  set (sh3 := run es2 sh2) in *.
  change (run (NewsBodyParsed :: es3) sh3) with (run es3 (step sh3 NewsBodyParsed)).
  destruct (run_others es3 (step sh3 NewsBodyParsed) Hes3) as [(G5 & _ & _) T5].
  rewrite G5, T5. rewrite step_closure.
  assert (Htask3 : newsTask sh3
    = match network s0 (requests s0) with
      | Response status body => if responseOk status then AwaitingBody body else NewsIdle
      | Rejected => NewsIdle
      end) by (rewrite T3; exact Ht2).
  assert (Hgrid3 : newsGrid (closure sh3) = newsGrid s2) by (by rewrite G3, Hc2).
  unfold step, dispatch, bindP, getsP, modifyP, skipP, retP.
  rewrite Htask3. unfold newsEnd.
  destruct (network s0 (requests s0)) as [|status body].
  - destruct Hresp as [_ Hgrid]. cbn beta iota. rewrite Hgrid3. by split.
  - destruct (responseOk status); cbn beta iota.
    + destruct Hresp as [_ Hgrid].
      destruct (displayFinanceNewsBody_run body (closure sh3) (mkGrid loadingHTML []))
        as (s4 & Hrun & _ & Hend); [by rewrite Hgrid3|].
      unfold exec. rewrite Hrun. split; [exact Hend|].
      apply (newsTask_liftP (displayFinanceNewsBody body) (setNewsTask NewsIdle sh3)).
    + destruct Hresp as [_ Hgrid]. rewrite Hgrid3. by split.
Qed.


Lemma news_interleaving_witness :
  let s0 := withNetwork (λ _, Response 200 (ParsedObject (Some []))) samplePage in
  let sh := setNewsTask (AwaitingResponse 0)
              (setClosure (exec displayFinanceNewsBegin s0)
                 (setListening true sampleShell)) in
  let es := ([WindowScroll 120; NavToggleClicked] ++ NewsResponseArrives
             :: [ScrollTimeoutFires; ThemeToggleClicked] ++ NewsBodyParsed
             :: [PanelClicked true])%list in
  newsGrid s0 = Some (mkGrid "" [])
  ∧ newsGrid (closure (run es sh)) = Some (mkGrid noItemsHTML [])
  ∧ newsTask (run es sh) = NewsIdle.
Proof.
  cbv zeta. split; [reflexivity|].
  exact (news_interleaving
           (withNetwork (λ _, Response 200 (ParsedObject (Some []))) samplePage)
           (mkGrid "" [])
           (setNewsTask (AwaitingResponse 0)
              (setClosure
                 (exec displayFinanceNewsBegin
                    (withNetwork (λ _, Response 200 (ParsedObject (Some []))) samplePage))
                 (setListening true sampleShell)))
           [WindowScroll 120; NavToggleClicked] [ScrollTimeoutFires; ThemeToggleClicked]
           [PanelClicked true] eq_refl eq_refl eq_refl eq_refl).
Defined.

(** ** The load *)

Lemma length_append (a b : string) :
  String.length (a ++ b) = (String.length a + String.length b)%nat.
Proof. induction a as [|c a IH]; simpl; [done | by rewrite IH]. Qed.

Lemma mode_not_preload (theme : string) : theme ++ "-mode" ≠ "preload".
Proof.
  intros H. pose proof (f_equal String.length H) as Hlen.
  rewrite length_append in Hlen. simpl in Hlen.
  destruct theme as [|a [|b [|c r]]]; simpl in *; try lia; discriminate.
Qed.

Lemma checkToken_whitespace (theme : string) (s : State) :
  hasWhitespace theme = true →
  checkToken (theme ++ "-mode") s = (Throw (InvalidCharacterError (theme ++ "-mode")), s).
Proof.
  intros Hw. assert (Hws : hasWhitespace (theme ++ "-mode") = true).
  { induction theme as [|c r IH]; [discriminate|]. simpl in *.
    destruct (isAsciiWhitespace c); [done|]. simpl in *. by apply IH. }
  unfold checkToken. rewrite Hws. destruct theme; [discriminate|reflexivity].
Qed.

Lemma initialiseState_run (sh : Shell) :
  let s := closure sh in
  initialiseState sh
  = if accessible (localStorage s)
    then (Normal tt,
          setClosure
            (withCurrentTheme (strOr (slots (localStorage s) !! "theme") "light")
               (withIsNavOpen false (withLastScrollY (scrollY s) s)))
            (setPluginRegistered true sh))
    else (Throw SecurityError,
          setClosure (withIsNavOpen false (withLastScrollY (scrollY s) s))
            (setPluginRegistered true sh)).
Proof.
  cbv zeta. unfold initialiseState, bindP, liftP, modifyP, readStoredTheme, bind, gets,
    modify, getItem, ret.
  destruct sh as [s]. destruct s as [? ? ? ? ? ? ? ? ? ? ? ? [acc wr sl]].
  cbn. destruct acc; reflexivity.
Qed.






(** ** The end of the news loader *)





Lemma bindP_run {A B} (m : PageJS A) (f : A → PageJS B) (sh sh1 : Shell) (a : A) :
  m sh = (Normal a, sh1) → bindP m f sh = f a sh1.
Proof. intros H. unfold bindP. by rewrite H. Qed.

(** The load from [setFooterYear] on. *)
Local Opaque Nat.ltb.
Local Transparent Nat.ltb.



(** ** The load that does not complete *)

Lemma bindP_throw {A B} (m : PageJS A) (f : A → PageJS B) (sh sh1 : Shell) (e : Exn) :
  m sh = (Throw e, sh1) → bindP m f sh = (Throw e, sh1).
Proof. intros H. unfold bindP. by rewrite H. Qed.

(** [applyTheme] when the storage does not take the write: it throws, and
    has touched nothing but the theme classes of [body]. *)
Lemma applyTheme_abort (theme : string) (s : State) :
  accessible (localStorage s) && writable (localStorage s) = false →
  ∃ e s', applyTheme theme s = (Throw e, s')
    ∧ ("preload" ∈ body s' ↔ "preload" ∈ body s)
    ∧ requests s' = requests s ∧ newsGrid s' = newsGrid s.
Proof.
  intros Hst.
  assert (Hpre : ∀ bd : gset string,
            "preload" ∈ (bd ∖ {["light-mode"]}) ∖ {["dark-mode"]} ↔ "preload" ∈ bd).
  { intros bd. rewrite !elem_of_difference, !elem_of_singleton.
    split; [tauto|]. intros Hin. repeat split; [done | discriminate..]. }
  destruct s as [bd ? ? ? tg ? ? ? ? ? ? ? [acc wr sl]].
  unfold applyTheme, bind.
  unfold bodyClassListRemove, bodyClassListAdd, bind, modify. simpl.
  destruct (hasWhitespace theme) eqn:Hw.
  - rewrite checkToken_whitespace by done.
    eexists _, _. split; [reflexivity|]. simpl. by rewrite Hpre.
  - rewrite checkToken_mode by done. unfold setItem. simpl in *.
    assert (Hmode : "preload" ∈ {[theme ++ "-mode"]} ∪ (bd ∖ {["light-mode"]}) ∖ {["dark-mode"]}
                    ↔ "preload" ∈ bd).
    { rewrite elem_of_union, elem_of_singleton, Hpre. split; [|tauto].
      intros [Heq | Hin]; [|done]. symmetry in Heq. by apply mode_not_preload in Heq. }
    destruct acc, wr; try discriminate; simpl.
    all: eexists _, _; split; [reflexivity|]; simpl; by rewrite Hmode.
Qed.

(** X17.  When the stored preference cannot be read, or cannot be written
    back, the load stops with an exception at line 22 or at line 344: the
    class [preload] stays on [body] if it was there, no element is given an
    opacity, the footer year is not set, no request is sent and no timer
    is set.  In the first case the listeners are not registered either; in
    the second they are. *)
Theorem pageLoad_aborts (sh : Shell) :
  let s := closure sh in
  accessible (localStorage s) && writable (localStorage s) = false →
  let sh' := snd (pageLoad sh) in
  let s' := closure sh' in
  (∃ e, fst (pageLoad sh) = Throw e)
  ∧ ("preload" ∈ body s' ↔ "preload" ∈ body s)
  ∧ fadeOpacity sh' = fadeOpacity sh
  ∧ currentYearSpan sh' = currentYearSpan sh
  ∧ (requests s' = requests s ∧ newsGrid s' = newsGrid s ∧ newsTask sh' = newsTask sh)
  ∧ animationTimeout sh' = animationTimeout sh
  ∧ (accessible (localStorage s) = false →
       fst (pageLoad sh) = Throw SecurityError ∧ listening sh' = listening sh)
  ∧ (accessible (localStorage s) = true → listening sh' = true).
Proof.
  cbv zeta. intros Hst. unfold pageLoad.
  pose proof (initialiseState_run sh) as Hinit. cbv zeta in Hinit.
  destruct (accessible (localStorage (closure sh))) eqn:Hacc.
  - rewrite (bindP_run _ _ _ _ _ Hinit).
    rewrite (bindP_run (modifyP (setListening true)) _ _ _ tt eq_refl).
    set (s1 := withCurrentTheme _ _) in *.
    set (sh2 := setListening true _).
    assert (Hgets : liftP (gets currentTheme) sh2 = (Normal (currentTheme s1), sh2))
      by (subst sh2; by destruct sh as [[]]).
    rewrite (bindP_run _ _ _ _ _ Hgets).
    destruct (applyTheme_abort (currentTheme s1) s1) as (e & s' & Hrun & Hpre & Hreq & Hgrid).
    { subst s1. destruct sh as [[]]. cbn in *. by rewrite Hacc. }
    assert (Hlift : liftP (applyTheme (currentTheme s1)) sh2 = (Throw e, setClosure s' sh2)).
    { unfold liftP. subst sh2. cbn [closure setListening setClosure setPluginRegistered].
      by rewrite Hrun. }
    rewrite (bindP_throw _ _ _ _ _ Hlift). cbn [fst snd].
    subst sh2 s1. destruct sh as [[]]. cbn in *.
    rewrite Hpre, Hreq, Hgrid. repeat split; eauto; done.
  - rewrite (bindP_throw _ _ _ _ _ Hinit). cbn [fst snd].
    destruct sh as [[]]. cbn. repeat split; eauto; done.
Qed.

Lemma pageLoad_aborts_witness :
  let sh := setClosure (withLocalStorage (mkStorage true false ∅) (closure sampleShell))
              sampleShell in
  accessible (localStorage (closure sh)) && writable (localStorage (closure sh)) = false
  ∧ fst (pageLoad sh) = Throw QuotaExceededError
  ∧ "preload" ∈ body (closure (snd (pageLoad sh)))
  ∧ listening (snd (pageLoad sh)) = true
  ∧ animationTimeout (snd (pageLoad sh)) = false.
Proof.
  cbv zeta.
  destruct (pageLoad_aborts
              (setClosure (withLocalStorage (mkStorage true false ∅) (closure sampleShell))
                 sampleShell) eq_refl)
    as (_ & Hpre & _ & _ & _ & Htimer & _ & Hlisten).
  split; [reflexivity|]. split; [reflexivity|]. split; [|split].
  - apply Hpre. vm_compute. reflexivity.
  - exact (Hlisten eq_refl).
  - exact Htimer.
Defined.
